(** * VirtualPainter: the collaborative canvas client

    A shallow embedding of [src/VirtualPainter.py] (class
    [CollaborativePainter]): the brush selector, the connection life cycle
    ([connect_to_server], [receive_drawings]), the draw-event codec that
    [send_drawing] and [receive_drawings] share, the hand-tracking part and
    the compositor of [run], the alpha blend of [overlay_header], and the
    lock discipline around the canvas.

    Python objects are modelled as follows.
    - [self] is the record [painter]; an attribute assignment is a setter.
    - Values that travel through [json] are [pyval]s.
    - A numpy array is an [ndarray]: its shape and a total function from
      indices to channel values.
    - The libraries the program calls ([json], [cv2.line], the websocket
      endpoint, the clock) are parameters of the development, so every
      theorem holds whatever they compute; concrete test doubles in the
      modules [Json] and [Cv2] instantiate them on closed inputs. *)

From Stdlib Require Import ZArith String Ascii List Bool Lia.
From Stdlib Require Import DecimalString DecimalPos DecimalFacts.
From Stdlib Require Import Floats Uint63.
From Equations Require Import Equations.
From stdpp Require Import base option list gmap strings.
Import ListNotations.
Local Open Scope Z_scope.

(** ** Python values *)

Local Set Warnings "-register-all".

Inductive pyval : Type :=
| PNone
| PBool (b : bool)
| PInt (z : Z)
| PFloat (m e : Z)                       (* the float m * 2^e *)
| PStr (s : string)
| PList (l : list pyval)
| PTuple (l : list pyval)
| PDict (kvs : list (string * pyval)).   (* insertion order, keys unique *)

Fixpoint dict_lookup (k : string) (kvs : list (string * pyval)) : option pyval :=
  match kvs with
  | [] => None
  | (k', v) :: rest => if String.eqb k k' then Some v else dict_lookup k rest
  end.

(** [d[k] = v] on a dict: replaces the value of an existing key, appends a
    new one. *)
Fixpoint dict_set (k : string) (v : pyval) (kvs : list (string * pyval))
  : list (string * pyval) :=
  match kvs with
  | [] => [(k, v)]
  | (k', v') :: rest =>
      if String.eqb k k' then (k', v) :: rest else (k', v') :: dict_set k v rest
  end.

(** In the option monad below, [None] stands for "a Python exception was
    raised". *)

(** [data.get(k)]: only a dict has the method (AttributeError otherwise);
    a missing key gives Python's [None]. *)
Definition py_get (data : pyval) (k : string) : option pyval :=
  match data with
  | PDict kvs => Some (default PNone (dict_lookup k kvs))
  | _ => None
  end.

(** [data[k]] with a string key: KeyError on a missing key, TypeError on
    anything that is not a dict. *)
Definition py_getitem (data : pyval) (k : string) : option pyval :=
  match data with
  | PDict kvs => dict_lookup k kvs
  | _ => None
  end.

(** [v == s] for a string literal [s]. *)
Definition py_eq_str (v : pyval) (s : string) : bool :=
  match v with
  | PStr s' => String.eqb s' s
  | _ => false
  end.

(** [tuple(v)]: iterates lists, tuples, strings (characters) and dicts
    (keys); TypeError on the rest. *)
Definition py_tuple (v : pyval) : option pyval :=
  match v with
  | PList l => Some (PTuple l)
  | PTuple l => Some (PTuple l)
  | PStr s =>
      Some (PTuple (map (fun c => PStr (String c EmptyString)) (list_ascii_of_string s)))
  | PDict kvs => Some (PTuple (map (fun kv => PStr (fst kv)) kvs))
  | _ => None
  end.

(** ** numpy arrays *)

Record ndarray := {
  rows : Z;
  cols : Z;
  chans : Z;
  px : Z -> Z -> Z -> Z   (* row, column, channel *)
}.

(** [np.zeros((h, w, c), np.uint8)] *)
Definition np_zeros (h w c : Z) : ndarray :=
  {| rows := h; cols := w; chans := c; px := fun _ _ _ => 0 |}.

Definition same_shape (a b : ndarray) : bool :=
  (rows a =? rows b) && (cols a =? cols b) && (chans a =? chans b).

Definition in_bounds (a : ndarray) (r c : Z) : bool :=
  (0 <=? r) && (r <? rows a) && (0 <=? c) && (c <? cols a).

(** Storing one pixel: row, column and the channel values written there.
    A position outside the array is clipped. *)
Definition pixel_write : Type := Z * Z * list Z.

Definition store (w : pixel_write) (img : ndarray) : ndarray :=
  let '(r, c, vals) := w in
  if in_bounds img r c then
    {| rows := rows img; cols := cols img; chans := chans img;
       px := fun r' c' ch =>
               if (r' =? r) && (c' =? c) && (0 <=? ch) && (ch <? chans img)
               then nth (Z.to_nat ch) vals 0
               else px img r' c' ch |}
  else img.

Definition store_all (ws : list pixel_write) (img : ndarray) : ndarray :=
  fold_left (fun a w => store w a) ws img.

(** ** The painter object *)

Record painter := {
  (* init_drawing_settings *)
  drawColor : Z * Z * Z;
  brushThickness : Z;
  eraserThickness : Z;
  imgCanvas : ndarray;
  displayBuffer : ndarray;
  xp : Z;
  yp : Z;
  is_drawing : bool;
  (* init_header_images *)
  header_pink : ndarray;
  header_blue : ndarray;
  header_green : ndarray;
  header_eraser : ndarray;
  current_brush : string;
  current_header : ndarray;
  (* init_network *)
  ws : option nat;         (* None, or the connection the n-th handshake opened *)
  running : bool;
  connected : bool;
  retry_count : Z;
  max_retries : Z;
  (* __init__ *)
  local_mode : bool
}.

Definition set_brush (color : Z * Z * Z) (name : string) (hdr : ndarray) (p : painter) : painter :=
  {| drawColor := color; brushThickness := brushThickness p;
     eraserThickness := eraserThickness p; imgCanvas := imgCanvas p;
     displayBuffer := displayBuffer p; xp := xp p; yp := yp p;
     is_drawing := is_drawing p; header_pink := header_pink p;
     header_blue := header_blue p; header_green := header_green p;
     header_eraser := header_eraser p; current_brush := name;
     current_header := hdr; ws := ws p; running := running p;
     connected := connected p; retry_count := retry_count p;
     max_retries := max_retries p; local_mode := local_mode p |}.

Definition set_imgCanvas (img : ndarray) (p : painter) : painter :=
  {| drawColor := drawColor p; brushThickness := brushThickness p;
     eraserThickness := eraserThickness p; imgCanvas := img;
     displayBuffer := displayBuffer p; xp := xp p; yp := yp p;
     is_drawing := is_drawing p; header_pink := header_pink p;
     header_blue := header_blue p; header_green := header_green p;
     header_eraser := header_eraser p; current_brush := current_brush p;
     current_header := current_header p; ws := ws p; running := running p;
     connected := connected p; retry_count := retry_count p;
     max_retries := max_retries p; local_mode := local_mode p |}.

Definition set_displayBuffer (img : ndarray) (p : painter) : painter :=
  {| drawColor := drawColor p; brushThickness := brushThickness p;
     eraserThickness := eraserThickness p; imgCanvas := imgCanvas p;
     displayBuffer := img; xp := xp p; yp := yp p;
     is_drawing := is_drawing p; header_pink := header_pink p;
     header_blue := header_blue p; header_green := header_green p;
     header_eraser := header_eraser p; current_brush := current_brush p;
     current_header := current_header p; ws := ws p; running := running p;
     connected := connected p; retry_count := retry_count p;
     max_retries := max_retries p; local_mode := local_mode p |}.

Definition set_xp_yp (x y : Z) (p : painter) : painter :=
  {| drawColor := drawColor p; brushThickness := brushThickness p;
     eraserThickness := eraserThickness p; imgCanvas := imgCanvas p;
     displayBuffer := displayBuffer p; xp := x; yp := y;
     is_drawing := is_drawing p; header_pink := header_pink p;
     header_blue := header_blue p; header_green := header_green p;
     header_eraser := header_eraser p; current_brush := current_brush p;
     current_header := current_header p; ws := ws p; running := running p;
     connected := connected p; retry_count := retry_count p;
     max_retries := max_retries p; local_mode := local_mode p |}.

Definition set_is_drawing (b : bool) (p : painter) : painter :=
  {| drawColor := drawColor p; brushThickness := brushThickness p;
     eraserThickness := eraserThickness p; imgCanvas := imgCanvas p;
     displayBuffer := displayBuffer p; xp := xp p; yp := yp p;
     is_drawing := b; header_pink := header_pink p;
     header_blue := header_blue p; header_green := header_green p;
     header_eraser := header_eraser p; current_brush := current_brush p;
     current_header := current_header p; ws := ws p; running := running p;
     connected := connected p; retry_count := retry_count p;
     max_retries := max_retries p; local_mode := local_mode p |}.

Definition set_ws (c : option nat) (p : painter) : painter :=
  {| drawColor := drawColor p; brushThickness := brushThickness p;
     eraserThickness := eraserThickness p; imgCanvas := imgCanvas p;
     displayBuffer := displayBuffer p; xp := xp p; yp := yp p;
     is_drawing := is_drawing p; header_pink := header_pink p;
     header_blue := header_blue p; header_green := header_green p;
     header_eraser := header_eraser p; current_brush := current_brush p;
     current_header := current_header p; ws := c; running := running p;
     connected := connected p; retry_count := retry_count p;
     max_retries := max_retries p; local_mode := local_mode p |}.

Definition set_running (b : bool) (p : painter) : painter :=
  {| drawColor := drawColor p; brushThickness := brushThickness p;
     eraserThickness := eraserThickness p; imgCanvas := imgCanvas p;
     displayBuffer := displayBuffer p; xp := xp p; yp := yp p;
     is_drawing := is_drawing p; header_pink := header_pink p;
     header_blue := header_blue p; header_green := header_green p;
     header_eraser := header_eraser p; current_brush := current_brush p;
     current_header := current_header p; ws := ws p; running := b;
     connected := connected p; retry_count := retry_count p;
     max_retries := max_retries p; local_mode := local_mode p |}.

Definition set_connected (b : bool) (p : painter) : painter :=
  {| drawColor := drawColor p; brushThickness := brushThickness p;
     eraserThickness := eraserThickness p; imgCanvas := imgCanvas p;
     displayBuffer := displayBuffer p; xp := xp p; yp := yp p;
     is_drawing := is_drawing p; header_pink := header_pink p;
     header_blue := header_blue p; header_green := header_green p;
     header_eraser := header_eraser p; current_brush := current_brush p;
     current_header := current_header p; ws := ws p; running := running p;
     connected := b; retry_count := retry_count p;
     max_retries := max_retries p; local_mode := local_mode p |}.

Definition set_retry_count (n : Z) (p : painter) : painter :=
  {| drawColor := drawColor p; brushThickness := brushThickness p;
     eraserThickness := eraserThickness p; imgCanvas := imgCanvas p;
     displayBuffer := displayBuffer p; xp := xp p; yp := yp p;
     is_drawing := is_drawing p; header_pink := header_pink p;
     header_blue := header_blue p; header_green := header_green p;
     header_eraser := header_eraser p; current_brush := current_brush p;
     current_header := current_header p; ws := ws p; running := running p;
     connected := connected p; retry_count := n;
     max_retries := max_retries p; local_mode := local_mode p |}.

Definition set_local_mode (b : bool) (p : painter) : painter :=
  {| drawColor := drawColor p; brushThickness := brushThickness p;
     eraserThickness := eraserThickness p; imgCanvas := imgCanvas p;
     displayBuffer := displayBuffer p; xp := xp p; yp := yp p;
     is_drawing := is_drawing p; header_pink := header_pink p;
     header_blue := header_blue p; header_green := header_green p;
     header_eraser := header_eraser p; current_brush := current_brush p;
     current_header := current_header p; ws := ws p; running := running p;
     connected := connected p; retry_count := retry_count p;
     max_retries := max_retries p; local_mode := b |}.

(** [CollaborativePainter()]: the three [init_*] methods that set
    attributes, then [self.local_mode = False].  The four header images
    come from files and are arguments here. *)
Definition new_painter (hp hb hg he : ndarray) : painter :=
  {| drawColor := (189, 189, 103);
     brushThickness := 15;
     eraserThickness := 50;
     imgCanvas := np_zeros 720 1280 3;
     displayBuffer := np_zeros 720 1280 3;
     xp := 0; yp := 0;
     is_drawing := false;
     header_pink := hp; header_blue := hb; header_green := hg; header_eraser := he;
     current_brush := "pink";
     current_header := hp;
     ws := None;
     running := true;
     connected := false;
     retry_count := 0;
     max_retries := 3;
     local_mode := false |}.

(** ** Brush selection *)

Definition update_current_brush (x1 : Z) (p : painter) : painter :=
  if (250 <? x1) && (x1 <? 450) then
    set_brush (189, 189, 103) "pink" (header_pink p) p
  else if (550 <? x1) && (x1 <? 750) then
    set_brush (86, 48, 189) "blue" (header_blue p) p
  else if (800 <? x1) && (x1 <? 1000) then
    set_brush (17, 141, 255) "green" (header_green p) p
  else if (1050 <? x1) && (x1 <? 1200) then
    set_brush (0, 0, 0) "eraser" (header_eraser p) p
  else p.

(** ** Library doubles

    Executable stand-ins for the two libraries whose results the program
    inspects.  The theorems below never mention them: they are stated for
    arbitrary [json] and [cv2.line] functions.  The doubles serve to run the
    program on closed inputs. *)

Module Json.

Definition quote : ascii := ascii_of_nat 34.
Definition backslash : ascii := ascii_of_nat 92.

Definition code (c : ascii) : Z := Z.of_nat (nat_of_ascii c).

(** *** [json.dumps] with the default separators.
    [None] marks a value outside the modelled subset: floats, and strings
    with control or non-ASCII characters. *)

Definition dump_int (z : Z) : list ascii :=
  list_ascii_of_string (NilZero.string_of_int (Z.to_int z)).

Fixpoint dump_chars (s : list ascii) : option (list ascii) :=
  match s with
  | [] => Some []
  | c :: r =>
      if (code c <? 32) || (126 <? code c) then None
      else if Ascii.eqb c quote || Ascii.eqb c backslash
           then option_map (fun t => backslash :: c :: t) (dump_chars r)
           else option_map (cons c) (dump_chars r)
  end.

Definition dump_str (s : string) : option (list ascii) :=
  option_map (fun t => quote :: t ++ [quote]) (dump_chars (list_ascii_of_string s)).

Definition sep : list ascii := list_ascii_of_string ", ".
Definition colon : list ascii := list_ascii_of_string ": ".

Fixpoint dump (v : pyval) : option (list ascii) :=
  let fix dump_items (l : list pyval) : option (list ascii) :=
    match l with
    | [] => Some []
    | [x] => dump x
    | x :: rest =>
        match dump x, dump_items rest with
        | Some a, Some b => Some (a ++ sep ++ b)
        | _, _ => None
        end
    end in
  let fix dump_members (l : list (string * pyval)) : option (list ascii) :=
    match l with
    | [] => Some []
    | (k, x) :: rest =>
        match dump_str k, dump x, dump_members rest with
        | Some a, Some b, Some c =>
            Some (a ++ colon ++ b ++ match rest with [] => [] | _ => sep end ++ c)
        | _, _, _ => None
        end
    end in
  match v with
  | PNone => Some (list_ascii_of_string "null")
  | PBool true => Some (list_ascii_of_string "true")
  | PBool false => Some (list_ascii_of_string "false")
  | PInt z => Some (dump_int z)
  | PFloat _ _ => None
  | PStr s => dump_str s
  | PList l | PTuple l =>
      option_map (fun t => "["%char :: t ++ ["]"%char]) (dump_items l)
  | PDict kvs =>
      option_map (fun t => "{"%char :: t ++ ["}"%char]) (dump_members kvs)
  end.

Definition dumps (v : pyval) : option string :=
  option_map string_of_list_ascii (dump v).

(** *** [json.loads] on the same subset: whitespace, [null], [true],
    [false], integers, strings with the one-character escapes, arrays and
    objects.  A number with a fraction or an exponent and a [\u] escape are
    outside the subset and give [None]. *)

Definition is_ws (c : ascii) : bool :=
  (code c =? 32) || (code c =? 9) || (code c =? 10) || (code c =? 13).

Fixpoint skip_ws (s : list ascii) : list ascii :=
  match s with
  | c :: r => if is_ws c then skip_ws r else s
  | [] => []
  end.

Definition digit_val (c : ascii) : option Z :=
  if (48 <=? code c) && (code c <=? 57) then Some (code c - 48) else None.

Fixpoint parse_digits (acc : Z) (s : list ascii) : Z * list ascii :=
  match s with
  | c :: r =>
      match digit_val c with
      | Some d => parse_digits (10 * acc + d) r
      | None => (acc, s)
      end
  | [] => (acc, [])
  end.

Definition starts_fraction (s : list ascii) : bool :=
  match s with
  | c :: _ => Ascii.eqb c "." || Ascii.eqb c "e" || Ascii.eqb c "E"
  | [] => false
  end.

Definition parse_nat (s : list ascii) : option (Z * list ascii) :=
  match s with
  | c :: r =>
      match digit_val c with
      | Some d =>
          let '(n, rest) := if d =? 0 then (0, r) else parse_digits d r in
          if starts_fraction rest then None else Some (n, rest)
      | None => None
      end
  | [] => None
  end.

Definition parse_number (s : list ascii) : option (pyval * list ascii) :=
  match s with
  | c :: r =>
      if Ascii.eqb c "-"
      then option_map (fun nr => (PInt (- fst nr), snd nr)) (parse_nat r)
      else option_map (fun nr => (PInt (fst nr), snd nr)) (parse_nat s)
  | [] => None
  end.

Definition unescape (c : ascii) : option ascii :=
  if Ascii.eqb c quote then Some quote
  else if Ascii.eqb c backslash then Some backslash
  else if Ascii.eqb c "/" then Some "/"%char
  else if Ascii.eqb c "n" then Some (ascii_of_nat 10)
  else if Ascii.eqb c "t" then Some (ascii_of_nat 9)
  else if Ascii.eqb c "r" then Some (ascii_of_nat 13)
  else if Ascii.eqb c "b" then Some (ascii_of_nat 8)
  else if Ascii.eqb c "f" then Some (ascii_of_nat 12)
  else None.

(** The text after an opening quote, up to the closing one. *)
Fixpoint parse_string (acc : list ascii) (s : list ascii) : option (string * list ascii) :=
  match s with
  | [] => None
  | c :: r =>
      if Ascii.eqb c quote then Some (string_of_list_ascii (rev acc), r)
      else if Ascii.eqb c backslash then
        match r with
        | e :: r' =>
            match unescape e with
            | Some x => parse_string (x :: acc) r'
            | None => None
            end
        | [] => None
        end
      else if code c <? 32 then None
      else parse_string (c :: acc) r
  end.

Fixpoint strip_prefix (p s : list ascii) : option (list ascii) :=
  match p, s with
  | [], _ => Some s
  | a :: p', b :: s' => if Ascii.eqb a b then strip_prefix p' s' else None
  | _ :: _, [] => None
  end.

Definition literal (w : string) (s : list ascii) : option (list ascii) :=
  strip_prefix (list_ascii_of_string w) s.

Fixpoint parse_value (fuel : nat) (s : list ascii) : option (pyval * list ascii) :=
  match fuel with
  | O => None
  | S f =>
      match skip_ws s with
      | [] => None
      | c :: r =>
          if Ascii.eqb c quote then
            option_map (fun sr => (PStr (fst sr), snd sr)) (parse_string [] r)
          else if Ascii.eqb c "[" then
            match skip_ws r with
            | c' :: r' =>
                if Ascii.eqb c' "]" then Some (PList [], r') else parse_items f [] r
            | [] => None
            end
          else if Ascii.eqb c "{" then
            match skip_ws r with
            | c' :: r' =>
                if Ascii.eqb c' "}" then Some (PDict [], r') else parse_members f [] r
            | [] => None
            end
          else if Ascii.eqb c "n" then
            option_map (pair PNone) (literal "null" (c :: r))
          else if Ascii.eqb c "t" then
            option_map (pair (PBool true)) (literal "true" (c :: r))
          else if Ascii.eqb c "f" then
            option_map (pair (PBool false)) (literal "false" (c :: r))
          else parse_number (c :: r)
      end
  end

with parse_items (fuel : nat) (acc : list pyval) (s : list ascii)
  : option (pyval * list ascii) :=
  match fuel with
  | O => None
  | S f =>
      match parse_value f s with
      | Some (v, r) =>
          match skip_ws r with
          | c :: r' =>
              if Ascii.eqb c "," then parse_items f (v :: acc) r'
              else if Ascii.eqb c "]" then Some (PList (rev (v :: acc)), r')
              else None
          | [] => None
          end
      | None => None
      end
  end

with parse_members (fuel : nat) (acc : list (string * pyval)) (s : list ascii)
  : option (pyval * list ascii) :=
  match fuel with
  | O => None
  | S f =>
      match skip_ws s with
      | q :: r0 =>
          if Ascii.eqb q quote then
            match parse_string [] r0 with
            | Some (k, r1) =>
                match skip_ws r1 with
                | c1 :: r2 =>
                    if Ascii.eqb c1 ":" then
                      match parse_value f r2 with
                      | Some (v, r3) =>
                          match skip_ws r3 with
                          | c :: r' =>
                              if Ascii.eqb c "," then parse_members f (dict_set k v acc) r'
                              else if Ascii.eqb c "}" then Some (PDict (dict_set k v acc), r')
                              else None
                          | [] => None
                          end
                      | None => None
                      end
                    else None
                | [] => None
                end
            | None => None
            end
          else None
      | [] => None
      end
  end.

Definition loads (m : string) : option pyval :=
  let s := list_ascii_of_string m in
  match parse_value (S (List.length s)) s with
  | Some (v, rest) => match skip_ws rest with [] => Some v | _ => None end
  | None => None
  end.

End Json.

Module Cv2.

(** *** Argument conversion of the Python binding *)

Definition to_int (v : pyval) : option Z :=
  match v with
  | PInt z => Some z
  | _ => None
  end.

(** A point is a sequence of two integers. *)
Definition to_point (v : pyval) : option (Z * Z) :=
  match v with
  | PTuple [a; b] | PList [a; b] =>
      match to_int a, to_int b with
      | Some x, Some y => Some (x, y)
      | _, _ => None
      end
  | _ => None
  end.

(** A number as a colour component; a float [m * 2^e] is rounded to the
    nearest integer (halves upwards). *)
Definition to_number (v : pyval) : option Z :=
  match v with
  | PInt z => Some z
  | PBool b => Some (if b then 1 else 0)
  | PFloat m e =>
      Some (if 0 <=? e then m * 2 ^ e else (2 * m + 2 ^ (- e)) / 2 ^ (1 - e))
  | _ => None
  end.

Fixpoint to_numbers (l : list pyval) : option (list Z) :=
  match l with
  | [] => Some []
  | v :: r =>
      match to_number v, to_numbers r with
      | Some z, Some zs => Some (z :: zs)
      | _, _ => None
      end
  end.

(** A [Scalar]: one number, or a sequence of at most four numbers; the
    channels a short sequence leaves out are zero. *)
Definition to_scalar (v : pyval) : option (list Z) :=
  match v with
  | PTuple l | PList l =>
      if (4 <? Z.of_nat (List.length l)) then None else to_numbers l
  | _ => option_map (fun z => [z]) (to_number v)
  end.

(** [saturate_cast<uchar>] *)
Definition saturate (z : Z) : Z := Z.max 0 (Z.min 255 z).

(** *** The rasteriser
    The centre line steps along the longer axis; a square brush of side
    [thickness] is stamped on every centre pixel.  For a one-pixel-thick
    horizontal, vertical or diagonal segment these are exactly the pixels
    of OpenCV's 8-connected line. *)

Definition round_div (a n : Z) : Z := (2 * a + n) / (2 * n).

Definition path (x1 y1 x2 y2 : Z) : list (Z * Z) :=
  let dx := x2 - x1 in
  let dy := y2 - y1 in
  let n := Z.max (Z.abs dx) (Z.abs dy) in
  if n =? 0 then [(x1, y1)]
  else map (fun i => (x1 + round_div (i * dx) n, y1 + round_div (i * dy) n))
           (seqZ 0 (n + 1)).

Definition brush (t : Z) (p : Z * Z) : list (Z * Z) :=
  let offsets := seqZ (- ((t - 1) / 2)) t in
  flat_map (fun dy => map (fun dx => (fst p + dx, snd p + dy)) offsets) offsets.

(** The pixels a call stores, in order, or [None] when the arguments are
    refused ([cv2.error] or [TypeError], raised before anything is drawn). *)
Definition raster (pt1 pt2 color thickness : pyval) : option (list pixel_write) :=
  match to_point pt1, to_point pt2, to_scalar color, to_int thickness with
  | Some (x1, y1), Some (x2, y2), Some c, Some t =>
      if (0 <? t) && (t <=? 32767) then
        Some (map (fun q => (snd q, fst q, map saturate c))
                  (flat_map (brush t) (path x1 y1 x2 y2)))
      else None
  | _, _, _, _ => None
  end.

(** [cv2.line(img, pt1, pt2, color, thickness)] *)
Definition line (img : ndarray) (pt1 pt2 color thickness : pyval) : option ndarray :=
  option_map (fun ws => store_all ws img) (raster pt1 pt2 color thickness).

(** [cv2.cvtColor(_, cv2.COLOR_BGR2GRAY)] on one 8-bit pixel:
    Y = 0.114 B + 0.587 G + 0.299 R in 14-bit fixed point. *)
Definition luma (b g r : Z) : Z :=
  Z.shiftr (b * 1868 + g * 9617 + r * 4899 + 8192) 14.

End Cv2.

(** ** Network effects

    What the program does to the outside world is recorded, in order, in
    an [io_trace]. *)

Inductive io_event :=
| Handshake (accepted : bool)   (* websockets.connect(...) returned / raised *)
| Backoff (seconds : Z)         (* await asyncio.sleep(1) after a refusal *)
| Dispatch (payload : string)   (* asyncio.create_task(self.ws.send(payload)) *)
| Close.                        (* await self.ws.close() *)

Definition io_trace := list io_event.

(** Handshakes attempted so far, and those that were refused. *)
Fixpoint attempts (t : io_trace) : nat :=
  match t with
  | [] => O
  | Handshake _ :: r => S (attempts r)
  | _ :: r => attempts r
  end.

Fixpoint refusals (t : io_trace) : nat :=
  match t with
  | [] => O
  | Handshake false :: r => S (refusals r)
  | _ :: r => refusals r
  end.

(** What one [await asyncio.wait_for(self.ws.recv(), timeout=0.01)] gives. *)
Inductive recv_outcome :=
| RecvTimeout                 (* asyncio.TimeoutError *)
| RecvMessage (m : string)
| RecvClosed                  (* websockets.exceptions.ConnectionClosed *)
| RecvError.                  (* any other exception *)

(** The hand detector's answer for one frame: the tips of the index and
    middle fingers ([lmList[8][1:]], [lmList[12][1:]]) and which of the two
    fingers are up ([fingers[1]], [fingers[2]]). *)
Record gesture := {
  index_tip : Z * Z;
  middle_tip : Z * Z;
  index_up : bool;
  middle_up : bool
}.

(** A call either returns or raises; in both cases the object is left in
    some state. *)
Inductive outcome (A : Type) :=
| Returned (a : A)
| Raised (a : A).
Arguments Returned {A} a.
Arguments Raised {A} a.

Section Painter.

(** The endpoint: does it accept the [n]-th handshake of the session? *)
Variable endpoint : nat -> bool.
(** [json.dumps] and [json.loads]; [None] is a raised exception. *)
Variable json_dumps : pyval -> option string.
Variable json_loads : string -> option pyval.
(** [cv2.line(img, pt1, pt2, color, thickness)]: the array after the call,
    or [None] when the call raises (OpenCV checks its arguments before it
    draws, so a raising call leaves the array as it was). *)
Variable cv2_line : ndarray -> pyval -> pyval -> pyval -> pyval -> option ndarray.

(** *** connect_to_server *)

Equations? connect_to_server (p : painter) (t : io_trace) : bool * painter * io_trace
  by wf (Z.to_nat (max_retries p - retry_count p)) lt :=
connect_to_server p t with Z_lt_dec (retry_count p) (max_retries p) := {
  | left _ =>
      if endpoint (attempts t) then
        (true,
         set_connected true (set_ws (Some (attempts t)) p),
         t ++ [Handshake true])
      else
        connect_to_server (set_retry_count (retry_count p + 1) p)
                          (t ++ [Handshake false; Backoff 1]);
  | right _ => (false, p, t) }.
Proof. simpl. lia. Qed.

(** *** The draw-event codec *)

(** The dict [send_drawing] builds; [now] is
    [str(datetime.now().timestamp())]. *)
Definition draw_record (now : string) (x1 y1 x2 y2 : Z) (color : Z * Z * Z)
  (thickness : Z) : pyval :=
  let '(c0, c1, c2) := color in
  PDict [("type", PStr "draw");
         ("x1", PInt x1);
         ("y1", PInt y1);
         ("x2", PInt x2);
         ("y2", PInt y2);
         ("color", PList [PInt c0; PInt c1; PInt c2]);
         ("thickness", PInt thickness);
         ("timestamp", PStr now)].

(** [json.dumps(data)] of that dict: the bytes put on the wire. *)
Definition encode (now : string) (x1 y1 x2 y2 : Z) (color : Z * Z * Z)
  (thickness : Z) : option string :=
  json_dumps (draw_record now x1 y1 x2 y2 color thickness).

(** The arguments of a [cv2.line] call after the image: two points, the
    colour and the thickness. *)
Definition line_args : Type := pyval * pyval * pyval * pyval.

(** The arguments [send_drawing] passes for a local stroke. *)
Definition local_args (x1 y1 x2 y2 : Z) (color : Z * Z * Z) (thickness : Z) : line_args :=
  let '(c0, c1, c2) := color in
  (PTuple [PInt x1; PInt y1], PTuple [PInt x2; PInt y2],
   PTuple [PInt c0; PInt c1; PInt c2], PInt thickness).

(** The arguments [receive_drawings] reads out of a parsed draw event, in
    the order Python evaluates them. *)
Definition remote_args (data : pyval) : option line_args :=
  x1 ← py_getitem data "x1";
  y1 ← py_getitem data "y1";
  x2 ← py_getitem data "x2";
  y2 ← py_getitem data "y2";
  c ← py_getitem data "color";
  color ← py_tuple c;
  thickness ← py_getitem data "thickness";
  Some (PTuple [x1; y1], PTuple [x2; y2], color, thickness).

(** What the receive path makes of a message: [None] when it raises,
    [Some None] when the message is not a draw event, [Some (Some args)]
    when it is one. *)
Definition decode (m : string) : option (option line_args) :=
  data ← json_loads m;
  ty ← py_get data "type";
  if py_eq_str ty "draw" then args ← remote_args data; Some (Some args)
  else Some None.

(** *** Drawing into the canvas *)

Definition draw_line (a : line_args) (img : ndarray) : option ndarray :=
  let '(pt1, pt2, color, thickness) := a in cv2_line img pt1 pt2 color thickness.

(** The body of [async with self.drawLock]: the line, then the snapshot. *)
Definition apply_stroke (a : line_args) (p : painter) : option painter :=
  img ← draw_line a (imgCanvas p);
  Some (set_displayBuffer img (set_imgCanvas img p)).

(** *** send_drawing *)

Definition send_drawing (now : string) (x1 y1 x2 y2 : Z) (color : Z * Z * Z)
  (thickness : Z) (p : painter) (t : io_trace) : outcome (painter * io_trace) :=
  match apply_stroke (local_args x1 y1 x2 y2 color thickness) p with
  | None => Raised (p, t)
  | Some p1 =>
      if negb (local_mode p1) && bool_decide (is_Some (ws p1)) && connected p1 then
        match encode now x1 y1 x2 y2 color thickness with
        | Some payload => Returned (p1, t ++ [Dispatch payload])
        | None => Returned (set_connected false p1, t)
        end
      else Returned (p1, t)
  end.

(** *** receive_drawings: one pass of its loop *)

Definition on_message (m : string) (p : painter) : painter :=
  match decode m with
  | Some (Some a) => default p (apply_stroke a p)
  | Some None => p
  | None => p
  end.

Definition receive_iteration (o : recv_outcome) (p : painter) (t : io_trace)
  : painter * io_trace :=
  if bool_decide (is_Some (ws p)) && connected p then
    match o with
    | RecvTimeout => (p, t)
    | RecvMessage m => (on_message m p, t)
    | RecvClosed =>
        let '(_, p', t') := connect_to_server (set_connected false p) t in (p', t')
    | RecvError => (p, t)
    end
  else (p, t).

(** *** run *)

(** The hand-tracking part of one pass of the main loop. *)
Definition frame_step (now : string) (hand : option gesture) (p : painter)
  (t : io_trace) : outcome (painter * io_trace) :=
  match hand with
  | None => Returned (p, t)
  | Some g =>
      let '(x1, y1) := index_tip g in
      if index_up g && middle_up g then
        let p1 := set_xp_yp 0 0 (set_is_drawing false p) in
        Returned (if y1 <? 125 then update_current_brush x1 p1 else p1, t)
      else if index_up g && negb (middle_up g) then
        let p1 := if negb (is_drawing p)
                  then set_is_drawing true (set_xp_yp x1 y1 p) else p in
        let thickness := if String.eqb (current_brush p1) "eraser"
                         then eraserThickness p1 else brushThickness p1 in
        match send_drawing now (xp p1) (yp p1) x1 y1 (drawColor p1) thickness p1 t with
        | Returned (p2, t2) => Returned (set_xp_yp x1 y1 p2, t2)
        | Raised s => Raised s
        end
      else Returned (set_is_drawing false p, t)
  end.

(** Where the receive task is, once it has been created. *)
Inductive loop_state :=
| Awaiting   (* suspended at an [await] of a pass, or not yet scheduled *)
| Spinning   (* going round the [while] without reaching an [await] *)
| Finished.  (* [receive_drawings] has returned *)

Record session := {
  self : painter;
  io : io_trace;
  receive_task : bool;       (* receive_task is not None *)
  in_main_loop : bool;       (* run has not left its while loop *)
  receive_loop : loop_state
}.

(** The lines of [run] before the loop. *)
Definition run_start (p : painter) (t : io_trace) : session :=
  let '(ok, p1, t1) := connect_to_server p t in
  let p2 := set_local_mode (negb ok) p1 in
  {| self := p2; io := t1;
     receive_task := negb (local_mode p2);
     in_main_loop := true;
     receive_loop := Awaiting |}.

Definition cleanup (s : session) : session :=
  let p := set_running false (self s) in
  {| self := p;
     io := if bool_decide (is_Some (ws p)) then io s ++ [Close] else io s;
     receive_task := receive_task s;
     in_main_loop := false;
     receive_loop := receive_loop s |}.

(** The event loop runs one task at a time, and a task keeps the thread
    until it reaches an [await] that suspends it.  A receive loop that
    goes round without an [await] therefore stops the whole program: the
    main loop never runs again, and neither a frame nor a key is seen. *)
Definition spinning (s : session) : bool :=
  match receive_loop s with Spinning => true | _ => false end.

Definition awaiting (s : session) : bool :=
  match receive_loop s with Awaiting => true | _ => false end.

(** What can happen next in a session.
    - [Frame]: the main loop reads a frame and runs the hand-tracking part
      of its pass (lines 197-220).
    - [DisplayRaises]: a call of the rest of a pass (the compositor,
      [overlay_header], [cv2.imshow]) raises; [run]'s handler catches the
      exception and the [finally] clause cleans up.
    - [Quit]: [cv2.waitKey] reports the quit key.
    - [Poll]: the receive task is scheduled and runs one pass of its loop,
      where [recv] has the given outcome, up to the test of the loop
      condition that follows the pass.  The condition [self.running] is
      read after the pass: a pass that was suspended in [recv] when
      [cleanup] turned [running] off still runs to its end (so it does
      when [cleanup] closes the socket under it), and only then does
      [receive_drawings] return.  A pass that finds the guard
      [self.ws and self.connected] false has no [await]; while [running]
      is on the loop then goes round for ever.

    An event that cannot happen in a state leaves it as it is.  The passes
    of the two loops are taken as atomic, as the lock of the source
    suggests; the interleavings inside a pass are the subject of the lock
    model below. *)
Inductive event :=
| Frame (now : string) (hand : option gesture)
| DisplayRaises
| Quit
| Poll (o : recv_outcome).

Definition step (s : session) (e : event) : session :=
  match e with
  | Frame now hand =>
      if in_main_loop s && negb (spinning s) then
        match frame_step now hand (self s) (io s) with
        | Returned (p, t) =>
            {| self := p; io := t;
               receive_task := receive_task s; in_main_loop := true;
               receive_loop := receive_loop s |}
        | Raised (p, t) =>
            cleanup {| self := p; io := t;
                       receive_task := receive_task s; in_main_loop := true;
                       receive_loop := receive_loop s |}
        end
      else s
  | DisplayRaises => if in_main_loop s && negb (spinning s) then cleanup s else s
  | Quit => if in_main_loop s && negb (spinning s) then cleanup s else s
  | Poll o =>
      if receive_task s && awaiting s then
        let '(p, t) := receive_iteration o (self s) (io s) in
        {| self := p; io := t;
           receive_task := receive_task s; in_main_loop := in_main_loop s;
           receive_loop :=
             if negb (running p) then Finished
             else if bool_decide (is_Some (ws (self s))) && connected (self s)
                  then Awaiting
                  else Spinning |}
      else s
  end.

(** A session: [CollaborativePainter()], [run] up to its loop, then the
    given events. *)
Definition session_after (hp hb hg he : ndarray) (events : list event) : session :=
  fold_left step events (run_start (new_painter hp hb hg he) []).

End Painter.

(** ** The compositor

    The five [cv2] calls of [run] under "Overlay canvas onto the video
    feed", followed by [overlay_header].  Arrays live in a heap, so that
    "returns a new array" and "writes into its argument" are different
    things.  The per-pixel meaning of the [cv2] calls on operands of equal
    shape is taken from OpenCV's documentation; the BGR-to-gray weights
    and the treatment of operands of different shapes are parameters. *)

Abbreviation heap := (gmap nat ndarray).

(** A new array object. *)
Definition alloc (a : ndarray) (h : heap) : nat * heap :=
  let l := fresh (dom h) in (l, <[l := a]> h).

Section Compositor.

(** [cv2.cvtColor(_, cv2.COLOR_BGR2GRAY)] on one pixel (B, G, R). *)
Variable luminance : Z -> Z -> Z -> Z.
(** The alpha blend of [overlay_header] (floating point in the source). *)
Variable blend : ndarray -> ndarray -> ndarray.
(** What [cv2.bitwise_and] and [cv2.bitwise_or] do with operands of
    different shapes: OpenCV takes an operand of 1 x 1 or 1 x cn elements
    as a scalar and raises for every other pair.  Only operands of equal
    shape are looked at below; the other case is this parameter, given the
    bit operation and the two operands. *)
Variable scalar_operand : (Z -> Z -> Z) -> ndarray -> ndarray -> option ndarray.

Definition gray_at (a : ndarray) (r c : Z) : Z :=
  luminance (px a r c 0) (px a r c 1) (px a r c 2).

Definition cvtColor_BGR2GRAY (a : ndarray) : option ndarray :=
  if (chans a =? 3) || (chans a =? 4) then
    Some {| rows := rows a; cols := cols a; chans := 1;
            px := fun r c _ => gray_at a r c |}
  else None.

(** [cv2.threshold(a, thresh, maxval, cv2.THRESH_BINARY_INV)[1]] *)
Definition threshold_BINARY_INV (thresh maxval : Z) (a : ndarray) : ndarray :=
  {| rows := rows a; cols := cols a; chans := chans a;
     px := fun r c ch => if thresh <? px a r c ch then 0 else maxval |}.

Definition cvtColor_GRAY2BGR (a : ndarray) : option ndarray :=
  if chans a =? 1 then
    Some {| rows := rows a; cols := cols a; chans := 3;
            px := fun r c _ => px a r c 0 |}
  else None.

Definition bitwise_and (a b : ndarray) : option ndarray :=
  if same_shape a b then
    Some {| rows := rows a; cols := cols a; chans := chans a;
            px := fun r c ch => Z.land (px a r c ch) (px b r c ch) |}
  else scalar_operand Z.land a b.

Definition bitwise_or (a b : ndarray) : option ndarray :=
  if same_shape a b then
    Some {| rows := rows a; cols := cols a; chans := chans a;
            px := fun r c ch => Z.lor (px a r c ch) (px b r c ch) |}
  else scalar_operand Z.lor a b.

(** The composited frame as a value. *)
Definition compose (img displayBuffer : ndarray) : option ndarray :=
  imgGray ← cvtColor_BGR2GRAY displayBuffer;
  imgInv ← cvtColor_GRAY2BGR (threshold_BINARY_INV 50 255 imgGray);
  masked ← bitwise_and img imgInv;
  bitwise_or masked displayBuffer.

(** The same lines on the heap: [img] and [displayBuffer] are references;
    every [cv2] call allocates its result, and the local name [img] is
    rebound to it. *)
Definition overlay_canvas (img displayBuffer : nat) (h : heap) : option (nat * heap) :=
  snap ← h !! displayBuffer;
  gray ← cvtColor_BGR2GRAY snap;
  let '(imgGray, h1) := alloc gray h in
  gray' ← h1 !! imgGray;
  let '(imgInv, h2) := alloc (threshold_BINARY_INV 50 255 gray') h1 in
  inv ← h2 !! imgInv;
  inv3 ← cvtColor_GRAY2BGR inv;
  let '(imgInv', h3) := alloc inv3 h2 in
  live ← h3 !! img;
  mask ← h3 !! imgInv';
  masked ← bitwise_and live mask;
  let '(img1, h4) := alloc masked h3 in
  a ← h4 !! img1;
  snap' ← h4 !! displayBuffer;
  out ← bitwise_or a snap';
  Some (alloc out h4).

(** [overlay_header(img)]: blends in place when the header has an alpha
    channel. *)
Definition overlay_header (current_header : ndarray) (img : nat) (h : heap) : option heap :=
  a ← h !! img;
  Some (if chans current_header =? 4 then <[img := blend current_header a]> h else h).

(** Compositing and header for one frame; the result is the array that is
    shown. *)
Definition render (current_header : ndarray) (img displayBuffer : nat) (h : heap)
  : option (nat * heap) :=
  '(out, h1) ← overlay_canvas img displayBuffer h;
  h2 ← overlay_header current_header out h1;
  Some (out, h2).

End Compositor.

(** ** The lock around the canvas

    [send_drawing] (the drawing loop) and [receive_drawings] (the receive
    loop) both run

      async with self.drawLock:
          cv2.line(self.imgCanvas, ...)
          self.displayBuffer = self.imgCanvas.copy()

    The model below lets the two loops interleave after every single pixel
    store, which is finer than any schedule of the event loop. *)

Inductive task := DrawingLoop | ReceiveLoop.

Inductive position :=
| Outside                             (* not in the with-block *)
| Entered (a : pyval * pyval * pyval * pyval)  (* lock taken, cv2.line not yet called *)
| InLine (todo : list pixel_write)    (* inside cv2.line: pixels still to store *)
| Leaving.                            (* about to release the lock *)

Record shared := {
  canvas : ndarray;          (* self.imgCanvas *)
  snapshot : ndarray;        (* self.displayBuffer *)
  drawLock : option task;    (* who holds self.drawLock *)
  drawing_at : position;     (* where the drawing loop is *)
  receive_at : position      (* where the receive loop is *)
}.

Definition at_ (s : shared) (t : task) : position :=
  match t with
  | DrawingLoop => drawing_at s
  | ReceiveLoop => receive_at s
  end.

Definition move (t : task) (q : position) (s : shared) : shared :=
  match t with
  | DrawingLoop =>
      {| canvas := canvas s; snapshot := snapshot s; drawLock := drawLock s;
         drawing_at := q; receive_at := receive_at s |}
  | ReceiveLoop =>
      {| canvas := canvas s; snapshot := snapshot s; drawLock := drawLock s;
         drawing_at := drawing_at s; receive_at := q |}
  end.

Definition set_lock (l : option task) (s : shared) : shared :=
  {| canvas := canvas s; snapshot := snapshot s; drawLock := l;
     drawing_at := drawing_at s; receive_at := receive_at s |}.

Definition set_canvas (img : ndarray) (s : shared) : shared :=
  {| canvas := img; snapshot := snapshot s; drawLock := drawLock s;
     drawing_at := drawing_at s; receive_at := receive_at s |}.

Definition set_snapshot (img : ndarray) (s : shared) : shared :=
  {| canvas := canvas s; snapshot := img; drawLock := drawLock s;
     drawing_at := drawing_at s; receive_at := receive_at s |}.

Section Lock.

(** The pixels a [cv2.line] call stores, in order; [None] when it raises. *)
Variable raster : pyval * pyval * pyval * pyval -> option (list pixel_write).

Inductive lock_step : shared -> shared -> Prop :=
| step_acquire t a s :
    drawLock s = None -> at_ s t = Outside ->
    lock_step s (move t (Entered a) (set_lock (Some t) s))
| step_line t a todo s :
    at_ s t = Entered a -> raster a = Some todo ->
    lock_step s (move t (InLine todo) s)
| step_line_raises t a s :
    at_ s t = Entered a -> raster a = None ->
    lock_step s (move t Leaving s)
| step_store t w todo s :
    at_ s t = InLine (w :: todo) ->
    lock_step s (move t (InLine todo) (set_canvas (store w (canvas s)) s))
| step_publish t s :
    at_ s t = InLine [] ->
    lock_step s (move t Leaving (set_snapshot (canvas s) s))
| step_release t s :
    at_ s t = Leaving ->
    lock_step s (move t Outside (set_lock None s)).

(** [cv2.line] run to completion. *)
Definition draw (a : pyval * pyval * pyval * pyval) (img : ndarray) : ndarray :=
  match raster a with
  | Some ws => store_all ws img
  | None => img
  end.

(** An array that holds whole strokes only: the blank canvas after some
    sequence of completed [cv2.line] calls. *)
Definition whole (blank img : ndarray) : Prop :=
  exists calls, img = fold_left (fun i a => draw a i) calls blank.

Definition start (blank : ndarray) : shared :=
  {| canvas := blank; snapshot := blank; drawLock := None;
     drawing_at := Outside; receive_at := Outside |}.

End Lock.

(** ** Vocabulary for the statements below *)

(** Handshakes a connection sequence started now may still attempt. *)
Definition budget (p : painter) : nat := Z.to_nat (max_retries p - retry_count p).

(** The trace of [k] refused handshakes, each followed by its backoff. *)
Fixpoint refused (k : nat) : io_trace :=
  match k with
  | O => []
  | S k' => Handshake false :: Backoff 1 :: refused k'
  end.

(** The painter is in the Connected state: it holds a socket and believes
    it is open. *)
Definition is_connected (p : painter) : Prop :=
  is_Some (ws p) /\ connected p = true.

(** The canvas and the snapshot a call leaves behind, whether it returned
    or raised. *)
Definition left_behind (o : outcome (painter * io_trace)) : painter * io_trace :=
  match o with
  | Returned s => s
  | Raised s => s
  end.

(** The integer stroke behind a tuple of [cv2.line] arguments, when they
    have that shape: the inverse of [local_args]. *)
Definition stroke_of_args (a : pyval * pyval * pyval * pyval)
  : option (Z * Z * Z * Z * (Z * Z * Z) * Z) :=
  match a with
  | (PTuple [PInt x1; PInt y1], PTuple [PInt x2; PInt y2],
     PTuple [PInt c0; PInt c1; PInt c2], PInt thickness) =>
      Some (x1, y1, x2, y2, (c0, c1, c2), thickness)
  | _ => None
  end.

(** A draw event as a value (a Stroke, in the words of the
    specification): the two end points, the colour, the thickness and the
    time stamp. *)
Record stroke := {
  st_p1 : Z * Z;
  st_p2 : Z * Z;
  st_color : Z * Z * Z;
  st_thickness : Z;
  st_timestamp : string
}.

(** The dict [send_drawing] builds for a stroke, and the bytes it hands to
    the socket. *)
Definition record_of_stroke (s : stroke) : pyval :=
  draw_record (st_timestamp s) (fst (st_p1 s)) (snd (st_p1 s))
              (fst (st_p2 s)) (snd (st_p2 s)) (st_color s) (st_thickness s).

Definition encode_stroke (json_dumps : pyval -> option string) (s : stroke)
  : option string :=
  encode json_dumps (st_timestamp s) (fst (st_p1 s)) (snd (st_p1 s))
         (fst (st_p2 s)) (snd (st_p2 s)) (st_color s) (st_thickness s).

(** The stroke in a parsed draw event: the arguments [receive_drawings]
    reads out of the dict for [cv2.line], when they are integer points, an
    integer colour triple and an integer thickness, and the time stamp the
    dict holds beside them. *)
Definition stroke_of_record (data : pyval) : option stroke :=
  a ← remote_args data;
  '(x1, y1, x2, y2, color, thickness) ← stroke_of_args a;
  now ← py_getitem data "timestamp";
  match now with
  | PStr now =>
      Some {| st_p1 := (x1, y1); st_p2 := (x2, y2); st_color := color;
              st_thickness := thickness; st_timestamp := now |}
  | _ => None
  end.

(** Decoding a message: [json.loads], the test of the type tag, and the
    fields of the dict. *)
Definition decode_stroke (json_loads : string -> option pyval) (m : string)
  : option stroke :=
  data ← json_loads m;
  ty ← py_get data "type";
  if py_eq_str ty "draw" then stroke_of_record data else None.

(** What holds of every session once [run] has reached its loop. *)
Record session_inv (s : session) : Prop := {
  inv_max : max_retries (self s) = 3;
  inv_count : retry_count (self s) = Z.of_nat (refusals (io s));
  inv_bound : (refusals (io s) <= 3)%nat;
  inv_connected : connected (self s) = true -> retry_count (self s) < 3;
  inv_task : receive_task s = negb (local_mode (self s));
  inv_local : local_mode (self s) = true -> ws (self s) = None
}.

(** The receive loop spins only over a painter that is not connected, and
    has returned only when [running] is off. *)
Definition loop_inv (s : session) : Prop :=
  match receive_loop s with
  | Awaiting => True
  | Spinning => bool_decide (is_Some (ws (self s))) && connected (self s) = false
  | Finished => running (self s) = false
  end.

(** A live frame of 8-bit channels. *)
Definition uint8 (a : ndarray) : Prop :=
  forall r c ch, 0 <= px a r c ch <= 255.

(** What drawing leaves alone: the bookkeeping of the connection.  [p], [t]
    are the object and the trace before, [p'], [t'] after. *)
Record drawing_only (p : painter) (t : io_trace) (p' : painter) (t' : io_trace)
  : Prop := {
  keep_retry : retry_count p' = retry_count p;
  keep_max : max_retries p' = max_retries p;
  keep_ws : ws p' = ws p;
  keep_local : local_mode p' = local_mode p;
  keep_running : running p' = running p;
  keep_connected : connected p' = true -> connected p = true;
  keep_refusals : refusals t' = refusals t;
  keep_attempts : attempts t' = attempts t;
  keep_silent : local_mode p = true -> t' = t
}.

(** ** Vocabulary for the JSON double *)

(** Strings of printable ASCII characters, the ones [Json.dumps] encodes. *)
Definition printable (s : string) : bool :=
  forallb (fun c => (32 <=? Json.code c) && (Json.code c <=? 126))
          (list_ascii_of_string s).

(** A text after which a number ends: it does not go on with a digit, a
    fraction or an exponent. *)
Definition ends_number (rest : list ascii) : bool :=
  match rest with
  | [] => true
  | c :: _ =>
      match Json.digit_val c with
      | Some _ => false
      | None => negb (Json.starts_fraction rest)
      end
  end.

(** A text that starts a number: a digit or a minus sign. *)
Definition starts_number (s : list ascii) : bool :=
  match s with
  | [] => false
  | c :: _ =>
      match Json.digit_val c with
      | Some _ => true
      | None => Ascii.eqb c "-"
      end
  end.

(** ** Fixtures for closed examples *)

(** An endpoint that accepts the handshake number [k] of the session
    (counting from 0) and refuses every other one. *)
Definition accepting_only (k : nat) : nat -> bool := fun n => Nat.eqb n k.

(** An endpoint that is never reachable. *)
Definition unreachable : nat -> bool := fun _ => false.

(** An endpoint that accepts every handshake. *)
Definition always_accepting : nat -> bool := fun _ => true.

(** A blank header image with an alpha channel. *)
Definition blank_header : ndarray := np_zeros 125 1280 4.

(** Sessions that run against the library doubles. *)
Definition test_session (endpoint : nat -> bool) (events : list event) : session :=
  session_after endpoint Json.dumps Json.loads Cv2.line
    blank_header blank_header blank_header blank_header events.

(** The index finger alone, at [(x, y)]: drawing mode. *)
Definition pointing (x y : Z) : gesture :=
  {| index_tip := (x, y); middle_tip := (x, y + 40);
     index_up := true; middle_up := false |}.

(** The bytes the JSON double puts on the wire for a value and for a
    stroke ([""] when it cannot encode). *)
Definition wire_of (v : pyval) : string := default ""%string (Json.dumps v).

Definition wire (now : string) (x1 y1 x2 y2 : Z) (color : Z * Z * Z)
  (thickness : Z) : string :=
  wire_of (draw_record now x1 y1 x2 y2 color thickness).

(** A draw event whose colour has two components instead of three. *)
Definition two_channel_event : pyval :=
  PDict [("type", PStr "draw"); ("x1", PInt 100); ("y1", PInt 100);
         ("x2", PInt 103); ("y2", PInt 100);
         ("color", PList [PInt 255; PInt 255]); ("thickness", PInt 1)]%string.

(** A draw event with a type the client does not know. *)
Definition erase_event : pyval :=
  PDict [("type", PStr "erase"); ("x1", PInt 100); ("y1", PInt 100)]%string.

(** A draw event without the colour. *)
Definition colourless_event : pyval :=
  PDict [("type", PStr "draw"); ("x1", PInt 100); ("y1", PInt 100);
         ("x2", PInt 103); ("y2", PInt 100); ("thickness", PInt 1)]%string.

(** A draw event in a dark red, as any peer may send it. *)
Definition dark_event : pyval :=
  PDict [("type", PStr "draw"); ("x1", PInt 100); ("y1", PInt 100);
         ("x2", PInt 200); ("y2", PInt 100);
         ("color", PList [PInt 0; PInt 0; PInt 40]); ("thickness", PInt 15)]%string.

(** ** Vocabulary for the lock *)

Definition other (t : task) : task :=
  match t with
  | DrawingLoop => ReceiveLoop
  | ReceiveLoop => DrawingLoop
  end.

Section LockInvariant.

Variable raster : pyval * pyval * pyval * pyval -> option (list pixel_write).
Variable blank : ndarray.

(** What the lock holder still owes the canvas. *)
Definition settled (q : position) (img : ndarray) : Prop :=
  match q with
  | Outside => False
  | Entered _ => whole raster blank img
  | InLine todo => whole raster blank (store_all todo img)
  | Leaving => whole raster blank img
  end.

Definition lock_inv (s : shared) : Prop :=
  whole raster blank (snapshot s) /\
  match drawLock s with
  | None =>
      whole raster blank (canvas s) /\
      drawing_at s = Outside /\ receive_at s = Outside
  | Some t =>
      at_ s (other t) = Outside /\ settled (at_ s t) (canvas s)
  end.

End LockInvariant.

(** The rasteriser double on a tuple of arguments. *)
Definition raster_double (a : pyval * pyval * pyval * pyval) : option (list pixel_write) :=
  let '(pt1, pt2, color, thickness) := a in Cv2.raster pt1 pt2 color thickness.

(** The red one-pixel line from (0, 0) to (2, 0). *)
Definition short_line : pyval * pyval * pyval * pyval :=
  (PTuple [PInt 0; PInt 0], PTuple [PInt 2; PInt 0],
   PTuple [PInt 0; PInt 0; PInt 255], PInt 1).

(** The drawing loop has stored the first of the three pixels of
    [short_line]; nothing has been published yet. *)
Definition half_drawn : shared :=
  {| canvas := store (0, 0, [0; 0; 255]) (np_zeros 720 1280 3);
     snapshot := np_zeros 720 1280 3;
     drawLock := Some DrawingLoop;
     drawing_at := InLine [(0, 1, [0; 0; 255]); (0, 2, [0; 0; 255])];
     receive_at := Outside |}.

(** ** Vocabulary for whole sessions *)

(** The brush table of [update_current_brush] and [run]: name, colour
    (B, G, R) and the thickness a stroke of that brush is drawn with. *)
Definition palette : list (string * (Z * Z * Z) * Z) :=
  [("pink", (189, 189, 103), 15); ("blue", (86, 48, 189), 15);
   ("green", (17, 141, 255), 15); ("eraser", (0, 0, 0), 50)]%string.

(** The thickness [run] passes to [send_drawing]. *)
Definition stroke_thickness (p : painter) : Z :=
  if String.eqb (current_brush p) "eraser" then eraserThickness p
  else brushThickness p.

(** The header image stored for a brush name. *)
Definition header_of (p : painter) (name : string) : ndarray :=
  if String.eqb name "pink" then header_pink p
  else if String.eqb name "blue" then header_blue p
  else if String.eqb name "green" then header_green p
  else header_eraser p.

(** The x-coordinates that select a brush. *)
Definition in_a_band (x1 : Z) : bool :=
  (250 <? x1) && (x1 <? 450) || (550 <? x1) && (x1 <? 750)
  || (800 <? x1) && (x1 <? 1000) || (1050 <? x1) && (x1 <? 1200).

(** The pen: the point the next stroke starts from while a stroke is under
    way ([is_drawing] with [xp], [yp]), nothing when the pen is up. *)
Definition pen (p : painter) : option (Z * Z) :=
  if is_drawing p then Some (xp p, yp p) else None.

(** The two gestures [run] tells apart. *)
Definition selection_mode (g : gesture) : bool := index_up g && middle_up g.
Definition drawing_mode (g : gesture) : bool := index_up g && negb (middle_up g).

(** Payloads handed to the socket, accepted handshakes and closed sockets
    of a trace. *)
Fixpoint dispatched (t : io_trace) : list string :=
  match t with
  | [] => []
  | Dispatch payload :: r => payload :: dispatched r
  | _ :: r => dispatched r
  end.

Fixpoint accepted (t : io_trace) : nat :=
  match t with
  | [] => O
  | Handshake true :: r => S (accepted r)
  | _ :: r => accepted r
  end.

Fixpoint closes (t : io_trace) : nat :=
  match t with
  | [] => O
  | Close :: r => S (closes r)
  | _ :: r => closes r
  end.

(** A sequence of [cv2.line] calls, each of which returns, applied to an
    array. *)
Definition drawn
    (cv2_line : ndarray -> pyval -> pyval -> pyval -> pyval -> option ndarray)
    (calls : list line_args) (img : ndarray) : option ndarray :=
  fold_left (fun acc a => img' ← acc; draw_line cv2_line a img') calls (Some img).

(** The shape of an array as numpy prints it. *)
Definition shape (a : ndarray) : Z * Z * Z := (rows a, cols a, chans a).

(** A payload that encodes a stroke of one of the four brushes. *)
Definition palette_payload (json_dumps : pyval -> option string) (payload : string)
  : Prop :=
  exists now x1 y1 x2 y2 name color thickness,
    In (name, color, thickness) palette /\
    json_dumps (draw_record now x1 y1 x2 y2 color thickness) = Some payload.

(** What holds of every state of every session. *)
Record session_facts
    (endpoint : nat -> bool) (json_dumps : pyval -> option string)
    (cv2_line : ndarray -> pyval -> pyval -> pyval -> pyval -> option ndarray)
    (hp hb hg he : ndarray) (s : session) : Prop := {
  fact_thickness :
    brushThickness (self s) = 15 /\ eraserThickness (self s) = 50;
  fact_headers :
    header_pink (self s) = hp /\ header_blue (self s) = hb /\
    header_green (self s) = hg /\ header_eraser (self s) = he;
  fact_brush :
    In (current_brush (self s), drawColor (self s), current_header (self s))
       [("pink", (189, 189, 103), hp); ("blue", (86, 48, 189), hb);
        ("green", (17, 141, 255), hg); ("eraser", (0, 0, 0), he)]%string;
  fact_snapshot : displayBuffer (self s) = imgCanvas (self s);
  fact_canvas :
    exists calls, drawn cv2_line calls (np_zeros 720 1280 3) = Some (imgCanvas (self s));
  fact_dispatched : Forall (palette_payload json_dumps) (dispatched (io s));
  fact_socket : is_Some (ws (self s)) <-> accepted (io s) <> O;
  fact_connected : connected (self s) = true -> is_Some (ws (self s));
  fact_loop :
    if in_main_loop s then running (self s) = true /\ closes (io s) = O
    else running (self s) = false /\
         match ws (self s) with
         | Some _ => closes (io s) = 1%nat
         | None => closes (io s) = O
         end;
  fact_mode :
    local_mode (self s) = negb (endpoint 0 || endpoint 1 || endpoint 2)%nat
}.

(** ** Vocabulary for the lock, continued *)

(** The snapshot is the canvas, except while the lock holder is inside
    [cv2.line]. *)
Definition published (s : shared) : Prop :=
  match drawLock s with
  | None => snapshot s = canvas s
  | Some t =>
      match at_ s t with
      | InLine _ => True
      | _ => snapshot s = canvas s
      end
  end.

(** ** The alpha blend of [overlay_header]

    [overlay_header] computes, for the three colour channels [c],

      img[0:125, 0:1280, c] * (1 - alpha) + bgr[:, :, c] * alpha

    with [alpha = current_header[:, :, 3] / 255.0], in float64, and stores
    the result into the 8-bit frame. *)

(** An 8-bit value as a float64 (exact for 0..255). *)
Definition to_float (z : Z) : float := PrimFloat.of_uint63 (Uint63.of_Z z).

(** The cast numpy applies when a float64 is stored into a uint8 array:
    the fraction is dropped. *)
Definition to_uint8 (x : float) : Z :=
  match Prim2SF x with
  | S754_finite s m e =>
      let v := if 0 <=? e then Z.shiftl (Z.pos m) e else Z.shiftr (Z.pos m) (- e) in
      if s then - v else v
  | _ => 0
  end.

(** One channel of one pixel: frame value [i], header value [b], header
    alpha [a]. *)
Definition blend_channel (i b a : Z) : Z :=
  let alpha := (to_float a / 255)%float in
  to_uint8 (to_float i * (1 - alpha) + to_float b * alpha)%float.

(** numpy broadcasting along one axis: the header's extent [h] against
    the extent [n] of the slice it is stored into. *)
Definition fits (h n : Z) : bool := (h =? n) || (h =? 1).

(** The body of the [if]: the frame after the three channel assignments,
    or [None] when one of them raises (the slice [img[0:125, 0:1280, c]]
    is clipped to the frame, so a frame smaller than the header cannot be
    broadcast against it; a frame with fewer than three channels has no
    channel [c]). *)
Definition alpha_blend (current_header img : ndarray) : option ndarray :=
  let h := Z.min 125 (rows img) in
  let w := Z.min 1280 (cols img) in
  if (3 <=? chans img) && fits (rows current_header) h && fits (cols current_header) w
  then
    Some {| rows := rows img; cols := cols img; chans := chans img;
            px := fun r c ch =>
              if (0 <=? r) && (r <? h) && (0 <=? c) && (c <? w)
                 && (0 <=? ch) && (ch <? 3)
              then
                let r' := if rows current_header =? 1 then 0 else r in
                let c' := if cols current_header =? 1 then 0 else c in
                blend_channel (px img r c ch) (px current_header r' c' ch)
                              (px current_header r' c' 3)
              else px img r c ch |}
  else None.

(** [overlay_header(img)] as a function of the header and the frame. *)
Definition overlay_header_value (current_header img : ndarray) : option ndarray :=
  if chans current_header =? 4 then alpha_blend current_header img else Some img.

(** ** More fixtures *)

(** A header whose every pixel is opaque and light grey. *)
Definition opaque_header : ndarray :=
  {| rows := 125; cols := 1280; chans := 4;
     px := fun _ _ ch => if ch =? 3 then 255 else 200 |}.

(** A blank camera frame. *)
Definition blank_frame : ndarray := np_zeros 720 1280 3.

(** Both loops outside after the drawing loop has drawn and published
    [short_line]. *)
Definition after_short_line : shared :=
  {| canvas := store_all [(0, 0, [0; 0; 255]); (0, 1, [0; 0; 255]); (0, 2, [0; 0; 255])]
                         blank_frame;
     snapshot := store_all [(0, 0, [0; 0; 255]); (0, 1, [0; 0; 255]); (0, 2, [0; 0; 255])]
                           blank_frame;
     drawLock := None;
     drawing_at := Outside;
     receive_at := Outside |}.
(** ** Vocabulary for the compositor's examples *)

(** The closed examples below composite arrays of equal shape, where
    [bitwise_and] and [bitwise_or] never consult the rule for operands of
    different shapes; this stand-in is passed for it. *)
Definition no_scalar_operand : (Z -> Z -> Z) -> ndarray -> ndarray -> option ndarray :=
  fun _ _ _ => None.

(** A live frame of one mid grey. *)
Definition grey_frame : ndarray :=
  {| rows := 720; cols := 1280; chans := 3; px := fun _ _ _ => 100 |}.

(** A snapshot with a stroke in the pink of the palette, (189, 189, 103),
    along row 100, a stroke in the dark red (0, 0, 40) along row 200, and
    black elsewhere. *)
Definition striped_snapshot : ndarray :=
  {| rows := 720; cols := 1280; chans := 3;
     px := fun r _ ch =>
             if r =? 100 then (if ch =? 2 then 103 else 189)
             else if r =? 200 then (if ch =? 2 then 40 else 0)
             else 0 |}.


(** * Properties *)

(** ** Brush selection *)

Example brush_inside_blue_band p :
  current_brush (update_current_brush 551 p) = "blue"%string /\
  drawColor (update_current_brush 749 p) = (86, 48, 189).
Proof. split; reflexivity. Qed.

Example brush_on_band_edge p : update_current_brush 450 p = p.
Proof. reflexivity. Qed.

(** C10.  For an x-coordinate outside the four selection bands (x <= 250,
    450 <= x <= 550, 750 <= x <= 800, 1000 <= x <= 1050 or x >= 1200),
    [update_current_brush] leaves [drawColor], [current_brush] and
    [current_header] unchanged; it leaves the whole object unchanged. *)
Theorem update_current_brush_outside_bands (x1 : Z) (p : painter) :
  x1 <= 250 \/ 450 <= x1 <= 550 \/ 750 <= x1 <= 800 \/
  1000 <= x1 <= 1050 \/ 1200 <= x1 ->
  drawColor (update_current_brush x1 p) = drawColor p /\
  current_brush (update_current_brush x1 p) = current_brush p /\
  current_header (update_current_brush x1 p) = current_header p /\
  update_current_brush x1 p = p.
Proof.
  intros Hx.
  assert (Hid : update_current_brush x1 p = p).
  { unfold update_current_brush.
    destruct (250 <? x1) eqn:E1, (x1 <? 450) eqn:E2,
             (550 <? x1) eqn:E3, (x1 <? 750) eqn:E4,
             (800 <? x1) eqn:E5, (x1 <? 1000) eqn:E6,
             (1050 <? x1) eqn:E7, (x1 <? 1200) eqn:E8;
      simpl; try reflexivity; lia. }
  rewrite Hid. auto.
Qed.

Lemma update_current_brush_outside_bands_witness :
  let p := new_painter (np_zeros 125 1280 4) (np_zeros 125 1280 4)
                       (np_zeros 125 1280 4) (np_zeros 125 1280 4) in
  drawColor (update_current_brush 500 p) = drawColor p /\
  current_brush (update_current_brush 500 p) = current_brush p /\
  current_header (update_current_brush 500 p) = current_header p /\
  update_current_brush 500 p = p.
Proof.
  apply (update_current_brush_outside_bands 500). lia.
Defined.

(** ** The connection sequence *)

Lemma attempts_app t u : attempts (t ++ u) = (attempts t + attempts u)%nat.
Proof.
  induction t as [|e t IH]; simpl; [reflexivity|].
  destruct e; simpl; rewrite IH; reflexivity.
Qed.

Lemma refusals_app t u : refusals (t ++ u) = (refusals t + refusals u)%nat.
Proof.
  induction t as [|e t IH]; simpl; [reflexivity|].
  destruct e as [[]| | |]; simpl; rewrite IH; reflexivity.
Qed.

Lemma attempts_refused k : attempts (refused k) = k.
Proof. induction k; simpl; congruence. Qed.

Lemma refusals_refused k : refusals (refused k) = k.
Proof. induction k; simpl; congruence. Qed.

Lemma set_retry_count_same p n : n = retry_count p -> set_retry_count n p = p.
Proof. intros ->. destruct p; reflexivity. Qed.

Section Connection.

Variable endpoint : nat -> bool.

Lemma connect_to_server_step p t :
  connect_to_server endpoint p t =
  if Z_lt_dec (retry_count p) (max_retries p) then
    if endpoint (attempts t) then
      (true, set_connected true (set_ws (Some (attempts t)) p), t ++ [Handshake true])
    else
      connect_to_server endpoint (set_retry_count (retry_count p + 1) p)
                        (t ++ [Handshake false; Backoff 1])
  else (false, p, t).
Proof.
  etransitivity; [apply connect_to_server_equation_1|].
  destruct (Z_lt_dec (retry_count p) (max_retries p)); reflexivity.
Qed.

(** A call that finds the budget used up makes no attempt. *)
Lemma connect_to_server_exhausted p t :
  max_retries p <= retry_count p ->
  connect_to_server endpoint p t = (false, p, t).
Proof.
  intros H. rewrite connect_to_server_step.
  destruct (Z_lt_dec (retry_count p) (max_retries p)); [lia|reflexivity].
Qed.

(** The shape of every connection sequence: [k] refusals, each with its
    backoff, then either an accepted handshake or the end of the budget. *)
Lemma connect_to_server_spec p t :
  exists k : nat,
    (k <= budget p)%nat /\
    (forall i, (i < k)%nat -> endpoint (attempts t + i) = false) /\
    ((k < budget p)%nat /\ endpoint (attempts t + k) = true /\
     connect_to_server endpoint p t =
       (true,
        set_connected true (set_ws (Some (attempts t + k)%nat)
          (set_retry_count (retry_count p + Z.of_nat k) p)),
        t ++ refused k ++ [Handshake true])
     \/
     k = budget p /\
     connect_to_server endpoint p t =
       (false, set_retry_count (retry_count p + Z.of_nat k) p, t ++ refused k)).
Proof.
  remember (budget p) as n eqn:Hn. revert p t Hn.
  induction n as [|n IH]; intros p t Hn.
  - exists O. split; [lia|]. split; [intros; lia|]. right. split; [reflexivity|].
    rewrite connect_to_server_exhausted by (unfold budget in Hn; lia).
    rewrite set_retry_count_same by lia. rewrite app_nil_r. reflexivity.
  - rewrite connect_to_server_step.
    destruct (Z_lt_dec (retry_count p) (max_retries p)) as [Hlt|Hge];
      [|unfold budget in Hn; lia].
    destruct (endpoint (attempts t)) eqn:He.
    + exists O. split; [lia|]. split; [intros; lia|]. left.
      rewrite Nat.add_0_r, He. split; [lia|]. split; [reflexivity|].
      rewrite set_retry_count_same by (simpl; lia). reflexivity.
    + destruct (IH (set_retry_count (retry_count p + 1) p)
                  (t ++ [Handshake false; Backoff 1])) as (k & Hk & Href & Hres).
      { unfold budget in *. simpl. lia. }
      rewrite attempts_app in Href, Hres. simpl in Href, Hres.
      assert (Hidx : forall j, (attempts t + 1 + j = attempts t + S j)%nat) by (intros; lia).
      exists (S k). split; [lia|]. split.
      { intros [|i] Hi; [rewrite Nat.add_0_r; exact He|].
        rewrite <- Hidx. apply Href. lia. }
      destruct Hres as [(Hlt' & Hacc & Heq)|(Hk' & Heq)].
      * left. split; [lia|]. split; [rewrite <- Hidx; exact Hacc|].
        rewrite Heq, <- app_assoc. simpl.
        replace (retry_count p + 1 + Z.of_nat k) with (retry_count p + Z.of_nat (S k)) by lia.
        replace (attempts t + 1 + k)%nat with (attempts t + S k)%nat by lia.
        reflexivity.
      * right. split; [lia|]. rewrite Heq, <- app_assoc. simpl.
        replace (retry_count p + 1 + Z.of_nat k) with (retry_count p + Z.of_nat (S k)) by lia.
        reflexivity.
Qed.

End Connection.

(** ** Sessions *)

Section Sessions.

Variable endpoint : nat -> bool.
Variable json_dumps : pyval -> option string.
Variable json_loads : string -> option pyval.
Variable cv2_line : ndarray -> pyval -> pyval -> pyval -> pyval -> option ndarray.

Local Abbreviation send_drawing' := (send_drawing json_dumps cv2_line).
Local Abbreviation frame_step' := (frame_step json_dumps cv2_line).
Local Abbreviation receive_iteration' := (receive_iteration endpoint json_loads cv2_line).
Local Abbreviation step' := (step endpoint json_dumps json_loads cv2_line).
Local Abbreviation session_after' := (session_after endpoint json_dumps json_loads cv2_line).

Lemma no_socket : bool_decide (is_Some (@None nat)) = false.
Proof. reflexivity. Qed.

Lemma drawing_only_refl p t : drawing_only p t p t.
Proof. constructor; auto. Qed.

Lemma apply_stroke_fields a p p' :
  apply_stroke cv2_line a p = Some p' ->
  exists img, draw_line cv2_line a (imgCanvas p) = Some img /\
              p' = set_displayBuffer img (set_imgCanvas img p).
Proof.
  unfold apply_stroke. destruct (draw_line cv2_line a (imgCanvas p)) as [img|]; simpl;
    [|discriminate].
  intros [= <-]. eauto.
Qed.

Lemma send_drawing_drawing_only now x1 y1 x2 y2 color thickness p t :
  let '(p', t') := left_behind (send_drawing' now x1 y1 x2 y2 color thickness p t) in
  drawing_only p t p' t'.
Proof.
  unfold send_drawing.
  destruct (apply_stroke cv2_line _ p) as [p1|] eqn:Hs; simpl;
    [|apply drawing_only_refl].
  apply apply_stroke_fields in Hs as (img & _ & ->). simpl.
  destruct (local_mode p) eqn:Hl; simpl; [constructor; simpl; auto|].
  destruct (bool_decide (is_Some (ws p))); simpl; [|constructor; simpl; auto; congruence].
  destruct (connected p) eqn:Hc; simpl; [|constructor; simpl; auto; congruence].
  destruct (encode json_dumps now x1 y1 x2 y2 color thickness); simpl.
  - constructor; simpl; auto; try congruence.
    + rewrite refusals_app. simpl. lia.
    + rewrite attempts_app. simpl. lia.
  - constructor; simpl; auto; congruence.
Qed.

Lemma update_current_brush_drawing_only x p t :
  drawing_only p t (update_current_brush x p) t.
Proof.
  unfold update_current_brush.
  repeat match goal with |- context [if ?b then _ else _] => destruct b end;
    constructor; simpl; auto.
Qed.

Lemma frame_step_drawing_only now hand p t :
  let '(p', t') := left_behind (frame_step' now hand p t) in
  drawing_only p t p' t'.
Proof.
  unfold frame_step. destruct hand as [g|]; [|apply drawing_only_refl].
  destruct (index_tip g) as [x1 y1].
  destruct (index_up g), (middle_up g); simpl.
  - destruct (y1 <? 125).
    + destruct (update_current_brush_drawing_only x1
                  (set_xp_yp 0 0 (set_is_drawing false p)) t).
      constructor; simpl in *; auto.
    + constructor; simpl; auto.
  - set (p1 := if negb (is_drawing p) then _ else p).
    assert (H1 : drawing_only p t p1 t).
    { subst p1. destruct (negb (is_drawing p)); constructor; simpl; auto. }
    set (th := if String.eqb _ _ then _ else _).
    pose proof (send_drawing_drawing_only now (xp p1) (yp p1) x1 y1 (drawColor p1) th p1 t) as H2.
    destruct (send_drawing' now (xp p1) (yp p1) x1 y1 (drawColor p1) th p1 t)
      as [[p2 t2]|[p2 t2]]; simpl in *;
      destruct H1, H2; constructor; simpl; try congruence; auto.
    all: intros Hl; apply keep_silent1; congruence.
  - constructor; simpl; auto.
  - constructor; simpl; auto.
Qed.

(** A message changes the canvas and the snapshot, nothing else. *)
Lemma on_message_fields m p :
  on_message json_loads cv2_line m p = p \/
  exists img, on_message json_loads cv2_line m p
              = set_displayBuffer img (set_imgCanvas img p).
Proof.
  unfold on_message. destruct (decode json_loads m) as [[a|]|]; auto.
  destruct (apply_stroke cv2_line a p) as [p'|] eqn:Hs; simpl; auto.
  apply apply_stroke_fields in Hs as (img & _ & ->). eauto.
Qed.

Lemma on_message_drawing_only m p t :
  drawing_only p t (on_message json_loads cv2_line m p) t.
Proof.
  destruct (on_message_fields m p) as [->|[img ->]];
    constructor; simpl; auto.
Qed.

Lemma run_start_inv hp hb hg he :
  session_inv (run_start endpoint (new_painter hp hb hg he) []).
Proof.
  unfold run_start.
  destruct (connect_to_server_spec endpoint (new_painter hp hb hg he) [])
    as (k & Hk & _ & [(Hlt & _ & ->)|(-> & ->)]);
    change (budget (new_painter hp hb hg he)) with 3%nat in *.
  - constructor; simpl; auto; try discriminate.
    + rewrite refusals_app, refusals_refused. simpl. lia.
    + rewrite refusals_app, refusals_refused. simpl. lia.
    + lia.
  - constructor; simpl; auto; discriminate.
Qed.

Lemma cleanup_inv s : session_inv s -> session_inv (cleanup s).
Proof.
  intros [H1 H2 H3 H4 H5 H6]. unfold cleanup.
  constructor; simpl; auto.
  - destruct (bool_decide _); [rewrite refusals_app; simpl|]; lia.
  - destruct (bool_decide _); [rewrite refusals_app; simpl|]; lia.
Qed.

Lemma drawing_only_inv s p t :
  session_inv s -> drawing_only (self s) (io s) p t ->
  session_inv {| self := p; io := t; receive_task := receive_task s;
                 in_main_loop := true; receive_loop := receive_loop s |}.
Proof.
  intros [H1 H2 H3 H4 H5 H6] [K1 K2 K3 K4 K5 K6 K7 K8 K9].
  constructor; simpl; try congruence.
  - intros Hc. rewrite K1. auto.
  - intros Hl. rewrite K3. apply H6. congruence.
Qed.

Lemma step_inv s e : session_inv s -> session_inv (step' s e).
Proof.
  intros Hs. destruct e as [now hand| | |o]; simpl.
  - destruct (in_main_loop s && negb (spinning s)); [|exact Hs].
    pose proof (frame_step_drawing_only now hand (self s) (io s)) as Hd.
    destruct (frame_step' now hand (self s) (io s)) as [[p t]|[p t]]; simpl in Hd.
    + apply drawing_only_inv; assumption.
    + apply cleanup_inv, drawing_only_inv; assumption.
  - destruct (in_main_loop s && negb (spinning s)); [apply cleanup_inv|]; exact Hs.
  - destruct (in_main_loop s && negb (spinning s)); [apply cleanup_inv|]; exact Hs.
  - destruct (receive_task s && awaiting s) eqn:Hr; [|exact Hs].
    unfold receive_iteration.
    destruct (bool_decide (is_Some (ws (self s))) && connected (self s)) eqn:Hc;
      [|destruct Hs; constructor; assumption].
    apply andb_true_iff in Hc as [Hws Hcn].
    destruct Hs as [H1 H2 H3 H4 H5 H6].
    destruct o as [|m| |]; try (constructor; assumption).
    + destruct (on_message_drawing_only m (self s) (io s))
        as [K1 K2 K3 K4 K5 K6 K7 K8 K9].
      constructor; simpl; try congruence.
      * intros Hc. rewrite K1. auto.
      * intros Hl. rewrite K3. apply H6. congruence.
    + destruct (connect_to_server_spec endpoint (set_connected false (self s)) (io s))
        as (k & Hk & _ & [(Hlt & _ & ->)|(-> & ->)]);
        unfold budget in *; simpl in *.
      * constructor; simpl; auto.
        -- rewrite !refusals_app, refusals_refused. simpl. lia.
        -- rewrite !refusals_app, refusals_refused. simpl. lia.
        -- lia.
        -- intros Hl. rewrite Hl in H5. simpl in H5.
           rewrite H5 in Hr. discriminate.
      * specialize (H4 Hcn).
        constructor; simpl; auto.
        -- rewrite !refusals_app, refusals_refused. lia.
        -- rewrite !refusals_app, refusals_refused. lia.
        -- discriminate.
Qed.

Lemma session_after_app hp hb hg he events more :
  session_after' hp hb hg he (events ++ more)
  = fold_left step' more (session_after' hp hb hg he events).
Proof. unfold session_after. apply fold_left_app. Qed.

Lemma session_after_inv hp hb hg he events :
  session_inv (session_after' hp hb hg he events).
Proof.
  induction events as [|e events IH] using rev_ind.
  - apply run_start_inv.
  - rewrite session_after_app. simpl. apply step_inv, IH.
Qed.

Lemma step_loop_inv s e : loop_inv s -> loop_inv (step' s e).
Proof.
  intros Hs.
  assert (Hclean : forall q, loop_inv q -> spinning q = false -> loop_inv (cleanup q)).
  { intros q Hq Hsp. unfold loop_inv, spinning, cleanup in *. simpl.
    destruct (receive_loop q); [exact I|discriminate|reflexivity]. }
  destruct e as [now hand| | |o]; simpl.
  - destruct (in_main_loop s) ; simpl; [|exact Hs].
    destruct (spinning s) eqn:Hsp; simpl; [exact Hs|].
    pose proof (frame_step_drawing_only now hand (self s) (io s)) as Hd.
    assert (Hq : forall p t, drawing_only (self s) (io s) p t ->
              loop_inv {| self := p; io := t; receive_task := receive_task s;
                          in_main_loop := true; receive_loop := receive_loop s |}).
    { intros p t [K1 K2 K3 K4 K5 K6 K7 K8 K9].
      unfold loop_inv, spinning in *. simpl.
      destruct (receive_loop s); [exact I|discriminate|congruence]. }
    destruct (frame_step' now hand (self s) (io s)) as [[p t]|[p t]]; simpl in Hd.
    + apply Hq, Hd.
    + apply Hclean; [apply Hq, Hd|exact Hsp].
  - destruct (in_main_loop s); simpl; [|exact Hs].
    destruct (spinning s) eqn:Hsp; simpl; [exact Hs|]. apply Hclean; assumption.
  - destruct (in_main_loop s); simpl; [|exact Hs].
    destruct (spinning s) eqn:Hsp; simpl; [exact Hs|]. apply Hclean; assumption.
  - destruct (receive_task s && awaiting s); [|exact Hs].
    unfold receive_iteration.
    destruct (bool_decide (is_Some (ws (self s))) && connected (self s)) eqn:Hg.
    + destruct (match o with RecvTimeout => _ | _ => _ end) as [p t].
      unfold loop_inv. simpl.
      destruct (running p); simpl; [exact I|reflexivity].
    + unfold loop_inv. simpl.
      destruct (running (self s)); simpl; [exact Hg|reflexivity].
Qed.

Lemma session_after_loop_inv hp hb hg he events :
  loop_inv (session_after' hp hb hg he events).
Proof.
  induction events as [|e events IH] using rev_ind.
  - unfold session_after, run_start.
    destruct (connect_to_server _ _ _) as [[ok p] t]. exact I.
  - rewrite session_after_app. simpl. apply step_loop_inv, IH.
Qed.

(** A painter that is connected while [running] is on has its receive
    task, if any, at an [await]. *)
Lemma session_after_awaiting hp hb hg he events :
  let s := session_after' hp hb hg he events in
  running (self s) = true -> is_connected (self s) -> awaiting s = true.
Proof.
  intros s Hrun [Hws Hcn].
  pose proof (session_after_loop_inv hp hb hg he events) as Hl. fold s in Hl.
  unfold loop_inv, awaiting in *.
  destruct (receive_loop s); [reflexivity| |congruence].
  rewrite (bool_decide_eq_true_2 _ Hws), Hcn in Hl. discriminate.
Qed.

Lemma step_refusals_mono s e :
  (refusals (io s) <= refusals (io (step' s e)))%nat.
Proof.
  destruct e as [now hand| | |o]; simpl.
  - destruct (in_main_loop s && negb (spinning s)); [|lia].
    pose proof (frame_step_drawing_only now hand (self s) (io s)) as Hd.
    destruct (frame_step' now hand (self s) (io s)) as [[p t]|[p t]];
      simpl in Hd; destruct Hd; unfold cleanup; simpl; try lia.
    destruct (bool_decide _); [rewrite refusals_app; simpl|]; lia.
  - destruct (in_main_loop s && negb (spinning s)); [|lia]. unfold cleanup. simpl.
    destruct (bool_decide _); [rewrite refusals_app; simpl|]; lia.
  - destruct (in_main_loop s && negb (spinning s)); [|lia]. unfold cleanup. simpl.
    destruct (bool_decide _); [rewrite refusals_app; simpl|]; lia.
  - destruct (receive_task s && awaiting s); [|lia].
    unfold receive_iteration.
    destruct (bool_decide (is_Some (ws (self s))) && connected (self s)); [|simpl; lia].
    destruct o; simpl; try lia.
    destruct (connect_to_server_spec endpoint (set_connected false (self s)) (io s))
      as (k & _ & _ & [(_ & _ & ->)|(_ & ->)]); simpl;
      rewrite ?refusals_app; lia.
Qed.

Lemma fold_step_refusals_mono more s :
  (refusals (io s) <= refusals (io (fold_left step' more s)))%nat.
Proof.
  revert s. induction more as [|e more IH]; intros s; simpl; [lia|].
  etransitivity; [apply (step_refusals_mono s e)|apply IH].
Qed.

(** C9.  In every session the retry counter equals the number of refused
    handshakes so far (it is incremented on every failed attempt), never
    decreases as the session goes on (it is never reset), and stays at or
    below [max_retries] = 3, so the refused handshakes of all connection
    sequences of the session together are at most 3; and once the counter
    has reached 3, any later [connect_to_server] call returns False without
    an attempt: it leaves the object and the trace as they are. *)
Theorem retry_counter_spans_the_session hp hb hg he events more :
  let s := session_after' hp hb hg he events in
  let s' := session_after' hp hb hg he (events ++ more) in
  retry_count (self s) = Z.of_nat (refusals (io s)) /\
  retry_count (self s) <= retry_count (self s') /\
  (refusals (io s) <= 3)%nat /\
  max_retries (self s) = 3 /\
  (retry_count (self s) = 3 ->
   forall t, connect_to_server endpoint (self s') t = (false, self s', t)).
Proof.
  intros s s'.
  pose proof (session_after_inv hp hb hg he events) as [H1 H2 H3 H4 H5 H6].
  pose proof (session_after_inv hp hb hg he (events ++ more)) as [K1 K2 K3 K4 K5 K6].
  fold s in H1, H2, H3, H4, H5, H6. fold s' in K1, K2, K3, K4, K5, K6.
  assert (Hmono : (refusals (io s) <= refusals (io s'))%nat).
  { subst s s'. rewrite session_after_app. apply fold_step_refusals_mono. }
  repeat split; try assumption; try lia.
  intros H t. apply connect_to_server_exhausted. lia.
Qed.

(** C1.  When the endpoint refuses the three handshakes of the initial
    connection sequence, the session is in local mode from then on: after
    any events, [local_mode] is set and the network trace is still exactly
    the three refused handshakes of the start (nothing was encoded,
    dispatched or closed since).  A [send_drawing] call then makes the one
    call [cv2.line(imgCanvas, (x1, y1), (x2, y2), color, thickness)]; when
    it returns, the call returns with the resulting image as [imgCanvas]
    and as [displayBuffer], every other attribute and the trace as they
    were; when it raises, the exception propagates and nothing has
    changed. *)
Theorem local_mode_draws_without_network hp hb hg he events
    now x1 y1 x2 y2 c0 c1 c2 thickness :
  (forall n, (n < 3)%nat -> endpoint n = false) ->
  let s := session_after' hp hb hg he events in
  local_mode (self s) = true /\
  io s = refused 3 /\
  send_drawing json_dumps cv2_line now x1 y1 x2 y2 (c0, c1, c2) thickness
               (self s) (io s) =
    match cv2_line (imgCanvas (self s))
                   (PTuple [PInt x1; PInt y1]) (PTuple [PInt x2; PInt y2])
                   (PTuple [PInt c0; PInt c1; PInt c2]) (PInt thickness) with
    | Some img =>
        Returned (set_displayBuffer img (set_imgCanvas img (self s)), refused 3)
    | None => Raised (self s, refused 3)
    end.
Proof.
  intros Href s.
  assert (Hloc : local_mode (self s) = true /\ io s = refused 3 /\
                 receive_task s = false /\ ws (self s) = None).
  { subst s. induction events as [|e events IH] using rev_ind.
    - unfold session_after, run_start. simpl.
      destruct (connect_to_server_spec endpoint (new_painter hp hb hg he) [])
        as (k & Hk & _ & [(Hlt & Hacc & _)|(-> & ->)]);
        change (budget (new_painter hp hb hg he)) with 3%nat in *.
      + simpl in Hacc. rewrite Href in Hacc by lia. discriminate.
      + simpl. auto.
    - rewrite session_after_app. simpl.
      destruct IH as (Hl & Hio & Hrt & Hws).
      set (s := session_after' hp hb hg he events) in *.
      destruct e as [now' hand| | |o]; simpl.
      + destruct (in_main_loop s && negb (spinning s)); [|auto].
        pose proof (frame_step_drawing_only now' hand (self s) (io s)) as Hd.
        destruct (frame_step' now' hand (self s) (io s)) as [[p t]|[p t]];
          simpl in Hd; destruct Hd as [K1 K2 K3 K4 K5 K6 K7 K8 K9];
          unfold cleanup; simpl; rewrite ?K3, ?Hws, ?no_socket; simpl;
          rewrite K9 by assumption; repeat split;
          first [exact Hio | congruence].
      + destruct (in_main_loop s && negb (spinning s)); [|auto]. unfold cleanup. simpl.
        rewrite Hws, no_socket. auto.
      + destruct (in_main_loop s && negb (spinning s)); [|auto]. unfold cleanup. simpl.
        rewrite Hws, no_socket. auto.
      + rewrite Hrt. simpl. auto. }
  destruct Hloc as (Hl & Hio & _ & _).
  split; [exact Hl|]. split; [exact Hio|].
  unfold send_drawing, apply_stroke, draw_line, local_args. rewrite Hio.
  destruct (cv2_line (imgCanvas (self s)) _ _ _ _) as [img|]; simpl; [|reflexivity].
  rewrite Hl. reflexivity.
Qed.

(** C2, as the code has it.  Against an endpoint that refuses every
    handshake from now on, [connect_to_server] makes exactly
    [max_retries - retry_count] attempts (the budget that earlier refusals
    of the session have left), each followed by the one-second backoff,
    counts them, and returns False; on a new object, where nothing has been
    counted yet, these are exactly 3 attempts. *)
Theorem connect_to_server_refused p t hp hb hg he :
  (forall n, (attempts t <= n)%nat -> endpoint n = false) ->
  connect_to_server endpoint p t =
    (false,
     set_retry_count (retry_count p + Z.of_nat (budget p)) p,
     t ++ refused (budget p)) /\
  connect_to_server endpoint (new_painter hp hb hg he) t =
    (false, set_retry_count 3 (new_painter hp hb hg he), t ++ refused 3).
Proof.
  intros Href.
  assert (Hgen : forall q,
    connect_to_server endpoint q t =
      (false, set_retry_count (retry_count q + Z.of_nat (budget q)) q,
       t ++ refused (budget q))).
  { intros q.
    destruct (connect_to_server_spec endpoint q t)
      as (k & _ & _ & [(_ & Hacc & _)|(-> & ->)]); [|reflexivity].
    rewrite Href in Hacc by lia. discriminate. }
  split; apply Hgen.
Qed.

(** C3, as the code has it.  Local mode is decided once, by the initial
    connection sequence, and no later event changes it.  When a pass of the
    receive loop finds the connection closed while the painter is
    Connected, the painter is marked disconnected and [connect_to_server]
    runs at once; that sequence makes at least one attempt and at most as
    many as the refusals of the session so far have left of the three; the
    painter is Connected afterwards exactly when a handshake was accepted,
    and it is not in local mode. *)
Theorem closed_connection_reconnects hp hb hg he events :
  let s := session_after' hp hb hg he events in
  local_mode (self s) = local_mode (self (session_after' hp hb hg he [])) /\
  (receive_task s = true -> running (self s) = true -> is_connected (self s) ->
   let s' := step' s (Poll RecvClosed) in
   connect_to_server endpoint (set_connected false (self s)) (io s)
     = (connected (self s'), self s', io s') /\
   (attempts (io s) + 1 <= attempts (io s'))%nat /\
   (attempts (io s') + refusals (io s) <= attempts (io s) + 3)%nat /\
   local_mode (self s') = false).
Proof.
  intros s. split.
  - subst s. induction events as [|e events IH] using rev_ind; [reflexivity|].
    rewrite session_after_app, <- IH. simpl.
    set (s := session_after' hp hb hg he events).
    destruct e as [now hand| | |o]; simpl.
    + destruct (in_main_loop s && negb (spinning s)); [|reflexivity].
      pose proof (frame_step_drawing_only now hand (self s) (io s)) as Hd.
      destruct (frame_step' now hand (self s) (io s)) as [[p t]|[p t]];
        simpl in Hd; destruct Hd; assumption.
    + destruct (in_main_loop s && negb (spinning s)); reflexivity.
    + destruct (in_main_loop s && negb (spinning s)); reflexivity.
    + destruct (receive_task s && awaiting s); [|reflexivity].
      unfold receive_iteration.
      destruct (bool_decide (is_Some (ws (self s))) && connected (self s));
        [|reflexivity].
      destruct o as [|m| |]; simpl; try reflexivity.
      * apply (keep_local _ _ _ _ (on_message_drawing_only m (self s) (io s))).
      * destruct (connect_to_server_spec endpoint (set_connected false (self s)) (io s))
          as (k & _ & _ & [(_ & _ & ->)|(_ & ->)]); reflexivity.
  - intros Hrt Hrun [Hws Hcn] s'.
    pose proof (session_after_inv hp hb hg he events) as [H1 H2 H3 H4 H5 H6].
    fold s in H1, H2, H3, H4, H5, H6.
    specialize (H4 Hcn).
    assert (Hl : local_mode (self s) = false).
    { rewrite Hrt in H5. destruct (local_mode (self s)); [discriminate|reflexivity]. }
    subst s'. simpl.
    pose proof (session_after_awaiting hp hb hg he events Hrun (conj Hws Hcn))
      as Hend.
    fold s in Hend. rewrite Hrt, Hend. simpl.
    unfold receive_iteration.
    rewrite (bool_decide_eq_true_2 _ Hws), Hcn. simpl.
    destruct (connect_to_server_spec endpoint (set_connected false (self s)) (io s))
      as (k & Hk & _ & [(Hlt & _ & ->)|(-> & ->)]);
      unfold budget in *; simpl in *;
      rewrite ?attempts_app, ?attempts_refused; simpl.
    + repeat split; try assumption; lia.
    + repeat split; try assumption; lia.
Qed.


End Sessions.

(** ** The codec and the receive path *)

(** The receive path reads back from the record exactly the arguments the
    send path drew with. *)
Lemma remote_args_draw_record now x1 y1 x2 y2 color thickness :
  remote_args (draw_record now x1 y1 x2 y2 color thickness)
  = Some (local_args x1 y1 x2 y2 color thickness).
Proof. destruct color as [[c0 c1] c2]. reflexivity. Qed.

(** When [remote_args] fails: a required key is missing, or the colour
    cannot be iterated. *)
Lemma remote_args_None data :
  remote_args data = None <->
  (exists k, In k ["x1"; "y1"; "x2"; "y2"; "color"; "thickness"]%string /\
             py_getitem data k = None) \/
  (exists c, py_getitem data "color" = Some c /\ py_tuple c = None).
Proof.
  split.
  - unfold remote_args.
    destruct (py_getitem data "x1") eqn:E1; simpl;
      [|intros _; left; exists "x1"%string; split; [simpl; tauto|assumption]].
    destruct (py_getitem data "y1") eqn:E2; simpl;
      [|intros _; left; exists "y1"%string; split; [simpl; tauto|assumption]].
    destruct (py_getitem data "x2") eqn:E3; simpl;
      [|intros _; left; exists "x2"%string; split; [simpl; tauto|assumption]].
    destruct (py_getitem data "y2") eqn:E4; simpl;
      [|intros _; left; exists "y2"%string; split; [simpl; tauto|assumption]].
    destruct (py_getitem data "color") as [c|] eqn:E5; simpl;
      [|intros _; left; exists "color"%string; split; [simpl; tauto|assumption]].
    destruct (py_tuple c) eqn:E6; simpl; [|intros _; right; eauto].
    destruct (py_getitem data "thickness") eqn:E7; simpl; [discriminate|].
    intros _; left; exists "thickness"%string; split; [simpl; tauto|assumption].
  - intros H. destruct (remote_args data) as [a|] eqn:E; [exfalso|reflexivity].
    unfold remote_args in E.
    destruct (py_getitem data "x1") eqn:E1; simpl in E; [|discriminate].
    destruct (py_getitem data "y1") eqn:E2; simpl in E; [|discriminate].
    destruct (py_getitem data "x2") eqn:E3; simpl in E; [|discriminate].
    destruct (py_getitem data "y2") eqn:E4; simpl in E; [|discriminate].
    destruct (py_getitem data "color") as [c'|] eqn:E5; simpl in E; [|discriminate].
    destruct (py_tuple c') eqn:E6; simpl in E; [|discriminate].
    destruct (py_getitem data "thickness") eqn:E7; simpl in E; [|discriminate].
    destruct H as [(k & Hk & Hnone)|(c & Hc & Ht)].
    + simpl in Hk.
      destruct Hk as [<-|[<-|[<-|[<-|[<-|[<-|[]]]]]]]; congruence.
    + congruence.
Qed.

Section Codec.

Variable endpoint : nat -> bool.
Variable json_dumps : pyval -> option string.
Variable json_loads : string -> option pyval.
Variable cv2_line : ndarray -> pyval -> pyval -> pyval -> pyval -> option ndarray.

Local Abbreviation receive_iteration' := (receive_iteration endpoint json_loads cv2_line).


Lemma decode_draw_record now x1 y1 x2 y2 color thickness payload :
  json_loads payload = Some (draw_record now x1 y1 x2 y2 color thickness) ->
  decode json_loads payload = Some (Some (local_args x1 y1 x2 y2 color thickness)).
Proof using Type.
  intros H. unfold decode. rewrite H. simpl.
  destruct color as [[c0 c1] c2]. reflexivity.
Qed.

Lemma decode_cases m :
  decode json_loads m =
  match json_loads m with
  | None => None
  | Some data =>
      match py_get data "type" with
      | None => None
      | Some ty =>
          if py_eq_str ty "draw" then
            match remote_args data with
            | Some a => Some (Some a)
            | None => None
            end
          else Some None
      end
  end.
Proof using Type.
  unfold decode. destruct (json_loads m) as [data|]; [|reflexivity]. simpl.
  destruct (py_get data "type") as [ty|]; [|reflexivity]. simpl.
  destruct (py_eq_str ty "draw"); [|reflexivity].
  destruct (remote_args data); reflexivity.
Qed.


(** What one message does to a connected painter. *)
Lemma receive_message m p t :
  is_connected p ->
  receive_iteration' (RecvMessage m) p t = (on_message json_loads cv2_line m p, t).
Proof using Type.
  intros [Hws Hcn]. unfold receive_iteration.
  rewrite (bool_decide_eq_true_2 _ Hws), Hcn. reflexivity.
Qed.

(** C4, as the code has it.  A message leaves the painter and the trace
    exactly as they were when it cannot be parsed, is not a JSON object,
    carries a type other than "draw", lacks one of the keys x1, y1, x2, y2,
    color, thickness, has a colour that cannot be iterated, or has fields
    that [cv2.line] refuses.  The code checks no shape itself: fields that
    [cv2.line] accepts are drawn.  In every case the message touches the
    canvas and the snapshot only: socket, flags, retry counter and trace
    stay as they are. *)
Theorem malformed_message_is_dropped m p t :
  (json_loads m = None \/
   (exists data, json_loads m = Some data /\
      (py_get data "type" = None \/
       (exists ty, py_get data "type" = Some ty /\ py_eq_str ty "draw" = false) \/
       (exists k, In k ["x1"; "y1"; "x2"; "y2"; "color"; "thickness"]%string /\
                  py_getitem data k = None) \/
       (exists c, py_getitem data "color" = Some c /\ py_tuple c = None) \/
       (exists a, remote_args data = Some a /\
                  draw_line cv2_line a (imgCanvas p) = None))) ->
   receive_iteration' (RecvMessage m) p t = (p, t)) /\
  (receive_iteration' (RecvMessage m) p t = (p, t) \/
   exists a img,
     decode json_loads m = Some (Some a) /\
     draw_line cv2_line a (imgCanvas p) = Some img /\
     receive_iteration' (RecvMessage m) p t
       = (set_displayBuffer img (set_imgCanvas img p), t)).
Proof using Type.
  split.
  - intros Hbad. unfold receive_iteration.
    destruct (bool_decide (is_Some (ws p)) && connected p); [|reflexivity].
    f_equal. unfold on_message. rewrite decode_cases.
    destruct Hbad as [->|(data & -> & Hbad)]; [reflexivity|].
    destruct Hbad as [->|[(ty & -> & ->)|Hbad]]; [reflexivity|reflexivity|].
    destruct (py_get data "type") as [ty|]; [|reflexivity].
    destruct (py_eq_str ty "draw"); [|reflexivity].
    assert (Hargs : remote_args data = None \/
                    exists a, remote_args data = Some a /\
                              draw_line cv2_line a (imgCanvas p) = None).
    { destruct Hbad as [H|[H|H]]; [left|left|right; exact H];
        apply remote_args_None; auto. }
    destruct Hargs as [->|(a & -> & Hline)]; [reflexivity|].
    unfold apply_stroke. rewrite Hline. reflexivity.
  - unfold receive_iteration.
    destruct (bool_decide (is_Some (ws p)) && connected p); [|left; reflexivity].
    unfold on_message.
    destruct (decode json_loads m) as [[a|]|] eqn:Hd; [|left; reflexivity..].
    unfold apply_stroke.
    destruct (draw_line cv2_line a (imgCanvas p)) as [img|] eqn:Hl; simpl;
      [right; eauto|left; reflexivity].
Qed.

(** C6.  Starting from the same canvas and snapshot, drawing a stroke
    through [send_drawing] and receiving the draw event that [send_drawing]
    encodes for it leave the same canvas and the same snapshot. *)
Theorem local_and_remote_strokes_agree now x1 y1 x2 y2 color thickness payload
    p q t u :
  encode json_dumps now x1 y1 x2 y2 color thickness = Some payload ->
  json_loads payload = Some (draw_record now x1 y1 x2 y2 color thickness) ->
  imgCanvas q = imgCanvas p ->
  displayBuffer q = displayBuffer p ->
  is_connected q ->
  let p' := fst (left_behind
                   (send_drawing json_dumps cv2_line now x1 y1 x2 y2 color thickness p t)) in
  let q' := fst (receive_iteration' (RecvMessage payload) q u) in
  imgCanvas q' = imgCanvas p' /\ displayBuffer q' = displayBuffer p'.
Proof using Type.
  intros _ Hloads Hc Hd Hq p' q'. subst p' q'.
  rewrite receive_message by exact Hq.
  unfold on_message. rewrite (decode_draw_record now _ _ _ _ _ _ _ Hloads).
  unfold send_drawing, apply_stroke. rewrite Hc.
  destruct (draw_line cv2_line _ (imgCanvas p)) as [img|]; simpl; [|auto].
  destruct (negb (local_mode p) && bool_decide (is_Some (ws p)) && connected p);
    [destruct (encode json_dumps now x1 y1 x2 y2 color thickness)|]; simpl; auto.
Qed.

End Codec.

(** ** The JSON double reads back what it writes

    For every stroke and every printable timestamp, [Json.loads] returns
    the record [Json.dumps] was given: the doubles satisfy, for all draw
    records, the contract that the codec theorems assume of [json]. *)

Lemma dump_chars_printable s :
  forallb (fun c => (32 <=? Json.code c) && (Json.code c <=? 126)) s = true ->
  exists t, Json.dump_chars s = Some t.
Proof.
  induction s as [|c s IH]; simpl; [eauto|].
  intros H. apply andb_true_iff in H as [Hc Hs].
  destruct (IH Hs) as [t ->].
  apply andb_true_iff in Hc as [Hlo Hhi].
  replace (Json.code c <? 32) with false by lia.
  replace (126 <? Json.code c) with false by lia. simpl.
  destruct (Ascii.eqb c Json.quote || Ascii.eqb c Json.backslash); simpl; eauto.
Qed.

Lemma parse_string_dump_chars s : forall t acc rest,
  Json.dump_chars s = Some t ->
  Json.parse_string acc (t ++ Json.quote :: rest)
  = Some (string_of_list_ascii (rev acc ++ s), rest).
Proof.
  induction s as [|c s IH]; intros t acc rest; simpl.
  - intros [= <-]. simpl. rewrite app_nil_r. reflexivity.
  - destruct ((Json.code c <? 32) || (126 <? Json.code c)) eqn:Hrange; [discriminate|].
    apply orb_false_iff in Hrange as [Hlo _].
    destruct (Json.dump_chars s) as [t'|]; simpl;
      [|destruct (Ascii.eqb c Json.quote || Ascii.eqb c Json.backslash); discriminate].
    specialize (IH t' (c :: acc) rest eq_refl).
    replace (rev (c :: acc) ++ s) with (rev acc ++ c :: s) in IH
      by (simpl; rewrite <- app_assoc; reflexivity).
    destruct (Ascii.eqb c Json.quote) eqn:Hq; simpl.
    + intros [= <-]. apply Ascii.eqb_eq in Hq. subst c. exact IH.
    + destruct (Ascii.eqb c Json.backslash) eqn:Hb; simpl; intros [= <-].
      * apply Ascii.eqb_eq in Hb. subst c. exact IH.
      * simpl. rewrite Hq, Hb, Hlo. exact IH.
Qed.

Lemma to_uint_head p :
  match Pos.to_uint p with
  | Decimal.Nil | Decimal.D0 _ => False
  | _ => True
  end.
Proof.
  pose proof (Unsigned.to_of (Pos.to_uint p)) as H.
  rewrite Unsigned.of_to in H. simpl in H.
  pose proof (Unsigned.to_uint_nonzero p) as Hnz.
  pose proof (Unsigned.to_uint_nonnil p) as Hnn.
  destruct (Pos.to_uint p) as [|l| | | | | | | | |]; try exact I.
  - apply Hnn. reflexivity.
  - rewrite unorm_D0 in H. unfold Decimal.unorm in H.
    destruct (Decimal.nzhead l) as [|u| | | | | | | | |] eqn:Hh; try discriminate.
    + injection H as ->. apply Hnz. reflexivity.
    + exact (nzhead_nonzero l u Hh).
Qed.

Lemma ends_number_no_fraction rest :
  ends_number rest = true -> Json.starts_fraction rest = false.
Proof.
  destruct rest as [|c r]; [reflexivity|]. unfold ends_number.
  destruct (Json.digit_val c); [discriminate|].
  intros H. apply negb_true_iff in H. exact H.
Qed.

Lemma parse_digits_uint d : forall acc rest,
  ends_number rest = true ->
  Json.parse_digits (Z.pos acc)
    (list_ascii_of_string (NilEmpty.string_of_uint d) ++ rest)
  = (Z.pos (Pos.of_uint_acc d acc), rest).
Proof.
  induction d as [|d IH|d IH|d IH|d IH|d IH|d IH|d IH|d IH|d IH|d IH];
    intros acc rest Hrest;
    try (cbn [NilEmpty.string_of_uint list_ascii_of_string app Json.parse_digits
              Pos.of_uint_acc];
         match goal with
         | |- context [Json.digit_val ?c] =>
             let v := eval vm_compute in (Json.digit_val c) in
             change (Json.digit_val c) with v
         end;
         cbv beta iota;
         match goal with
         | |- Json.parse_digits ?z _ = _ =>
             match goal with
             | |- _ = (Z.pos (Pos.of_uint_acc _ ?q), _) =>
                 replace z with (Z.pos q) by lia
             end
         end;
         apply IH; exact Hrest).
  simpl. destruct rest as [|c r]; [reflexivity|].
  simpl in Hrest. simpl. destruct (Json.digit_val c); [discriminate|reflexivity].
Qed.

Lemma parse_nat_to_uint p rest :
  ends_number rest = true ->
  Json.parse_nat (list_ascii_of_string (NilEmpty.string_of_uint (Pos.to_uint p)) ++ rest)
  = Some (Z.pos p, rest).
Proof.
  intros Hrest.
  pose proof (to_uint_head p) as Hhead.
  pose proof (Unsigned.of_to p) as Hof.
  pose proof (ends_number_no_fraction rest Hrest) as Hfrac.
  destruct (Pos.to_uint p) as [|d|d|d|d|d|d|d|d|d|d]; try contradiction;
    simpl in Hof; injection Hof as <-;
    cbn [NilEmpty.string_of_uint list_ascii_of_string app Json.parse_nat];
    match goal with
    | |- context [Json.digit_val ?c] =>
        let v := eval vm_compute in (Json.digit_val c) in
        change (Json.digit_val c) with v
    end;
    cbv beta iota; simpl Z.eqb; cbv beta iota;
    rewrite parse_digits_uint by exact Hrest;
    rewrite Hfrac; reflexivity.
Qed.

Lemma dump_int_pos p :
  Json.dump_int (Z.pos p)
  = list_ascii_of_string (NilEmpty.string_of_uint (Pos.to_uint p)).
Proof.
  unfold Json.dump_int. simpl.
  pose proof (to_uint_head p) as Hhead.
  destruct (Pos.to_uint p); try contradiction; reflexivity.
Qed.

Lemma dump_int_neg p :
  Json.dump_int (Z.neg p)
  = "-"%char :: list_ascii_of_string (NilEmpty.string_of_uint (Pos.to_uint p)).
Proof.
  unfold Json.dump_int. simpl.
  pose proof (to_uint_head p) as Hhead.
  destruct (Pos.to_uint p); try contradiction; reflexivity.
Qed.

Lemma starts_number_dump_int z rest : starts_number (Json.dump_int z ++ rest) = true.
Proof.
  destruct z as [|p|p]; [reflexivity| |rewrite dump_int_neg; reflexivity].
  rewrite dump_int_pos. pose proof (to_uint_head p) as Hhead.
  destruct (Pos.to_uint p); try contradiction; reflexivity.
Qed.

Lemma parse_number_dump_int z rest :
  ends_number rest = true ->
  Json.parse_number (Json.dump_int z ++ rest) = Some (PInt z, rest).
Proof.
  intros Hrest.
  pose proof (ends_number_no_fraction rest Hrest) as Hfrac.
  destruct z as [|p|p].
  - change (Json.dump_int 0 ++ rest) with ("0"%char :: rest).
    unfold Json.parse_number, Json.parse_nat.
    change (Ascii.eqb "0" "-") with false.
    change (Json.digit_val "0") with (Some 0). cbv beta iota.
    change (0 =? 0) with true. cbv beta iota. rewrite Hfrac. reflexivity.
  - pose proof (parse_nat_to_uint p rest Hrest) as Hnat.
    pose proof (starts_number_dump_int (Z.pos p) rest) as Hstart.
    rewrite dump_int_pos in *.
    destruct (list_ascii_of_string (NilEmpty.string_of_uint (Pos.to_uint p)) ++ rest)
      as [|c r] eqn:E; [discriminate|].
    unfold Json.parse_number. unfold starts_number in Hstart.
    destruct (Ascii.eqb c "-") eqn:Hminus.
    + apply Ascii.eqb_eq in Hminus. subst c. discriminate Hnat.
    + rewrite Hnat. reflexivity.
  - rewrite dump_int_neg.
    cbn [app]. unfold Json.parse_number.
    change (Ascii.eqb "-" "-") with true. cbv beta iota.
    rewrite parse_nat_to_uint by exact Hrest. reflexivity.
Qed.

(** A text that starts a number is parsed as a number. *)
Lemma parse_value_number f s :
  starts_number s = true -> Json.parse_value (S f) s = Json.parse_number s.
Proof.
  destruct s as [|c r]; [discriminate|].
  destruct c as [[] [] [] [] [] [] [] []]; try discriminate; intros _; reflexivity.
Qed.

Lemma parse_value_dump_int f z rest :
  ends_number rest = true ->
  Json.parse_value (S f) (Json.dump_int z ++ rest) = Some (PInt z, rest).
Proof.
  intros Hrest.
  rewrite parse_value_number by apply starts_number_dump_int.
  apply parse_number_dump_int. exact Hrest.
Qed.

Lemma skip_ws_number s : starts_number s = true -> Json.skip_ws s = s.
Proof.
  destruct s as [|c r]; [discriminate|].
  destruct c as [[] [] [] [] [] [] [] []]; try discriminate; intros _; reflexivity.
Qed.

Lemma parse_value_space f s :
  Json.parse_value (S f) (" "%char :: s) = Json.parse_value (S f) s.
Proof. reflexivity. Qed.

Lemma parse_members_space f acc s :
  Json.parse_members (S f) acc (" "%char :: s) = Json.parse_members (S f) acc s.
Proof. reflexivity. Qed.

Lemma parse_value_dump_str f s t rest :
  Json.dump_chars (list_ascii_of_string s) = Some t ->
  Json.parse_value (S f) (Json.quote :: t ++ Json.quote :: rest) = Some (PStr s, rest).
Proof.
  intros H. simpl.
  rewrite (parse_string_dump_chars _ _ [] rest H). simpl.
  rewrite string_of_list_ascii_of_string. reflexivity.
Qed.

Lemma parse_value_open_brace f r :
  Json.parse_value (S f) ("{"%char :: Json.quote :: r)
  = Json.parse_members f [] (Json.quote :: r).
Proof. reflexivity. Qed.

Lemma parse_value_open_bracket f s :
  starts_number s = true ->
  Json.parse_value (S f) ("["%char :: s) = Json.parse_items f [] s.
Proof.
  destruct s as [|c r]; [discriminate|].
  destruct c as [[] [] [] [] [] [] [] []]; try discriminate; intros _; reflexivity.
Qed.

(** One pass of the array loop: an element, then a comma or the bracket. *)
Lemma parse_items_more f acc s v r :
  Json.parse_value f s = Some (v, ","%char :: r) ->
  Json.parse_items (S f) acc s = Json.parse_items f (v :: acc) r.
Proof. intros Hv. cbn [Json.parse_items]. rewrite Hv. reflexivity. Qed.

Lemma parse_items_last f acc s v r :
  Json.parse_value f s = Some (v, "]"%char :: r) ->
  Json.parse_items (S f) acc s = Some (PList (rev (v :: acc)), r).
Proof. intros Hv. cbn [Json.parse_items]. rewrite Hv. reflexivity. Qed.

(** One pass of the object loop: a key, the colon, a value, then a comma
    or the brace. *)
Lemma parse_members_key f acc k kt s :
  Json.dump_chars (list_ascii_of_string k) = Some kt ->
  Json.parse_members (S f) acc (Json.quote :: kt ++ Json.quote :: ":"%char :: s) =
    match Json.parse_value f s with
    | Some (v, r) =>
        match Json.skip_ws r with
        | c :: r' =>
            if Ascii.eqb c "," then Json.parse_members f (dict_set k v acc) r'
            else if Ascii.eqb c "}" then Some (PDict (dict_set k v acc), r')
            else None
        | [] => None
        end
    | None => None
    end.
Proof.
  intros Hk. cbn [Json.parse_members].
  change (Json.skip_ws (Json.quote :: kt ++ Json.quote :: ":"%char :: s))
    with (Json.quote :: kt ++ Json.quote :: ":"%char :: s).
  change (Ascii.eqb Json.quote Json.quote) with true. cbv beta iota.
  rewrite (parse_string_dump_chars _ _ [] _ Hk).
  cbn [rev app]. rewrite string_of_list_ascii_of_string. reflexivity.
Qed.

Lemma parse_members_more f acc k kt s v r :
  Json.dump_chars (list_ascii_of_string k) = Some kt ->
  Json.parse_value f s = Some (v, ","%char :: r) ->
  Json.parse_members (S f) acc (Json.quote :: kt ++ Json.quote :: ":"%char :: s)
  = Json.parse_members f (dict_set k v acc) r.
Proof.
  intros Hk Hv. rewrite (parse_members_key _ _ _ _ _ Hk), Hv. reflexivity.
Qed.

Lemma parse_members_last f acc k kt s v r :
  Json.dump_chars (list_ascii_of_string k) = Some kt ->
  Json.parse_value f s = Some (v, "}"%char :: r) ->
  Json.parse_members (S f) acc (Json.quote :: kt ++ Json.quote :: ":"%char :: s)
  = Some (PDict (dict_set k v acc), r).
Proof.
  intros Hk Hv. rewrite (parse_members_key _ _ _ _ _ Hk), Hv. reflexivity.
Qed.

Section JsonDouble.

Local Opaque Json.dump_int.

(** The fuel left after [k] levels of the parser. *)
Local Ltac spare k fuel :=
  lazymatch k with
  | O => fuel
  | S ?k' => lazymatch fuel with S ?fuel' => spare k' fuel' end
  end.

Local Ltac int_value :=
  rewrite ?parse_value_space; apply parse_value_dump_int; reflexivity.

Local Ltac str_value s t :=
  rewrite ?parse_value_space; apply (parse_value_dump_str _ s t); first [reflexivity | assumption].

Local Ltac member k kt value :=
  rewrite ?parse_members_space;
  etransitivity;
  [ first [ apply (parse_members_more _ _ k kt); [reflexivity | value]
          | apply (parse_members_last _ _ k kt); [reflexivity | value] ]
  | ].

Lemma parse_value_colour f c0 c1 c2 rest :
  Json.parse_value (S (S (S (S (S f)))))
    ("["%char :: Json.dump_int c0 ++ ","%char :: " "%char ::
       Json.dump_int c1 ++ ","%char :: " "%char ::
       Json.dump_int c2 ++ "]"%char :: rest)
  = Some (PList [PInt c0; PInt c1; PInt c2], rest).
Proof.
  rewrite parse_value_open_bracket by apply starts_number_dump_int.
  etransitivity; [apply parse_items_more; int_value|].
  etransitivity; [apply parse_items_more; int_value|].
  etransitivity; [apply parse_items_last; int_value|].
  reflexivity.
Qed.

Lemma loads_dumps_draw_record now x1 y1 x2 y2 c0 c1 c2 thickness :
  printable now = true ->
  exists m,
    Json.dumps (draw_record now x1 y1 x2 y2 (c0, c1, c2) thickness) = Some m /\
    Json.loads m = Some (draw_record now x1 y1 x2 y2 (c0, c1, c2) thickness).
Proof.
  intros Hnow. destruct (dump_chars_printable _ Hnow) as [nt Hnt].
  unfold Json.dumps, draw_record.
  cbn. unfold Json.dump_str. cbn. rewrite Hnt. cbn.
  eexists; split; [reflexivity|].
  unfold Json.loads. rewrite list_ascii_of_string_of_list_ascii. cbv zeta.
  repeat (rewrite <- ?app_assoc; progress cbn [app]).
  match goal with
  | |- context [Json.parse_value (S (length ?s)) _] =>
      remember s as txt eqn:Htxt; rewrite Htxt at 1
  end.
  cbn [length].
  match goal with
  | |- context [Json.parse_value ?fuel _] =>
      let g := spare 16%nat fuel in generalize g; intros f
  end.
  subst txt.
  match goal with
  | |- match ?e with _ => _ end = Some ?v =>
      assert (Hparse : e = Some (v, [])); [|rewrite Hparse; reflexivity]
  end.
  rewrite parse_value_open_brace.
  member "type"%string ["t"; "y"; "p"; "e"]%char
    ltac:(str_value "draw"%string ["d"; "r"; "a"; "w"]%char).
  member "x1"%string ["x"; "1"]%char int_value.
  member "y1"%string ["y"; "1"]%char int_value.
  member "x2"%string ["x"; "2"]%char int_value.
  member "y2"%string ["y"; "2"]%char int_value.
  member "color"%string ["c"; "o"; "l"; "o"; "r"]%char
    ltac:(rewrite ?parse_value_space; apply parse_value_colour).
  member "thickness"%string ["t"; "h"; "i"; "c"; "k"; "n"; "e"; "s"; "s"]%char
    int_value.
  member "timestamp"%string ["t"; "i"; "m"; "e"; "s"; "t"; "a"; "m"; "p"]%char
    ltac:(str_value now nt).
  reflexivity.
Qed.

(** The double meets, for every stroke, what the codec theorems ask of
    [json]: the payload [send_drawing] builds is read back as the record,
    and decodes to the arguments the stroke was drawn with. *)
Lemma json_double_round_trip now x1 y1 x2 y2 color thickness :
  printable now = true ->
  exists payload,
    encode Json.dumps now x1 y1 x2 y2 color thickness = Some payload /\
    Json.loads payload = Some (draw_record now x1 y1 x2 y2 color thickness) /\
    decode Json.loads payload
      = Some (Some (local_args x1 y1 x2 y2 color thickness)).
Proof.
  intros Hnow. destruct color as [[c0 c1] c2].
  destruct (loads_dumps_draw_record now x1 y1 x2 y2 c0 c1 c2 thickness Hnow)
    as (payload & Hdumps & Hloads).
  exists payload. split; [exact Hdumps|]. split; [exact Hloads|].
  apply decode_draw_record with now. exact Hloads.
Qed.

End JsonDouble.

(** ** The codec as a round trip *)

Lemma decode_stroke_record json_loads s b :
  json_loads b = Some (record_of_stroke s) -> decode_stroke json_loads b = Some s.
Proof.
  intros H. unfold decode_stroke. rewrite H.
  destruct s as [[x1 y1] [x2 y2] [[c0 c1] c2] thickness now]. reflexivity.
Qed.

(** C5.  Encoding and decoding a draw event are inverse to each other.  Let
    [b] be the bytes [send_drawing] builds for a stroke [s], and let
    [json.loads] read [b] back as the dict [json.dumps] was given.  Then
    decoding [b] gives [s], with its end points, its colour triple, its
    thickness and its time stamp; the receive path hands [cv2.line] the
    arguments [s] was drawn with; and encoding what was decoded from [b]
    gives [b] again.  The JSON double reads back what it wrote for every
    stroke with a printable time stamp, so for it the round trip holds
    outright. *)
Theorem codec_round_trip :
  (forall json_dumps json_loads s b,
     encode_stroke json_dumps s = Some b ->
     json_loads b = Some (record_of_stroke s) ->
     decode_stroke json_loads b = Some s /\
     decode json_loads b
       = Some (Some (local_args (fst (st_p1 s)) (snd (st_p1 s))
                                (fst (st_p2 s)) (snd (st_p2 s))
                                (st_color s) (st_thickness s))) /\
     (forall s', decode_stroke json_loads b = Some s' ->
                 encode_stroke json_dumps s' = Some b)) /\
  (forall s,
     printable (st_timestamp s) = true ->
     exists b,
       encode_stroke Json.dumps s = Some b /\
       decode_stroke Json.loads b = Some s /\
       (forall s', decode_stroke Json.loads b = Some s' ->
                   encode_stroke Json.dumps s' = Some b)).
Proof.
  assert (Hgen : forall json_dumps json_loads s b,
     encode_stroke json_dumps s = Some b ->
     json_loads b = Some (record_of_stroke s) ->
     decode_stroke json_loads b = Some s /\
     decode json_loads b
       = Some (Some (local_args (fst (st_p1 s)) (snd (st_p1 s))
                                (fst (st_p2 s)) (snd (st_p2 s))
                                (st_color s) (st_thickness s))) /\
     (forall s', decode_stroke json_loads b = Some s' ->
                 encode_stroke json_dumps s' = Some b)).
  { intros json_dumps json_loads s b Henc Hloads.
    pose proof (decode_stroke_record json_loads s b Hloads) as Hdec.
    split; [exact Hdec|]. split.
    - apply decode_draw_record with (st_timestamp s). exact Hloads.
    - intros s' Hs'. rewrite Hdec in Hs'. injection Hs' as <-. exact Henc. }
  split; [exact Hgen|].
  intros s Hnow.
  destruct s as [[x1 y1] [x2 y2] [[c0 c1] c2] thickness now]. simpl in Hnow.
  destruct (loads_dumps_draw_record now x1 y1 x2 y2 c0 c1 c2 thickness Hnow)
    as (b & Hdumps & Hloads).
  exists b.
  destruct (Hgen Json.dumps Json.loads
              {| st_p1 := (x1, y1); st_p2 := (x2, y2); st_color := (c0, c1, c2);
                 st_thickness := thickness; st_timestamp := now |} b Hdumps Hloads)
    as (H1 & _ & H3).
  split; [exact Hdumps|]. split; [exact H1|exact H3].
Qed.

(** ** The compositor *)

Lemma land_byte x : 0 <= x <= 255 -> Z.land x 255 = x.
Proof.
  intros H. change 255 with (Z.ones 8).
  rewrite Z.land_ones by lia. apply Z.mod_small. change (2 ^ 8) with 256. lia.
Qed.

Lemma alloc_fresh a (h : heap) l h' :
  alloc a h = (l, h') ->
  h !! l = None /\ h' !! l = Some a /\
  (forall k b, h !! k = Some b -> h' !! k = Some b).
Proof.
  unfold alloc. intros [= <- <-].
  assert (Hf : h !! fresh (dom h) = None) by (apply not_elem_of_dom, is_fresh).
  split; [exact Hf|]. split; [apply lookup_insert_eq|].
  intros k b Hk. rewrite lookup_insert_ne; [exact Hk|].
  intros <-. congruence.
Qed.

(** Bit by bit: OR-ing [b] into [a] changes nothing exactly when every
    bit of [b] is already set in [a]. *)
Lemma lor_keeps_iff a b : Z.lor a b = a <-> Z.land b a = b.
Proof.
  split; intros H; rewrite <- H at 1; rewrite <- H at 2 || idtac;
    apply Z.bits_inj'; intros n _;
    rewrite ?Z.land_spec, ?Z.lor_spec, ?Z.land_spec;
    destruct (Z.testbit a n), (Z.testbit b n); reflexivity.
Qed.

Section CompositorFacts.

Local Opaque alloc.

Variable luminance : Z -> Z -> Z -> Z.
Variable blend : ndarray -> ndarray -> ndarray.
Variable scalar_operand : (Z -> Z -> Z) -> ndarray -> ndarray -> option ndarray.

(** The value [compose] computes, pixel by pixel. *)
Lemma compose_pixels live snap :
  chans snap = 3 -> same_shape live snap = true ->
  exists shown,
    compose luminance scalar_operand live snap = Some shown /\
    same_shape shown snap = true /\
    forall r c ch,
      px shown r c ch =
      Z.lor (Z.land (px live r c ch)
                    (if 50 <? gray_at luminance snap r c then 0 else 255))
            (px snap r c ch).
Proof.
  intros Hch Hshape. unfold compose, cvtColor_BGR2GRAY. rewrite Hch. simpl.
  unfold bitwise_and. unfold same_shape in *. simpl.
  apply andb_true_iff in Hshape as [Hrc Hc].
  rewrite Hch in Hc. rewrite Hrc, Hc. simpl.
  unfold bitwise_or, same_shape. simpl. rewrite Hrc, Hch, Hc. simpl.
  eexists. split; [reflexivity|]. simpl. split; [|reflexivity].
  rewrite Hrc. apply Z.eqb_eq in Hc. rewrite Hc. reflexivity.
Qed.

(** C7, as the code has it.  For a live frame of 8-bit channels and a
    three-channel snapshot of the same shape, rendering a frame returns a
    new array and leaves every array that existed before, the live frame
    and the snapshot among them, as it was; [overlay_header] writes into
    the new array only.  The composited image is a function of the two
    inputs, fixed pixel by pixel: where the snapshot's gray value is above
    50 the snapshot pixel replaces the live pixel, and where it is at or
    below 50 the result is the bitwise OR of the live pixel and the
    snapshot pixel, channel by channel.  There the live value shows
    unchanged exactly when every bit of the snapshot value is already set
    in it, as it is wherever the snapshot pixel is black. *)
Theorem compositing_rule hdr img db (h : heap) live snap :
  h !! img = Some live -> h !! db = Some snap ->
  uint8 live -> chans snap = 3 -> same_shape live snap = true ->
  exists out h' shown,
    render luminance blend scalar_operand hdr img db h = Some (out, h') /\
    compose luminance scalar_operand live snap = Some shown /\
    h !! out = None /\
    h' !! out = Some (if chans hdr =? 4 then blend hdr shown else shown) /\
    (forall l a, h !! l = Some a -> h' !! l = Some a) /\
    (forall r c ch,
       px shown r c ch =
       if gray_at luminance snap r c <=? 50
       then Z.lor (px live r c ch) (px snap r c ch)
       else px snap r c ch) /\
    (forall r c ch,
       gray_at luminance snap r c <= 50 ->
       (px shown r c ch = px live r c ch <->
        Z.land (px snap r c ch) (px live r c ch) = px snap r c ch)) /\
    (forall r c ch,
       px snap r c 0 = 0 -> px snap r c 1 = 0 -> px snap r c 2 = 0 ->
       0 <= ch < 3 -> gray_at luminance snap r c <= 50 ->
       px shown r c ch = px live r c ch).
Proof.
  intros Himg Hdb Hbytes Hch Hshape.
  destruct (compose_pixels live snap Hch Hshape) as (shown & Hcomp & Hss & Hpx).
  assert (Hrule : forall r c ch,
            px shown r c ch =
            if gray_at luminance snap r c <=? 50
            then Z.lor (px live r c ch) (px snap r c ch)
            else px snap r c ch).
  { intros r c ch. rewrite Hpx.
    destruct (Z.ltb_spec 50 (gray_at luminance snap r c)) as [Hg|Hg];
      destruct (Z.leb_spec (gray_at luminance snap r c) 50) as [Hg'|Hg']; try lia.
    - rewrite Z.land_0_r. reflexivity.
    - rewrite land_byte by apply Hbytes. reflexivity. }
  revert Hcomp. unfold compose, render, overlay_canvas. rewrite Hdb. simpl.
  destruct (cvtColor_BGR2GRAY luminance snap) as [gray|]; [simpl|discriminate].
  destruct (alloc gray h) as [l1 h1] eqn:E1.
  apply alloc_fresh in E1 as (F1 & G1 & K1). rewrite G1. simpl.
  destruct (alloc (threshold_BINARY_INV 50 255 gray) h1) as [l2 h2] eqn:E2.
  apply alloc_fresh in E2 as (F2 & G2 & K2). rewrite G2. simpl.
  destruct (cvtColor_GRAY2BGR (threshold_BINARY_INV 50 255 gray)) as [inv3|];
    [simpl|discriminate].
  destruct (alloc inv3 h2) as [l3 h3] eqn:E3.
  apply alloc_fresh in E3 as (F3 & G3 & K3).
  rewrite (K3 _ _ (K2 _ _ (K1 _ _ Himg))), G3. simpl.
  destruct (bitwise_and scalar_operand live inv3) as [masked|]; [simpl|discriminate].
  destruct (alloc masked h3) as [l4 h4] eqn:E4.
  apply alloc_fresh in E4 as (F4 & G4 & K4).
  rewrite G4, (K4 _ _ (K3 _ _ (K2 _ _ (K1 _ _ Hdb)))). simpl.
  intros Hor. rewrite Hor. simpl.
  destruct (alloc shown h4) as [l5 h5] eqn:E5.
  apply alloc_fresh in E5 as (F5 & G5 & K5).
  unfold overlay_header. rewrite G5. simpl.
  assert (Hnew : h !! l5 = None).
  { destruct (h !! l5) as [b|] eqn:Hb; [|reflexivity].
    rewrite (K4 _ _ (K3 _ _ (K2 _ _ (K1 _ _ Hb)))) in F5. discriminate. }
  eexists l5, _, shown. split; [reflexivity|]. split; [reflexivity|].
  split; [exact Hnew|]. split.
  { destruct (chans hdr =? 4); [apply lookup_insert_eq|exact G5]. }
  split.
  { intros l a Hl.
    assert (Hl5 : h5 !! l = Some a)
      by exact (K5 _ _ (K4 _ _ (K3 _ _ (K2 _ _ (K1 _ _ Hl))))).
    destruct (chans hdr =? 4); [|exact Hl5].
    rewrite lookup_insert_ne; [exact Hl5|]. intros <-. congruence. }
  split; [exact Hrule|]. split.
  { intros r c ch Hg. rewrite Hrule.
    destruct (Z.leb_spec (gray_at luminance snap r c) 50); [|lia].
    apply lor_keeps_iff. }
  intros r c ch H0 H1 H2 Hrange Hg. rewrite Hrule.
  destruct (Z.leb_spec (gray_at luminance snap r c) 50); [|lia].
  assert (Hcases : ch = 0 \/ ch = 1 \/ ch = 2) by lia.
  assert (Hz : px snap r c ch = 0).
  { destruct Hcases as [Hc|[Hc|Hc]]; subst ch; assumption. }
  rewrite Hz. apply Z.lor_0_r.
Qed.

End CompositorFacts.

(** ** The lock around the canvas *)

Section LockFacts.

Variable raster : pyval * pyval * pyval * pyval -> option (list pixel_write).
Variable blank : ndarray.

Local Abbreviation whole' := (whole raster blank).
Local Abbreviation lock_inv' := (lock_inv raster blank).

Lemma whole_blank : whole' blank.
Proof. exists []. reflexivity. Qed.

Lemma whole_draw a ws img :
  whole' img -> raster a = Some ws -> whole' (store_all ws img).
Proof.
  intros [calls ->] Ha. exists (calls ++ [a]).
  rewrite fold_left_app. simpl. unfold draw. rewrite Ha. reflexivity.
Qed.

Lemma lock_inv_start : lock_inv' (start blank).
Proof. split; [apply whole_blank|]. simpl. auto using whole_blank. Qed.

Lemma lock_inv_step s s' : lock_inv' s -> lock_step raster s s' -> lock_inv' s'.
Proof.
  intros [Hsnap Hlock] Hstep. unfold lock_inv.
  destruct Hstep as [t a s Hfree Hat|t a todo s Hat Ha|t a s Hat Ha
                    |t w todo s Hat|t s Hat|t s Hat];
    destruct (drawLock s) as [holder|] eqn:Hl;
    try discriminate;
    try (destruct Hlock as (_ & Hd & Hr); destruct t; simpl in *; congruence).
  - (* acquire *)
    destruct Hlock as (Hc & Hd & Hr).
    destruct t; simpl; auto.
  - (* cv2.line starts *)
    destruct Hlock as (Ho & Hset).
    destruct t, holder; simpl in *; try congruence;
      rewrite Hat in Hset; simpl in Hset; rewrite Hl; simpl;
      (split; [assumption|]); (split; [assumption|]);
      eapply whole_draw; eassumption.
  - (* cv2.line raises *)
    destruct Hlock as (Ho & Hset).
    destruct t, holder; simpl in *; try congruence;
      rewrite Hat in Hset; simpl in Hset; rewrite Hl; simpl; auto.
  - (* one pixel *)
    destruct Hlock as (Ho & Hset).
    destruct t, holder; simpl in *; try congruence;
      rewrite Hat in Hset; simpl in Hset; rewrite Hl; simpl; auto.
  - (* publish *)
    destruct Hlock as (Ho & Hset).
    destruct t, holder; simpl in *; try congruence;
      rewrite Hat in Hset; simpl in Hset; rewrite Hl; simpl; auto.
  - (* release *)
    destruct Hlock as (Ho & Hset).
    destruct t, holder; simpl in *; try congruence;
      rewrite Hat in Hset; simpl in Hset; auto.
Qed.

Lemma lock_inv_reachable s :
  rtc (lock_step raster) (start blank) s -> lock_inv' s.
Proof.
  revert s. apply rtc_ind_r.
  - apply lock_inv_start.
  - intros y z _ Hstep IH. eapply lock_inv_step; eassumption.
Qed.

(** A with-block run without interruption is [apply_stroke]: the canvas
    gets the whole line and the snapshot is that canvas. *)
Lemma stores_run t ws s :
  at_ s t = InLine ws ->
  rtc (lock_step raster) s
      (move t (InLine []) (set_canvas (store_all ws (canvas s)) s)).
Proof.
  revert s. induction ws as [|w ws IH]; intros s Hat.
  - destruct s, t; simpl in *; subst; apply rtc_refl.
  - eapply rtc_l; [apply (step_store raster t w ws s Hat)|].
    eapply rtc_trans; [apply IH; destruct t; reflexivity|].
    destruct t; simpl; apply rtc_refl.
Qed.

Lemma critical_section_runs t a ws s :
  drawLock s = None -> at_ s t = Outside -> raster a = Some ws ->
  rtc (lock_step raster) s
      (set_snapshot (store_all ws (canvas s)) (set_canvas (store_all ws (canvas s)) s)).
Proof.
  intros Hfree Hat Ha.
  eapply rtc_l; [apply (step_acquire raster t a s Hfree Hat)|].
  eapply rtc_l; [apply (step_line raster t a ws); [destruct t; reflexivity|exact Ha]|].
  eapply rtc_trans; [apply (stores_run t ws); destruct t; reflexivity|].
  eapply rtc_l; [apply (step_publish raster t); destruct t; reflexivity|].
  eapply rtc_l; [apply (step_release raster t); destruct t; reflexivity|].
  destruct s, t; simpl in *; subst; apply rtc_refl.
Qed.

(** C8.  However the drawing loop and the receive loop interleave, even
    pixel by pixel, the published snapshot is at every moment the blank
    canvas with a sequence of whole strokes applied: no reader sees a
    segment half drawn.  Whoever is inside the with-block (drawing the
    line or publishing the snapshot) holds the lock, and the two loops are
    never inside it together. *)
Theorem snapshot_never_torn s :
  rtc (lock_step raster) (start blank) s ->
  whole raster blank (snapshot s) /\
  (forall t, at_ s t <> Outside -> drawLock s = Some t) /\
  (drawing_at s = Outside \/ receive_at s = Outside).
Proof.
  intros Hr. destruct (lock_inv_reachable s Hr) as [Hsnap Hlock].
  split; [exact Hsnap|].
  destruct (drawLock s) as [holder|].
  - destruct Hlock as (Ho & _). split.
    + intros t Ht. destruct t, holder; simpl in *; congruence.
    + destruct holder; simpl in Ho; auto.
  - destruct Hlock as (_ & Hd & Hr'). split; [|auto].
    intros t Ht. destruct t; simpl in Ht; congruence.
Qed.

End LockFacts.

(** ** Closed sessions

    The theorems above, run on concrete sessions against the library
    doubles. *)

Lemma local_mode_draws_without_network_witness :
  let s := test_session unreachable
             [Frame "1699000000.25" (Some (pointing 300 200));
              Frame "1699000000.75" (Some (pointing 320 210));
              Poll (RecvMessage "{}")] in
  let line := Cv2.line (imgCanvas (self s))
                (PTuple [PInt 320; PInt 210]) (PTuple [PInt 340; PInt 215])
                (PTuple [PInt 86; PInt 48; PInt 189]) (PInt 15) in
  local_mode (self s) = true /\
  io s = refused 3 /\
  send_drawing Json.dumps Cv2.line "1699000001.5" 320 210 340 215 (86, 48, 189) 15
               (self s) (io s) =
    match line with
    | Some img =>
        Returned (set_displayBuffer img (set_imgCanvas img (self s)), refused 3)
    | None => Raised (self s, refused 3)
    end /\
  (* the call returns; the segment from (320, 210) to (340, 215) is blue *)
  option_map (fun img => (px img 212 330 0, px img 212 330 1, px img 212 330 2)) line
    = Some (86, 48, 189) /\
  (* the pink stroke of the frames before is still there *)
  option_map (fun img => (px img 203 305 0, px img 203 305 1, px img 203 305 2)) line
    = Some (189, 189, 103) /\
  (* far from both the canvas is blank *)
  option_map (fun img => (px img 600 1000 0, px img 600 1000 1, px img 600 1000 2)) line
    = Some (0, 0, 0).
Proof.
  cbv zeta.
  destruct (local_mode_draws_without_network unreachable Json.dumps Json.loads Cv2.line
              blank_header blank_header blank_header blank_header
              [Frame "1699000000.25" (Some (pointing 300 200));
               Frame "1699000000.75" (Some (pointing 320 210));
               Poll (RecvMessage "{}")]
              "1699000001.5" 320 210 340 215 86 48 189 15
              (fun n _ => eq_refl)) as (Hl & Hio & Hsend).
  split; [exact Hl|]. split; [exact Hio|]. split; [exact Hsend|].
  split_and!; vm_compute; reflexivity.
Defined.

Lemma connect_to_server_refused_witness :
  let p := new_painter blank_header blank_header blank_header blank_header in
  connect_to_server unreachable p [] =
    (false, set_retry_count (retry_count p + Z.of_nat (budget p)) p,
     [] ++ refused (budget p)) /\
  connect_to_server unreachable p [] = (false, set_retry_count 3 p, [] ++ refused 3).
Proof.
  exact (connect_to_server_refused unreachable
           (new_painter blank_header blank_header blank_header blank_header) []
           blank_header blank_header blank_header blank_header
           (fun n _ => eq_refl)).
Defined.

(** C2 as stated fails.  The endpoint refuses the first handshake of the
    session and accepts the second, so the painter is Connected with
    [retry_count = 1]; from then on the endpoint refuses every handshake.
    The reconnect after a closed connection makes 2 attempts, not 3.  And
    on an object whose counter stands at 3, a call against an endpoint that
    has never accepted anything makes no attempt at all. *)
Lemma reconnect_makes_two_attempts :
  let s := test_session (accepting_only 1) [] in
  let p := set_connected false (self s) in
  let fresh := new_painter blank_header blank_header blank_header blank_header in
  io s = [Handshake false; Backoff 1; Handshake true] /\
  connected (self s) = true /\
  retry_count (self s) = 1 /\
  (forall n, (attempts (io s) <= n)%nat -> accepting_only 1 n = false) /\
  connect_to_server (accepting_only 1) p (io s)
    = (false, set_retry_count 3 p, io s ++ refused 2) /\
  connect_to_server unreachable (set_retry_count 3 fresh) (refused 3)
    = (false, set_retry_count 3 fresh, refused 3).
Proof.
  cbv zeta. split_and!; try (vm_compute; reflexivity).
  intros n Hn. unfold accepting_only. apply Nat.eqb_neq.
  assert (H2 : attempts (io (test_session (accepting_only 1) [])) = 2%nat)
    by (vm_compute; reflexivity).
  rewrite H2 in Hn. lia.
Qed.

Lemma closed_connection_reconnects_witness :
  let s := test_session (accepting_only 0) [] in
  let s' := step (accepting_only 0) Json.dumps Json.loads Cv2.line s (Poll RecvClosed) in
  connect_to_server (accepting_only 0) (set_connected false (self s)) (io s)
    = (connected (self s'), self s', io s') /\
  (attempts (io s) + 1 <= attempts (io s'))%nat /\
  (attempts (io s') + refusals (io s) <= attempts (io s) + 3)%nat /\
  local_mode (self s') = false.
Proof.
  refine (proj2 (closed_connection_reconnects (accepting_only 0) Json.dumps Json.loads
                   Cv2.line blank_header blank_header blank_header blank_header [])
                _ _ (conj _ _)).
  - vm_compute; reflexivity.
  - vm_compute; reflexivity.
  - exists O. vm_compute; reflexivity.
  - vm_compute; reflexivity.
Defined.

(** C3 as stated fails.  The endpoint refuses two handshakes, accepts the
    third and refuses every handshake after it.  The painter is Connected
    with [retry_count = 2].  When the receive loop then finds the
    connection closed, the retry sequence it starts consists of a single
    attempt: the counter reaches 3 and the sequence gives up, although the
    endpoint was tried once and not three times.  From then on the painter
    stays disconnected and the receive loop does nothing. *)
Lemma reconnect_gives_up_after_one_attempt :
  let s := test_session (accepting_only 2) [] in
  let s' := test_session (accepting_only 2) [Poll RecvClosed] in
  let s'' := test_session (accepting_only 2) [Poll RecvClosed; Poll RecvClosed] in
  io s = refused 2 ++ [Handshake true] /\
  connected (self s) = true /\ ws (self s) = Some 2%nat /\
  local_mode (self s) = false /\ receive_task s = true /\
  io s' = io s ++ [Handshake false; Backoff 1] /\
  (attempts (io s') = attempts (io s) + 1)%nat /\
  connected (self s') = false /\
  retry_count (self s') = 3 /\
  io s'' = io s'.
Proof.
  cbv zeta. split_and!; vm_compute; reflexivity.
Qed.

Lemma retry_counter_spans_the_session_witness :
  let s := test_session (accepting_only 1) [Poll RecvClosed] in
  let s' := test_session (accepting_only 1)
              ([Poll RecvClosed] ++ [Frame "1699000000.5" (Some (pointing 300 200))]) in
  retry_count (self s) = 3 /\
  connect_to_server (accepting_only 1) (self s') (io s') = (false, self s', io s').
Proof.
  split; [vm_compute; reflexivity|].
  refine (proj2 (proj2 (proj2 (proj2
    (retry_counter_spans_the_session (accepting_only 1) Json.dumps Json.loads Cv2.line
       blank_header blank_header blank_header blank_header
       [Poll RecvClosed] [Frame "1699000000.5" (Some (pointing 300 200))])))) _ _).
  vm_compute; reflexivity.
Defined.

Lemma malformed_message_is_dropped_witness :
  let s := test_session (accepting_only 0) [] in
  let receive m := receive_iteration (accepting_only 0) Json.loads Cv2.line
                     (RecvMessage m) (self s) (io s) in
  receive "not json" = (self s, io s) /\
  receive (wire_of erase_event) = (self s, io s) /\
  receive (wire_of colourless_event) = (self s, io s).
Proof.
  cbv zeta. split_and!.
  - refine (proj1 (malformed_message_is_dropped (accepting_only 0) Json.loads Cv2.line
                     "not json" _ _) (or_introl _)).
    vm_compute; reflexivity.
  - refine (proj1 (malformed_message_is_dropped (accepting_only 0) Json.loads Cv2.line
                     (wire_of erase_event) _ _)
                  (or_intror (ex_intro _ erase_event (conj _ (or_intror (or_introl
                     (ex_intro _ (PStr "erase") (conj _ _)))))))).
    all: vm_compute; reflexivity.
  - refine (proj1 (malformed_message_is_dropped (accepting_only 0) Json.loads Cv2.line
                     (wire_of colourless_event) _ _)
                  (or_intror (ex_intro _ colourless_event (conj _ (or_intror (or_intror
                     (or_introl (ex_intro _ "color"%string (conj _ _))))))))).
    + vm_compute; reflexivity.
    + simpl. tauto.
    + vm_compute; reflexivity.
Defined.

(** C4 as stated fails.  A connected painter receives a draw event whose
    colour has two components.  The event is not well formed (its colour is
    not a triple), yet [cv2.line] takes the pair as a colour and the stroke
    is applied: canvas and snapshot change. *)
Lemma two_channel_colour_is_drawn :
  let m := wire_of two_channel_event in
  let s := test_session (accepting_only 0) [] in
  let s' := test_session (accepting_only 0) [Poll (RecvMessage m)] in
  is_connected (self s) /\
  Json.loads m = Some two_channel_event /\
  py_getitem two_channel_event "color" = Some (PList [PInt 255; PInt 255]) /\
  px (imgCanvas (self s)) 100 101 0 = 0 /\
  px (imgCanvas (self s')) 100 101 0 = 255 /\
  px (displayBuffer (self s)) 100 101 1 = 0 /\
  px (displayBuffer (self s')) 100 101 1 = 255.
Proof.
  cbv zeta. split_and!; try (vm_compute; reflexivity).
  split; [exists O|]; vm_compute; reflexivity.
Qed.

Lemma codec_round_trip_witness :
  let s := {| st_p1 := (100, 100); st_p2 := (200, 100); st_color := (255, 0, 0);
              st_thickness := 15; st_timestamp := "1699000000.25" |} in
  let b := wire "1699000000.25" 100 100 200 100 (255, 0, 0) 15 in
  encode_stroke Json.dumps s = Some b /\
  decode_stroke Json.loads b = Some s /\
  decode Json.loads b = Some (Some (local_args 100 100 200 100 (255, 0, 0) 15)) /\
  (forall s', decode_stroke Json.loads b = Some s' ->
              encode_stroke Json.dumps s' = Some b).
Proof.
  cbv zeta.
  assert (Henc : encode_stroke Json.dumps
                   {| st_p1 := (100, 100); st_p2 := (200, 100);
                      st_color := (255, 0, 0); st_thickness := 15;
                      st_timestamp := "1699000000.25" |}
                 = Some (wire "1699000000.25" 100 100 200 100 (255, 0, 0) 15))
    by (vm_compute; reflexivity).
  split; [exact Henc|].
  refine (proj1 codec_round_trip Json.dumps Json.loads _ _ Henc _).
  vm_compute; reflexivity.
Defined.

Lemma local_and_remote_strokes_agree_witness :
  let p := self (test_session (accepting_only 0) []) in
  let payload := wire "1699000000.25" 100 100 200 100 (255, 0, 0) 15 in
  let p' := fst (left_behind
                   (send_drawing Json.dumps Cv2.line "1699000000.25"
                      100 100 200 100 (255, 0, 0) 15 p [])) in
  let q' := fst (receive_iteration (accepting_only 0) Json.loads Cv2.line
                   (RecvMessage payload) p []) in
  imgCanvas q' = imgCanvas p' /\ displayBuffer q' = displayBuffer p'.
Proof.
  refine (local_and_remote_strokes_agree (accepting_only 0) Json.dumps Json.loads Cv2.line
            "1699000000.25" 100 100 200 100 (255, 0, 0) 15 _ _ _ [] [] _ _ _ _ _).
  - vm_compute; reflexivity.
  - vm_compute; reflexivity.
  - reflexivity.
  - reflexivity.
  - split; [exists O|]; vm_compute; reflexivity.
Defined.

Lemma compositing_rule_witness :
  exists shown,
    compose Cv2.luma no_scalar_operand grey_frame striped_snapshot = Some shown /\
    (* a pink stroke (gray 166) replaces the live pixel *)
    (px shown 100 150 0, px shown 100 150 1, px shown 100 150 2) = (189, 189, 103) /\
    (* a dark red stroke (gray 12) is OR-ed into it: 100 | 40 = 108 *)
    (px shown 200 150 0, px shown 200 150 1, px shown 200 150 2) = (100, 100, 108) /\
    (* its blue channel shows unchanged, its red channel does not *)
    (px shown 200 150 0 = px grey_frame 200 150 0 <-> 0 = 0) /\
    (px shown 200 150 2 = px grey_frame 200 150 2 <-> 32 = 40) /\
    (* black canvas: the live pixel *)
    px shown 300 150 1 = px grey_frame 300 150 1.
Proof.
  destruct (compositing_rule Cv2.luma (fun _ a => a) no_scalar_operand
              blank_header 0%nat 1%nat
              (<[1%nat := striped_snapshot]> (<[0%nat := grey_frame]> ∅))
              grey_frame striped_snapshot)
    as (out & h' & shown & _ & Hcomp & _ & _ & _ & Hrule & Hsame & Hblack).
  - reflexivity.
  - reflexivity.
  - intros r c ch. simpl. lia.
  - reflexivity.
  - reflexivity.
  - exists shown. split; [exact Hcomp|].
    split; [rewrite !Hrule; reflexivity|].
    split; [rewrite !Hrule; reflexivity|].
    split; [apply (Hsame 200 150 0); vm_compute; discriminate|].
    split; [apply (Hsame 200 150 2); vm_compute; discriminate|].
    apply Hblack; try reflexivity; [lia|vm_compute; discriminate].
Defined.

(** C7 as stated fails.  A peer sends a stroke in the dark red (0, 0, 40);
    the receive path draws it.  At a pixel of that stroke the snapshot's
    gray value is 12, below the threshold, but the composited pixel is not
    the live pixel: over a black live frame its red channel is 40. *)
Lemma dark_stroke_shows_on_the_frame :
  let s := test_session (accepting_only 0) [Poll (RecvMessage (wire_of dark_event))] in
  let snap := displayBuffer (self s) in
  let live := np_zeros 720 1280 3 in
  (px snap 100 150 0, px snap 100 150 1, px snap 100 150 2) = (0, 0, 40) /\
  gray_at Cv2.luma snap 100 150 = 12 /\
  px live 100 150 2 = 0 /\
  option_map (fun shown => px shown 100 150 2)
             (compose Cv2.luma no_scalar_operand live snap) = Some 40.
Proof.
  cbv zeta. split_and!; vm_compute; reflexivity.
Qed.

Lemma half_drawn_reachable :
  rtc (lock_step raster_double) (start (np_zeros 720 1280 3)) half_drawn.
Proof.
  eapply rtc_l.
  { apply (step_acquire raster_double DrawingLoop short_line); reflexivity. }
  eapply rtc_l.
  { apply (step_line raster_double DrawingLoop short_line
             [(0, 0, [0; 0; 255]); (0, 1, [0; 0; 255]); (0, 2, [0; 0; 255])]);
      reflexivity. }
  apply rtc_once.
  apply (step_store raster_double DrawingLoop (0, 0, [0; 0; 255])
           [(0, 1, [0; 0; 255]); (0, 2, [0; 0; 255])]).
  reflexivity.
Qed.

(** While the line is half drawn the canvas and the snapshot differ. *)
Example half_drawn_canvas :
  px (canvas half_drawn) 0 0 2 = 255 /\ px (canvas half_drawn) 0 1 2 = 0 /\
  px (snapshot half_drawn) 0 0 2 = 0.
Proof.
  split_and!; reflexivity.
Qed.

Lemma snapshot_never_torn_witness :
  whole raster_double (np_zeros 720 1280 3) (snapshot half_drawn) /\
  (forall t, at_ half_drawn t <> Outside -> drawLock half_drawn = Some t) /\
  (drawing_at half_drawn = Outside \/ receive_at half_drawn = Outside).
Proof.
  exact (snapshot_never_torn raster_double (np_zeros 720 1280 3) half_drawn
           half_drawn_reachable).
Defined.

(** ** What a whole session keeps *)

Lemma dispatched_app t u : dispatched (t ++ u) = dispatched t ++ dispatched u.
Proof.
  induction t as [|e t IH]; simpl; [reflexivity|].
  destruct e; simpl; rewrite IH; reflexivity.
Qed.

Lemma accepted_app t u : accepted (t ++ u) = (accepted t + accepted u)%nat.
Proof.
  induction t as [|e t IH]; simpl; [reflexivity|].
  destruct e as [[]| | |]; simpl; rewrite IH; reflexivity.
Qed.

Lemma closes_app t u : closes (t ++ u) = (closes t + closes u)%nat.
Proof.
  induction t as [|e t IH]; simpl; [reflexivity|].
  destruct e; simpl; rewrite IH; reflexivity.
Qed.

Lemma dispatched_refused k : dispatched (refused k) = [].
Proof. induction k; simpl; auto. Qed.

Lemma accepted_refused k : accepted (refused k) = O.
Proof. induction k; simpl; auto. Qed.

Lemma closes_refused k : closes (refused k) = O.
Proof. induction k; simpl; auto. Qed.

Section WholeSessions.

Variable endpoint : nat -> bool.
Variable json_dumps : pyval -> option string.
Variable json_loads : string -> option pyval.
Variable cv2_line : ndarray -> pyval -> pyval -> pyval -> pyval -> option ndarray.

Local Abbreviation send_drawing' := (send_drawing json_dumps cv2_line).
Local Abbreviation frame_step' := (frame_step json_dumps cv2_line).
Local Abbreviation receive_iteration' := (receive_iteration endpoint json_loads cv2_line).
Local Abbreviation step' := (step endpoint json_dumps json_loads cv2_line).
Local Abbreviation session_after' := (session_after endpoint json_dumps json_loads cv2_line).

(** The three ways [send_drawing] ends once the line is drawn, and the one
    way it ends when [cv2.line] raises. *)
Lemma send_drawing_cases now x1 y1 x2 y2 color thickness p t :
  match draw_line cv2_line (local_args x1 y1 x2 y2 color thickness) (imgCanvas p) with
  | None => send_drawing' now x1 y1 x2 y2 color thickness p t = Raised (p, t)
  | Some img =>
      let p1 := set_displayBuffer img (set_imgCanvas img p) in
      if negb (local_mode p) && bool_decide (is_Some (ws p)) && connected p then
        match encode json_dumps now x1 y1 x2 y2 color thickness with
        | Some payload =>
            send_drawing' now x1 y1 x2 y2 color thickness p t
            = Returned (p1, t ++ [Dispatch payload])
        | None =>
            send_drawing' now x1 y1 x2 y2 color thickness p t
            = Returned (set_connected false p1, t)
        end
      else send_drawing' now x1 y1 x2 y2 color thickness p t = Returned (p1, t)
  end.
Proof using Type.
  unfold send_drawing, apply_stroke.
  destruct (draw_line cv2_line _ (imgCanvas p)) as [img|]; simpl; [|reflexivity].
  destruct (negb (local_mode p) && bool_decide (is_Some (ws p)) && connected p);
    [|reflexivity].
  destruct (encode json_dumps now x1 y1 x2 y2 color thickness); reflexivity.
Qed.

(** The painter that a connection sequence returns is the one it was given
    with a new socket, flag and counter. *)
Lemma connect_to_server_painter p t :
  exists k c b,
    snd (fst (connect_to_server endpoint p t))
    = set_connected b (set_ws c (set_retry_count k p)) /\
    (b = connected p \/ b = true) /\
    snd (connect_to_server endpoint p t) = t ++ refused (Z.to_nat (k - retry_count p))
      ++ (if fst (fst (connect_to_server endpoint p t)) then [Handshake true] else []) /\
    retry_count p <= k /\
    (fst (fst (connect_to_server endpoint p t)) = true -> is_Some c /\ b = true) /\
    (fst (fst (connect_to_server endpoint p t)) = false -> c = ws p /\ b = connected p).
Proof using Type.
  destruct (connect_to_server_spec endpoint p t)
    as (k & Hk & _ & [(Hlt & _ & ->)|(-> & ->)]); simpl.
  - exists (retry_count p + Z.of_nat k), (Some (attempts t + k)%nat), true.
    split; [reflexivity|]. split; [auto|]. split.
    { replace (retry_count p + Z.of_nat k - retry_count p) with (Z.of_nat k) by lia.
      rewrite Nat2Z.id. reflexivity. }
    split; [lia|]. split; [eauto|discriminate].
  - exists (retry_count p + Z.of_nat (budget p)), (ws p), (connected p).
    split; [destruct p; reflexivity|]. split; [auto|]. split.
    { replace (retry_count p + Z.of_nat (budget p) - retry_count p)
        with (Z.of_nat (budget p)) by lia.
      rewrite Nat2Z.id, app_nil_r. reflexivity. }
    split; [lia|]. split; [discriminate|auto].
Qed.

(** What one pass of the hand-tracking part does to the object and the
    trace, whether it returns or raises. *)
Lemma frame_step_effect now hand p t :
  let '(p', t') := left_behind (frame_step' now hand p t) in
  (* set once by the constructor *)
  (brushThickness p' = brushThickness p /\ eraserThickness p' = eraserThickness p /\
   header_pink p' = header_pink p /\ header_blue p' = header_blue p /\
   header_green p' = header_green p /\ header_eraser p' = header_eraser p) /\
  (* the brush *)
  (exists q, (q = p \/ exists x, q = update_current_brush x p) /\
     current_brush p' = current_brush q /\ drawColor p' = drawColor q /\
     current_header p' = current_header q) /\
  (* the canvas and the snapshot *)
  (imgCanvas p' = imgCanvas p /\ displayBuffer p' = displayBuffer p \/
   exists x0 y0 x y img,
     draw_line cv2_line (local_args x0 y0 x y (drawColor p) (stroke_thickness p))
               (imgCanvas p) = Some img /\
     imgCanvas p' = img /\ displayBuffer p' = img) /\
  (* the trace *)
  (t' = t \/
   exists x0 y0 x y payload,
     encode json_dumps now x0 y0 x y (drawColor p) (stroke_thickness p) = Some payload /\
     t' = t ++ [Dispatch payload]).
Proof using Type.
  unfold frame_step. destruct hand as [g|]; simpl.
  2:{ split_and!; eauto 10. }
  destruct (index_tip g) as [x1 y1].
  destruct (index_up g), (middle_up g); simpl.
  - destruct (y1 <? 125).
    + split; [|split; [|split]]; auto.
      * unfold update_current_brush.
        repeat match goal with |- context [if ?b then _ else _] => destruct b end;
          simpl; auto 10.
      * exists (update_current_brush x1 p). split; [eauto|].
        unfold update_current_brush.
        repeat match goal with |- context [if ?b then _ else _] => destruct b end;
          simpl; auto.
      * left. unfold update_current_brush.
        repeat match goal with |- context [if ?b then _ else _] => destruct b end;
          simpl; auto.
    + split_and!; simpl; eauto 10.
  - set (p1 := if negb (is_drawing p) then _ else p).
    assert (H1 : brushThickness p1 = brushThickness p /\
                 eraserThickness p1 = eraserThickness p /\
                 header_pink p1 = header_pink p /\ header_blue p1 = header_blue p /\
                 header_green p1 = header_green p /\ header_eraser p1 = header_eraser p /\
                 current_brush p1 = current_brush p /\ drawColor p1 = drawColor p /\
                 current_header p1 = current_header p /\
                 imgCanvas p1 = imgCanvas p /\ displayBuffer p1 = displayBuffer p).
    { subst p1. destruct (negb (is_drawing p)); simpl; auto 20. }
    destruct H1 as (E1 & E2 & E3 & E4 & E5 & E6 & E7 & E8 & E9 & E10 & E11).
    assert (Hth : (if String.eqb (current_brush p1) "eraser"
                   then eraserThickness p1 else brushThickness p1) = stroke_thickness p).
    { unfold stroke_thickness. rewrite E7, E1, E2. reflexivity. }
    rewrite Hth, E8.
    pose proof (send_drawing_cases now (xp p1) (yp p1) x1 y1 (drawColor p)
                  (stroke_thickness p) p1 t) as Hs.
    rewrite E10 in Hs.
    destruct (draw_line cv2_line _ (imgCanvas p)) as [img|] eqn:Hl.
    + cbv zeta in Hs.
      destruct (negb (local_mode p1) && bool_decide (is_Some (ws p1)) && connected p1).
      * destruct (encode json_dumps now (xp p1) (yp p1) x1 y1 (drawColor p)
                    (stroke_thickness p)) as [payload|] eqn:He;
          rewrite Hs; simpl; split_and!; eauto 12.
      * rewrite Hs; simpl. split_and!; eauto 12.
    + rewrite Hs. simpl. split_and!; eauto 12.
  - split_and!; simpl; eauto 10.
  - split_and!; simpl; eauto 10.
Qed.

(** What one pass of the receive loop does. *)
Lemma receive_iteration_effect o p t :
  let '(p', t') := receive_iteration' o p t in
  (brushThickness p' = brushThickness p /\ eraserThickness p' = eraserThickness p /\
   header_pink p' = header_pink p /\ header_blue p' = header_blue p /\
   header_green p' = header_green p /\ header_eraser p' = header_eraser p) /\
  (current_brush p' = current_brush p /\ drawColor p' = drawColor p /\
   current_header p' = current_header p) /\
  (xp p' = xp p /\ yp p' = yp p /\ is_drawing p' = is_drawing p) /\
  (running p' = running p /\ local_mode p' = local_mode p /\
   max_retries p' = max_retries p) /\
  (imgCanvas p' = imgCanvas p /\ displayBuffer p' = displayBuffer p \/
   exists m a img,
     o = RecvMessage m /\
     draw_line cv2_line a (imgCanvas p) = Some img /\
     imgCanvas p' = img /\ displayBuffer p' = img) /\
  (t' = t /\ ws p' = ws p /\ connected p' = connected p /\
   retry_count p' = retry_count p \/
   o = RecvClosed /\ is_connected p /\
   connect_to_server endpoint (set_connected false p) t
     = (connected p', p', t')).
Proof using Type.
  unfold receive_iteration.
  destruct (bool_decide (is_Some (ws p))) eqn:Hws; simpl; [|split_and!; auto].
  destruct (connected p) eqn:Hcn; simpl; [|split_and!; auto].
  apply bool_decide_eq_true in Hws.
  destruct o as [|m| |]; try (split_and!; auto; fail).
  - unfold on_message.
    destruct (decode json_loads m) as [[a|]|]; try (split_and!; auto; fail).
    destruct (apply_stroke cv2_line a p) as [p'|] eqn:Hs; simpl;
      [|split_and!; auto].
    apply apply_stroke_fields in Hs as (img & Hl & ->). simpl.
    split_and!; eauto 10.
  - destruct (connect_to_server_spec endpoint (set_connected false p) t)
      as (k & _ & _ & [(_ & _ & H)|(_ & H)]); rewrite H; simpl;
      (split_and!; auto; right; split_and!; auto; split; auto).
Qed.

Local Abbreviation session_facts' := (session_facts endpoint json_dumps cv2_line).

Lemma brush_in_palette hp hb hg he p :
  brushThickness p = 15 -> eraserThickness p = 50 ->
  In (current_brush p, drawColor p, current_header p)
     [("pink", (189, 189, 103), hp); ("blue", (86, 48, 189), hb);
      ("green", (17, 141, 255), hg); ("eraser", (0, 0, 0), he)]%string ->
  In (current_brush p, drawColor p, stroke_thickness p) palette.
Proof using Type.
  intros H15 H50 Hin. unfold stroke_thickness, palette. rewrite H15, H50.
  simpl in Hin.
  destruct Hin as [H|[H|[H|[H|[]]]]]; injection H as <- <- _; simpl; auto.
Qed.

Lemma update_current_brush_in_table hp hb hg he x p :
  header_pink p = hp -> header_blue p = hb ->
  header_green p = hg -> header_eraser p = he ->
  In (current_brush p, drawColor p, current_header p)
     [("pink", (189, 189, 103), hp); ("blue", (86, 48, 189), hb);
      ("green", (17, 141, 255), hg); ("eraser", (0, 0, 0), he)]%string ->
  In (current_brush (update_current_brush x p), drawColor (update_current_brush x p),
      current_header (update_current_brush x p))
     [("pink", (189, 189, 103), hp); ("blue", (86, 48, 189), hb);
      ("green", (17, 141, 255), hg); ("eraser", (0, 0, 0), he)]%string.
Proof using Type.
  intros <- <- <- <- Hin. unfold update_current_brush.
  repeat match goal with |- context [if ?b then _ else _] => destruct b end;
    simpl; auto.
Qed.

Lemma drawn_snoc calls a img img' img'' :
  drawn cv2_line calls img = Some img' ->
  draw_line cv2_line a img' = Some img'' ->
  drawn cv2_line (calls ++ [a]) img = Some img''.
Proof using Type.
  unfold drawn. intros H1 H2. rewrite fold_left_app, H1. exact H2.
Qed.

Lemma run_start_facts hp hb hg he :
  session_facts' hp hb hg he (run_start endpoint (new_painter hp hb hg he) []).
Proof using Type.
  unfold run_start.
  destruct (connect_to_server_spec endpoint (new_painter hp hb hg he) [])
    as (k & Hk & Href & [(Hlt & Hacc & ->)|(Hk' & ->)]);
    change (budget (new_painter hp hb hg he)) with 3%nat in *; simpl in *.
  - constructor; simpl; auto.
    + exists []. reflexivity.
    + rewrite dispatched_app, dispatched_refused. constructor.
    + rewrite accepted_app, accepted_refused. simpl. split; [lia|eauto].
    + rewrite closes_app, closes_refused. auto.
    + destruct k as [|[|[|k]]]; try lia.
      * rewrite Hacc. reflexivity.
      * rewrite (Href 0%nat) by lia. rewrite Hacc. reflexivity.
      * rewrite (Href 0%nat), (Href 1%nat) by lia. rewrite Hacc. reflexivity.
  - subst k. constructor; simpl; auto.
    + exists []. reflexivity.
    + split; [intros [? [=]]|congruence].
    + discriminate.
    + rewrite (Href 0%nat), (Href 1%nat), (Href 2%nat) by lia. reflexivity.
Qed.

Lemma cleanup_facts hp hb hg he s :
  in_main_loop s = true ->
  session_facts' hp hb hg he s -> session_facts' hp hb hg he (cleanup s).
Proof using Type.
  intros Hloop [F1 F2 F3 F4 F5 F6 F7 FC F8 F9]. rewrite Hloop in F8.
  destruct F8 as [Hrun Hcl]. unfold cleanup.
  constructor; simpl; auto.
  - destruct (bool_decide _); [rewrite dispatched_app, app_nil_r|]; exact F6.
  - destruct (bool_decide _); [rewrite accepted_app; simpl; rewrite Nat.add_0_r|];
      exact F7.
  - split; [reflexivity|].
    destruct (ws (self s)) as [c|] eqn:Hws.
    + rewrite bool_decide_eq_true_2 by eauto.
      rewrite closes_app, Hcl. reflexivity.
    + rewrite no_socket. exact Hcl.
Qed.

Lemma step_facts hp hb hg he s e :
  session_facts' hp hb hg he s -> session_facts' hp hb hg he (step' s e).
Proof using Type.
  intros Hs. destruct e as [now hand| | |o]; simpl.
  - destruct (in_main_loop s) eqn:Hloop; simpl; [|exact Hs].
    destruct (spinning s); simpl; [exact Hs|].
    assert (Hframe : let '(p', t') := left_behind (frame_step' now hand (self s) (io s)) in
              session_facts' hp hb hg he
                {| self := p'; io := t'; receive_task := receive_task s;
                   in_main_loop := true; receive_loop := receive_loop s |}).
    { pose proof (frame_step_effect now hand (self s) (io s)) as He.
      pose proof (frame_step_drawing_only json_dumps cv2_line now hand (self s) (io s))
        as Hd.
      destruct (left_behind (frame_step' now hand (self s) (io s))) as [p' t'].
      destruct He as ((E1 & E2 & E3 & E4 & E5 & E6) & (q & Hq & B1 & B2 & B3) & Hc & Ht).
      destruct Hd as [K1 K2 K3 K4 K5 K6 K7 K8 K9].
      destruct Hs as [F1 F2 F3 F4 F5 F6 F7 FC F8 F9]. rewrite Hloop in F8.
      destruct F1 as [F1a F1b]. destruct F2 as (F2a & F2b & F2c & F2d).
      assert (Hpal : In (current_brush (self s), drawColor (self s),
                         stroke_thickness (self s)) palette)
        by (eapply brush_in_palette; eassumption).
      constructor; simpl.
      - split; congruence.
      - split_and!; congruence.
      - rewrite B1, B2, B3. destruct Hq as [->|[x ->]]; [exact F3|].
        apply update_current_brush_in_table; assumption.
      - destruct Hc as [[-> ->]|(x0 & y0 & x & y & img & _ & -> & ->)];
          [exact F4|reflexivity].
      - destruct F5 as [calls Hcalls].
        destruct Hc as [[-> _]|(x0 & y0 & x & y & img & Hl & -> & _)];
          [eauto|].
        eexists. eapply drawn_snoc; eassumption.
      - destruct Ht as [->|(x0 & y0 & x & y & payload & Henc & ->)]; [exact F6|].
        rewrite dispatched_app. apply Forall_app. split; [exact F6|].
        constructor; [|constructor].
        exists now, x0, y0, x, y, (current_brush (self s)), (drawColor (self s)),
               (stroke_thickness (self s)).
        split; [exact Hpal|exact Henc].
      - rewrite K3.
        destruct Ht as [->|(x0 & y0 & x & y & payload & _ & ->)]; [exact F7|].
        rewrite accepted_app. simpl. rewrite Nat.add_0_r. exact F7.
      - rewrite K3. auto.
      - rewrite K5. split; [tauto|].
        destruct Ht as [->|(x0 & y0 & x & y & payload & _ & ->)]; [tauto|].
        rewrite closes_app. simpl. lia.
      - rewrite K4. exact F9. }
    destruct (frame_step' now hand (self s) (io s)) as [[p t]|[p t]]; simpl in Hframe.
    + exact Hframe.
    + apply cleanup_facts; [reflexivity|exact Hframe].
  - destruct (in_main_loop s) eqn:Hloop; simpl; [|exact Hs].
    destruct (spinning s); simpl; [exact Hs|]. apply cleanup_facts; assumption.
  - destruct (in_main_loop s) eqn:Hloop; simpl; [|exact Hs].
    destruct (spinning s); simpl; [exact Hs|]. apply cleanup_facts; assumption.
  - destruct (receive_task s && awaiting s) eqn:Hg; [|exact Hs].
    pose proof (receive_iteration_effect o (self s) (io s)) as He.
    destruct (receive_iteration' o (self s) (io s)) as [p' t'].
    destruct He as ((E1 & E2 & E3 & E4 & E5 & E6) & (B1 & B2 & B3) & _ &
                    (R1 & R2 & R3) & Hc & Ht).
    destruct Hs as [F1 F2 F3 F4 F5 F6 F7 FC F8 F9].
    destruct F1 as [F1a F1b]. destruct F2 as (F2a & F2b & F2c & F2d).
    assert (Htrace : dispatched t' = dispatched (io s) /\ closes t' = closes (io s) /\
                     (is_Some (ws p') <-> accepted t' <> O) /\
                     (connected p' = true -> is_Some (ws p')) /\
                     (is_Some (ws p') <-> is_Some (ws (self s)))).
    { destruct Ht as [(-> & -> & -> & _)|(_ & [Hws _] & Hconn)]; [tauto|].
      destruct (connect_to_server_spec endpoint (set_connected false (self s)) (io s))
        as (k & _ & _ & [(_ & _ & H)|(_ & H)]); rewrite H in Hconn;
        injection Hconn as _ <- <-; simpl;
        rewrite ?dispatched_app, ?closes_app, ?accepted_app,
                ?dispatched_refused, ?closes_refused, ?accepted_refused; simpl;
        rewrite ?app_nil_r, ?Nat.add_0_r.
      - split_and!; auto; [split; [lia|eauto]|split; eauto].
      - split_and!; auto; tauto. }
    destruct Htrace as (Hd & Hc' & Hsock & Hconn & Hsame).
    constructor; simpl.
    + split; congruence.
    + split_and!; congruence.
    + rewrite B1, B2, B3. exact F3.
    + destruct Hc as [[-> ->]|(m & a & img & _ & _ & -> & ->)];
        [exact F4|reflexivity].
    + destruct F5 as [calls Hcalls].
      destruct Hc as [[-> _]|(m & a & img & _ & Hl & -> & _)]; [eauto|].
      eexists. eapply drawn_snoc; eassumption.
    + rewrite Hd. exact F6.
    + exact Hsock.
    + exact Hconn.
    + rewrite R1, Hc'. destruct (in_main_loop s); [exact F8|].
      destruct F8 as [Hrun F8]. split; [exact Hrun|].
      destruct (ws p') as [c'|], (ws (self s)) as [c|]; try exact F8.
      * destruct Hsame as [Hsame _]. destruct Hsame as [? [=]]. eauto.
      * destruct Hsame as [_ Hsame]. destruct Hsame as [? [=]]. eauto.
    + rewrite R2. exact F9.
Qed.

Lemma session_after_facts hp hb hg he events :
  session_facts' hp hb hg he (session_after' hp hb hg he events).
Proof using Type.
  induction events as [|e events IH] using rev_ind.
  - apply run_start_facts.
  - rewrite session_after_app. simpl. apply step_facts, IH.
Qed.

Lemma session_brush_in_palette hp hb hg he events :
  let p := self (session_after' hp hb hg he events) in
  In (current_brush p, drawColor p, stroke_thickness p) palette.
Proof using Type.
  intros p. destruct (session_after_facts hp hb hg he events)
    as [[F1a F1b] _ F3 _ _ _ _ _ _ _].
  eapply brush_in_palette; eassumption.
Qed.

End WholeSessions.

Section SessionProperties.

Variable endpoint : nat -> bool.
Variable json_dumps : pyval -> option string.
Variable json_loads : string -> option pyval.
Variable cv2_line : ndarray -> pyval -> pyval -> pyval -> pyval -> option ndarray.

Local Abbreviation frame_step' := (frame_step json_dumps cv2_line).
Local Abbreviation step' := (step endpoint json_dumps json_loads cv2_line).
Local Abbreviation session_after' := (session_after endpoint json_dumps json_loads cv2_line).
Local Abbreviation facts' := (session_after_facts endpoint json_dumps json_loads cv2_line).

(** X1.  Brush, colour, thickness and header never drift apart.  At every
    moment of every session the brush name, the drawing colour and the
    thickness the next stroke gets form one row of the brush table (pink,
    blue and green with thickness 15, the eraser black with thickness 50),
    the header shown is the image of that brush, and the four header images
    are the ones the constructor loaded. *)
Theorem brush_matches_the_table hp hb hg he events :
  let p := self (session_after' hp hb hg he events) in
  In (current_brush p, drawColor p, stroke_thickness p) palette /\
  current_header p = header_of p (current_brush p) /\
  (header_pink p, header_blue p, header_green p, header_eraser p) = (hp, hb, hg, he).
Proof using Type.
  intros p. destruct (facts' hp hb hg he events)
    as [[F1a F1b] (F2a & F2b & F2c & F2d) F3 _ _ _ _ _ _ _].
  fold p in F1a, F1b, F2a, F2b, F2c, F2d, F3.
  split; [eapply brush_in_palette; eassumption|].
  split; [|congruence].
  unfold header_of. rewrite F2a, F2b, F2c, F2d. simpl in F3.
  destruct F3 as [H|[H|[H|[H|[]]]]]; injection H as <- _ <-; reflexivity.
Qed.

(** X2.  Everything a session hands to the socket is a draw event of one of the
    four brushes: the encoding of a record with the colour and the
    thickness of a row of the brush table. *)
Theorem dispatched_payloads_are_brush_strokes hp hb hg he events payload :
  In payload (dispatched (io (session_after' hp hb hg he events))) ->
  exists now x1 y1 x2 y2 name color thickness,
    In (name, color, thickness) palette /\
    encode json_dumps now x1 y1 x2 y2 color thickness = Some payload.
Proof using Type.
  intros Hin. destruct (facts' hp hb hg he events) as [_ _ _ _ _ F6 _ _ _ _].
  rewrite Forall_forall in F6. apply F6, list_elem_of_In, Hin.
Qed.


(** Once [run] has left its loop and [receive_drawings] has returned,
    nothing happens any more. *)
Lemma finished_session_is_final s more :
  in_main_loop s = false -> awaiting s = false ->
  fold_left step' more s = s.
Proof using Type.
  intros Hloop Haw. induction more as [|e more IH]; simpl; [reflexivity|].
  replace (step' s e) with s; [exact IH|].
  destruct e as [now hand| | |o]; simpl; rewrite ?Hloop, ?Haw, ?andb_false_r;
    reflexivity.
Qed.

(** X4.  [close] is called at most once, on the way out, and the socket
    it closes need not be the last one.  The painter holds a socket
    exactly when a handshake was accepted at some time (the attribute is
    never cleared, also not when the connection is lost); while [run] is
    in its loop nothing has been closed and [running] is on; once [run]
    has left the loop, [running] is off and [close] has been called
    exactly once if there ever was a socket, and not at all otherwise.
    The call does not end the connection for good: when the pass of the
    receive loop that is suspended in [recv] during [cleanup] finds the
    connection closed while the painter is marked connected, it runs
    [connect_to_server], and against an endpoint that accepts the
    handshake the painter is connected again, over a new socket; then
    [receive_drawings] returns, nothing else runs, and nothing closes
    that socket. *)
Theorem close_is_called_at_most_once hp hb hg he events :
  let s := session_after endpoint json_dumps json_loads cv2_line hp hb hg he events in
  (is_Some (ws (self s)) <-> accepted (io s) <> O) /\
  (closes (io s) <= 1)%nat /\
  (in_main_loop s = true -> running (self s) = true /\ closes (io s) = O) /\
  (in_main_loop s = false ->
   running (self s) = false /\ (closes (io s) = 1%nat <-> accepted (io s) <> O)) /\
  (in_main_loop s = false -> receive_task s = true -> awaiting s = true ->
   connected (self s) = true -> endpoint (attempts (io s)) = true ->
   let s' := step endpoint json_dumps json_loads cv2_line s (Poll RecvClosed) in
   io s' = io s ++ [Handshake true] /\
   ws (self s') = Some (attempts (io s)) /\ connected (self s') = true /\
   closes (io s) = 1%nat /\ closes (io s') = 1%nat /\
   forall more,
     fold_left (step endpoint json_dumps json_loads cv2_line) more s' = s').
Proof using Type.
  intros s. destruct (facts' hp hb hg he events) as [_ _ _ _ _ _ F7 FC F8 _].
  destruct (session_after_inv endpoint json_dumps json_loads cv2_line hp hb hg he events)
    as [H1 _ _ H4 _ _].
  fold s in F7, FC, F8, H1, H4. split; [exact F7|].
  assert (Hleft : in_main_loop s = false ->
            running (self s) = false /\
            (closes (io s) = 1%nat <-> accepted (io s) <> O)).
  { intros Hloop. rewrite Hloop in F8. destruct F8 as [Hrun Hcl].
    split; [exact Hrun|].
    destruct (ws (self s)) as [c|] eqn:Hws.
    - assert (Hacc : accepted (io s) <> O) by (apply F7; eauto). tauto.
    - assert (Hacc : accepted (io s) = O).
      { destruct (accepted (io s)) eqn:E; [reflexivity|].
        destruct F7 as [_ F7]. destruct F7 as [c [=]]. lia. }
      lia. }
  split.
  { destruct (in_main_loop s).
    - destruct F8 as [_ Hcl]. lia.
    - destruct F8 as [_ Hcl]. destruct (ws (self s)); lia. }
  split.
  { intros Hloop. rewrite Hloop in F8. exact F8. }
  split; [exact Hleft|].
  intros Hloop Hrt Haw Hcn Hacc s'.
  destruct (Hleft Hloop) as [Hrun Hcl].
  pose proof (FC Hcn) as Hws. specialize (H4 Hcn).
  assert (Hone : closes (io s) = 1%nat) by (apply Hcl, F7, Hws).
  assert (Hs' : s' = {| self := set_connected true
                                  (set_ws (Some (attempts (io s)))
                                     (set_connected false (self s)));
                        io := io s ++ [Handshake true];
                        receive_task := true; in_main_loop := false;
                        receive_loop := Finished |}).
  { subst s'. simpl. rewrite Hrt, Haw. simpl. unfold receive_iteration.
    rewrite (bool_decide_eq_true_2 _ Hws), Hcn. simpl.
    destruct (connect_to_server_spec endpoint (set_connected false (self s)) (io s))
      as (k & Hk & Href & [(Hlt & _ & ->)|(-> & _)]).
    - destruct k as [|k].
      + simpl. rewrite Nat.add_0_r, Z.add_0_r, Hloop, Hrun. simpl.
        rewrite set_retry_count_same by reflexivity. reflexivity.
      + assert (E : endpoint (attempts (io s) + 0) = false) by (apply Href; lia).
        rewrite Nat.add_0_r in E. congruence.
    - assert (E : endpoint (attempts (io s) + 0) = false)
        by (apply Href; unfold budget; simpl; lia).
      rewrite Nat.add_0_r in E. congruence. }
  rewrite Hs'. simpl. rewrite closes_app, Hone. simpl.
  split_and!; try reflexivity.
  intros more. apply finished_session_is_final; reflexivity.
Qed.

(** X5.  A connected painter has what it needs.  Whenever [connected] is on in
    a session, the painter holds a socket, is not in local mode, has a
    receive task, and has part of its retry budget left. *)
Theorem connected_painter_holds_a_socket hp hb hg he events :
  let s := session_after endpoint json_dumps json_loads cv2_line hp hb hg he events in
  connected (self s) = true ->
  is_connected (self s) /\ local_mode (self s) = false /\
  receive_task s = true /\ retry_count (self s) < max_retries (self s).
Proof using Type.
  intros s Hc. unfold is_connected. destruct (facts' hp hb hg he events) as [_ _ _ _ _ _ _ FC _ _].
  destruct (session_after_inv endpoint json_dumps json_loads cv2_line hp hb hg he events)
    as [H1 _ _ H4 H5 H6].
  fold s in FC, H1, H4, H5, H6. specialize (FC Hc). specialize (H4 Hc).
  assert (Hl : local_mode (self s) = false).
  { destruct (local_mode (self s)); [|reflexivity].
    rewrite (H6 eq_refl) in FC. destruct FC as [? [=]]. }
  split; [split; [exact FC|exact Hc]|]. split; [exact Hl|].
  split; [rewrite H5, Hl; reflexivity|lia].
Qed.

(** X6.  The mode of a session is decided by the first three handshakes and by
    nothing else: it is local exactly when the endpoint refuses all three,
    and the receive task exists exactly when it accepts one of them. *)
Theorem mode_is_decided_at_the_start hp hb hg he events :
  let s := session_after endpoint json_dumps json_loads cv2_line hp hb hg he events in
  local_mode (self s) = negb (endpoint 0 || endpoint 1 || endpoint 2)%nat /\
  receive_task s = (endpoint 0 || endpoint 1 || endpoint 2)%nat.
Proof using Type.
  intros s. destruct (facts' hp hb hg he events) as [_ _ _ _ _ _ _ _ _ F9].
  destruct (session_after_inv endpoint json_dumps json_loads cv2_line hp hb hg he events)
    as [_ _ _ _ H5 _].
  fold s in F9, H5. split; [exact F9|].
  rewrite H5, F9. apply negb_involutive.
Qed.




(** A receive loop that spins leaves nothing else to run. *)
Lemma spinning_session_is_final s more :
  spinning s = true -> fold_left step' more s = s.
Proof using Type.
  intros Hsp. induction more as [|e more IH]; simpl; [reflexivity|].
  replace (step' s e) with s; [exact IH|].
  assert (Haw : awaiting s = false)
    by (unfold spinning, awaiting in *; destruct (receive_loop s); congruence).
  destruct e as [now hand| | |o]; simpl; rewrite ?Hsp, ?Haw, ?andb_false_r;
    reflexivity.
Qed.

(** X23.  A connection lost for good stops the program.  When a pass of the
    receive loop finds the connection closed and the reconnection fails,
    the painter is left disconnected with [running] on.  The next time the
    receive task is scheduled, the guard [self.ws and self.connected] of
    its loop is false, and the loop has no [await] outside that guard: it
    goes round without ever yielding.  From then on nothing changes: no
    frame is processed, the quit key is not seen, [run] never leaves its
    loop, and [cleanup] never closes the socket. *)
Theorem lost_connection_stops_the_program hp hb hg he events o more :
  let s := session_after endpoint json_dumps json_loads cv2_line hp hb hg he events in
  receive_task s = true -> running (self s) = true -> is_connected (self s) ->
  let s1 := step endpoint json_dumps json_loads cv2_line s (Poll RecvClosed) in
  connected (self s1) = false ->
  let s2 := step endpoint json_dumps json_loads cv2_line s1 (Poll o) in
  spinning s2 = true /\ self s2 = self s1 /\ io s2 = io s1 /\
  in_main_loop s2 = true /\ running (self s2) = true /\ closes (io s2) = O /\
  fold_left (step endpoint json_dumps json_loads cv2_line) more s2 = s2.
Proof using Type.
  intros s Hrt Hrun Hconn s1 Hlost s2.
  pose proof (session_after_awaiting endpoint json_dumps json_loads cv2_line
                hp hb hg he events Hrun Hconn) as Haw. fold s in Haw.
  destruct (facts' hp hb hg he events) as [_ _ _ _ _ _ _ _ F8 _]. fold s in F8.
  assert (Hloop : in_main_loop s = true).
  { destruct (in_main_loop s); [reflexivity|]. destruct F8 as [F8 _]. congruence. }
  rewrite Hloop in F8. destruct F8 as [_ Hcl].
  destruct Hconn as [Hws Hcn].
  pose proof (receive_iteration_effect endpoint json_loads cv2_line RecvClosed
                (self s) (io s)) as He.
  assert (Hs1 : exists p1 t1,
            s1 = {| self := p1; io := t1; receive_task := true;
                    in_main_loop := true; receive_loop := Awaiting |} /\
            running p1 = true /\ closes t1 = O).
  { subst s1. simpl. rewrite Hrt, Haw. simpl.
    destruct (receive_iteration endpoint json_loads cv2_line RecvClosed (self s) (io s))
      as [p1 t1].
    destruct He as (_ & _ & _ & (R1 & _) & _ & Ht).
    exists p1, t1. rewrite R1, Hrun, Hloop, (bool_decide_eq_true_2 _ Hws), Hcn. simpl.
    split; [reflexivity|]. split; [reflexivity|].
    destruct Ht as [(-> & _)|(_ & _ & Hc)]; [exact Hcl|].
    destruct (connect_to_server_spec endpoint (set_connected false (self s)) (io s))
      as (k & _ & _ & [(_ & _ & H)|(_ & H)]); rewrite H in Hc;
      injection Hc as _ _ <-;
      rewrite ?closes_app, ?closes_refused, Hcl; reflexivity. }
  destruct Hs1 as (p1 & t1 & Hs1 & Hrun1 & Hcl1).
  assert (Hs2 : s2 = {| self := p1; io := t1; receive_task := true;
                        in_main_loop := true; receive_loop := Spinning |}).
  { subst s2. rewrite Hs1 in Hlost |- *. simpl in Hlost |- *.
    unfold receive_iteration. rewrite Hlost, andb_false_r. simpl.
    rewrite Hrun1. reflexivity. }
  rewrite Hs2, Hs1. simpl. split_and!; try reflexivity; try assumption.
  apply spinning_session_is_final. reflexivity.
Qed.

End SessionProperties.

(** ** The pen and single calls *)

(** X8.  The last selection inside a band wins.  Two calls of
    [update_current_brush] in a row give what the second alone gives when
    its x-coordinate lies inside a band, and what the first alone gives
    otherwise; in particular a repeated call changes nothing. *)
Theorem last_selection_in_a_band_wins x x' p :
  update_current_brush x (update_current_brush x' p) =
  if in_a_band x then update_current_brush x p else update_current_brush x' p.
Proof.
  unfold in_a_band, update_current_brush.
  destruct ((250 <? x) && (x <? 450)), ((550 <? x) && (x <? 750)),
           ((800 <? x) && (x <? 1000)), ((1050 <? x) && (x <? 1200));
    destruct ((250 <? x') && (x' <? 450)), ((550 <? x') && (x' <? 750)),
             ((800 <? x') && (x' <? 1000)), ((1050 <? x') && (x' <? 1200));
    reflexivity.
Qed.

Section Calls.

Variable endpoint : nat -> bool.
Variable json_dumps : pyval -> option string.
Variable json_loads : string -> option pyval.
Variable cv2_line : ndarray -> pyval -> pyval -> pyval -> pyval -> option ndarray.

Local Abbreviation send_drawing' := (send_drawing json_dumps cv2_line).
Local Abbreviation frame_step' := (frame_step json_dumps cv2_line).
Local Abbreviation receive_iteration' := (receive_iteration endpoint json_loads cv2_line).

Lemma set_connected_same q b : connected q = b -> set_connected b q = q.
Proof using Type. intros <-. destruct q; reflexivity. Qed.

(** X9.  [connect_to_server] against an endpoint that comes back in time.  When
    the endpoint refuses the next [k] handshakes and accepts the one after
    them, and [k] is less than what is left of the retry budget, the call
    returns True after [k] refusals with their backoff and the accepted
    handshake; the painter holds the new socket, is marked connected, and
    its retry counter has grown by [k] (it is not reset by the success). *)
Theorem connect_to_server_accepted p t k :
  (k < budget p)%nat ->
  (forall i, (i < k)%nat -> endpoint (attempts t + i) = false) ->
  endpoint (attempts t + k) = true ->
  connect_to_server endpoint p t =
    (true,
     set_connected true (set_ws (Some (attempts t + k)%nat)
       (set_retry_count (retry_count p + Z.of_nat k) p)),
     t ++ refused k ++ [Handshake true]).
Proof using Type.
  intros Hk Href Hacc.
  destruct (connect_to_server_spec endpoint p t)
    as (k' & Hk' & Href' & [(Hlt & Hacc' & ->)|(-> & _)]).
  - assert (k' = k).
    { destruct (Nat.lt_trichotomy k' k) as [H|[H|H]]; [|exact H|].
      - rewrite (Href k' H) in Hacc'. discriminate.
      - rewrite (Href' k H) in Hacc. discriminate. }
    subst k'. reflexivity.
  - rewrite (Href' k Hk) in Hacc. discriminate.
Qed.

(** X10.  [send_drawing] draws before it sends.  When [cv2.line] returns, the
    call returns with the line on the canvas and in the snapshot whatever
    the network part does.  On a painter that is connected and not in
    local mode it hands the encoded record to the socket, or, when
    encoding raises, clears [connected] and sends nothing; on any other
    painter it leaves the trace and the flag alone.  No other attribute
    changes. *)
Theorem send_drawing_draws_before_it_sends now x1 y1 x2 y2 color thickness p t img :
  draw_line cv2_line (local_args x1 y1 x2 y2 color thickness) (imgCanvas p) = Some img ->
  exists p' t',
    send_drawing' now x1 y1 x2 y2 color thickness p t = Returned (p', t') /\
    p' = set_connected (connected p') (set_displayBuffer img (set_imgCanvas img p)) /\
    (local_mode p = false -> is_connected p ->
     match encode json_dumps now x1 y1 x2 y2 color thickness with
     | Some payload => t' = t ++ [Dispatch payload] /\ connected p' = true
     | None => t' = t /\ connected p' = false
     end) /\
    (local_mode p = true \/ ws p = None \/ connected p = false ->
     t' = t /\ connected p' = connected p).
Proof using Type.
  intros Hl.
  pose proof (send_drawing_cases json_dumps cv2_line now x1 y1 x2 y2 color thickness p t)
    as Hs.
  rewrite Hl in Hs. cbv zeta in Hs.
  set (p1 := set_displayBuffer img (set_imgCanvas img p)) in *.
  assert (Hsame : p1 = set_connected (connected p1) p1)
    by (symmetry; apply set_connected_same; reflexivity).
  destruct (local_mode p) eqn:Hloc; simpl in Hs.
  { exists p1, t. split; [exact Hs|]. split; [exact Hsame|].
    split; [discriminate|auto]. }
  destruct (bool_decide (is_Some (ws p))) eqn:Hws; simpl in Hs.
  2:{ apply bool_decide_eq_false in Hws.
      exists p1, t. split; [exact Hs|]. split; [exact Hsame|].
      split; [intros _ [H _]; destruct (Hws H)|auto]. }
  apply bool_decide_eq_true in Hws.
  destruct (connected p) eqn:Hcn.
  2:{ exists p1, t. split; [exact Hs|]. split; [exact Hsame|].
      split; [intros _ [_ H]; congruence|auto]. }
  assert (Hrest : false = true \/ ws p = None \/ true = false -> False).
  { intros [H|[H|H]]; [discriminate|rewrite H in Hws; destruct Hws as [? [=]]|discriminate]. }
  destruct (encode json_dumps now x1 y1 x2 y2 color thickness) as [payload|].
  - exists p1, (t ++ [Dispatch payload]). split; [exact Hs|]. split; [exact Hsame|].
    split; [auto|]. intros H. destruct (Hrest H).
  - exists (set_connected false p1), t. split; [exact Hs|]. split; [reflexivity|].
    split; [auto|]. intros H. destruct (Hrest H).
Qed.

(** X11.  A stroke starts at the pen.  In drawing mode (index finger up, middle
    finger down) with the fingertip at [(x, y)], [run] calls [cv2.line]
    from the pen to the fingertip when the pen is down and from the
    fingertip to itself when it is up, in the current colour and with the
    thickness of the current brush.  When the call returns, the line is on
    the canvas and in the snapshot and the pen is down at the fingertip;
    when it raises, canvas and trace are as before. *)
Theorem stroke_starts_at_the_pen now g p t x y :
  drawing_mode g = true -> index_tip g = (x, y) ->
  let '(x0, y0) := default (x, y) (pen p) in
  match draw_line cv2_line
          (local_args x0 y0 x y (drawColor p) (stroke_thickness p)) (imgCanvas p) with
  | Some img =>
      exists p' t',
        frame_step' now (Some g) p t = Returned (p', t') /\
        imgCanvas p' = img /\ displayBuffer p' = img /\ pen p' = Some (x, y)
  | None =>
      exists q,
        frame_step' now (Some g) p t = Raised (q, t) /\
        imgCanvas q = imgCanvas p /\ displayBuffer q = displayBuffer p /\
        pen q = Some (x0, y0)
  end.
Proof using Type.
  unfold drawing_mode. intros Hg Htip.
  apply andb_true_iff in Hg as [Hi Hm]. apply negb_true_iff in Hm.
  unfold frame_step. rewrite Htip, Hi, Hm. simpl.
  unfold pen, stroke_thickness.
  destruct (is_drawing p) eqn:Hd; simpl.
  - pose proof (send_drawing_cases json_dumps cv2_line now (xp p) (yp p) x y
                  (drawColor p)
                  (if String.eqb (current_brush p) "eraser"
                   then eraserThickness p else brushThickness p) p t) as Hs.
    destruct (draw_line cv2_line _ (imgCanvas p)) as [img|].
    + cbv zeta in Hs.
      destruct (negb (local_mode p) && bool_decide (is_Some (ws p)) && connected p);
        [destruct (encode json_dumps _ _ _ _ _ _ _)|];
        rewrite Hs; eexists _, _; (split; [reflexivity|]); simpl; rewrite ?Hd; auto.
    + rewrite Hs. exists p. rewrite Hd. auto.
  - set (p1 := set_is_drawing true (set_xp_yp x y p)).
    pose proof (send_drawing_cases json_dumps cv2_line now x y x y
                  (drawColor p)
                  (if String.eqb (current_brush p) "eraser"
                   then eraserThickness p else brushThickness p) p1 t) as Hs.
    change (imgCanvas p1) with (imgCanvas p) in Hs.
    change (xp p1) with x. change (yp p1) with y.
    change (drawColor p1) with (drawColor p).
    change (current_brush p1) with (current_brush p).
    change (eraserThickness p1) with (eraserThickness p).
    change (brushThickness p1) with (brushThickness p).
    destruct (draw_line cv2_line _ (imgCanvas p)) as [img|].
    + cbv zeta in Hs.
      destruct (negb (local_mode p1) && bool_decide (is_Some (ws p1)) && connected p1);
        [destruct (encode json_dumps _ _ _ _ _ _ _)|];
        rewrite Hs; eexists _, _; (split; [reflexivity|]); simpl; auto.
    + rewrite Hs. exists p1. simpl. auto.
Qed.

(** X12.  Selection mode only selects.  With index and middle finger up, a pass
    lifts the pen and changes the brush to the band under the fingertip
    when the fingertip is in the header strip (y below 125), and leaves
    the brush alone otherwise, also when x lies inside a band; it draws
    nothing, sends nothing and leaves the connection as it is. *)
Theorem selection_mode_only_selects now g p t x y :
  selection_mode g = true -> index_tip g = (x, y) ->
  exists p',
    frame_step' now (Some g) p t = Returned (p', t) /\
    pen p' = None /\
    imgCanvas p' = imgCanvas p /\ displayBuffer p' = displayBuffer p /\
    (let q := if y <? 125 then update_current_brush x p else p in
     (current_brush p', drawColor p', current_header p')
       = (current_brush q, drawColor q, current_header q)) /\
    (ws p', connected p', retry_count p') = (ws p, connected p, retry_count p).
Proof using Type.
  unfold selection_mode. intros Hg Htip.
  apply andb_true_iff in Hg as [Hi Hm].
  unfold frame_step. rewrite Htip, Hi, Hm. simpl.
  eexists. split; [reflexivity|].
  destruct (y <? 125); [|simpl; auto].
  unfold update_current_brush.
  repeat match goal with |- context [if ?b then _ else _] => destruct b end;
    simpl; auto.
Qed.

(** X13.  The pen follows the hand.  After a pass that returns, the pen is down
    at the fingertip when the gesture was drawing mode, up after any other
    gesture, and where it was when no hand was found: losing the hand does
    not lift the pen, so the next stroke is joined to the point where the
    hand was last seen. *)
Theorem pen_follows_the_hand now hand p t p' t' :
  frame_step' now hand p t = Returned (p', t') ->
  pen p' =
    match hand with
    | None => pen p
    | Some g => if drawing_mode g then Some (index_tip g) else None
    end.
Proof using Type.
  unfold frame_step, drawing_mode. destruct hand as [g|]; [|intros [= <- _]; reflexivity].
  destruct (index_tip g) as [x y].
  destruct (index_up g), (middle_up g); simpl.
  - intros [= <- _]. destruct (y <? 125); [|reflexivity].
    unfold update_current_brush.
    repeat match goal with |- context [if ?b then _ else _] => destruct b end;
      reflexivity.
  - set (p1 := if negb (is_drawing p) then _ else p).
    assert (H1 : is_drawing p1 = true)
      by (subst p1; destruct (is_drawing p) eqn:E; simpl; auto).
    set (th := if String.eqb _ _ then _ else _).
    pose proof (send_drawing_cases json_dumps cv2_line now (xp p1) (yp p1) x y
                  (drawColor p1) th p1 t) as Hs.
    destruct (draw_line cv2_line _ (imgCanvas p1)) as [img|];
      [cbv zeta in Hs|rewrite Hs; discriminate].
    destruct (negb (local_mode p1) && bool_decide (is_Some (ws p1)) && connected p1);
      [destruct (encode json_dumps _ _ _ _ _ _ _)|];
      rewrite Hs; intros [= <- _]; unfold pen; simpl; rewrite H1; reflexivity.
  - intros [= <- _]. reflexivity.
  - intros [= <- _]. reflexivity.
Qed.

(** X14.  The receive loop never touches the pen or the brush.  One pass of it
    leaves the pen, the brush with its colour, thickness and header, the
    mode and [running] as they are, whatever arrives; it changes the canvas
    and the snapshot only on a message, and the socket, the flag, the retry
    counter and the trace only when it finds the connection closed. *)
Theorem receive_loop_leaves_the_pen_alone o p t :
  let '(p', t') := receive_iteration' o p t in
  pen p' = pen p /\
  (current_brush p', drawColor p', stroke_thickness p', current_header p')
    = (current_brush p, drawColor p, stroke_thickness p, current_header p) /\
  running p' = running p /\ local_mode p' = local_mode p /\
  ((forall m, o <> RecvMessage m) ->
   imgCanvas p' = imgCanvas p /\ displayBuffer p' = displayBuffer p) /\
  (o <> RecvClosed ->
   t' = t /\ ws p' = ws p /\ connected p' = connected p /\
   retry_count p' = retry_count p).
Proof using Type.
  pose proof (receive_iteration_effect endpoint json_loads cv2_line o p t) as He.
  destruct (receive_iteration' o p t) as [p' t'].
  destruct He as ((E1 & E2 & _) & (B1 & B2 & B3) & (P1 & P2 & P3) &
                  (R1 & R2 & _) & Hc & Ht).
  split; [unfold pen; rewrite P1, P2, P3; reflexivity|].
  split; [unfold stroke_thickness; rewrite B1, B2, B3, E1, E2; reflexivity|].
  split; [exact R1|]. split; [exact R2|]. split.
  - intros Hm. destruct Hc as [Hc|(m & _ & _ & -> & _)]; [exact Hc|].
    destruct (Hm m eq_refl).
  - intros Ho. destruct Ht as [Ht|(-> & _)]; [exact Ht|]. destruct (Ho eq_refl).
Qed.

End Calls.

(** ** The compositor, continued *)

Lemma lor_byte a b : 0 <= a <= 255 -> 0 <= b <= 255 -> 0 <= Z.lor a b <= 255.
Proof.
  intros Ha Hb.
  assert (H : Z.land (Z.lor a b) 255 = Z.lor a b)
    by (rewrite Z.land_lor_distr_l, !land_byte by assumption; reflexivity).
  change 255 with (Z.ones 8) in H. rewrite Z.land_ones in H by lia.
  pose proof (Z.mod_pos_bound (Z.lor a b) (2 ^ 8) eq_refl) as Hm.
  rewrite H in Hm. change (2 ^ 8) with 256 in Hm. lia.
Qed.

Section CompositorEdges.

Variable luminance : Z -> Z -> Z -> Z.
Variable scalar_operand : (Z -> Z -> Z) -> ndarray -> ndarray -> option ndarray.

(** X16.  Bytes in, bytes out.  For a live frame and a three-channel
    snapshot of the same shape, both of 8-bit channels, the five [cv2]
    calls of the compositor return, and the image they give has 8-bit
    channels and the shape of the live frame: no channel of the shown
    frame leaves the range 0..255, also where a stroke is OR-ed into the
    live pixel. *)
Theorem compose_stays_in_bytes live snap :
  uint8 live -> uint8 snap -> chans snap = 3 -> same_shape live snap = true ->
  exists shown,
    compose luminance scalar_operand live snap = Some shown /\
    uint8 shown /\ shape shown = shape live.
Proof using Type.
  intros Hlive Hsnap Hch Hshape.
  destruct (compose_pixels luminance scalar_operand live snap Hch Hshape)
    as (shown & Hc & Hss & Hpx).
  exists shown. split; [exact Hc|]. split.
  - intros r c ch. rewrite Hpx. apply lor_byte; [|apply Hsnap].
    destruct (50 <? gray_at luminance snap r c).
    + rewrite Z.land_0_r. lia.
    + rewrite land_byte by apply Hlive. apply Hlive.
  - unfold shape. unfold same_shape in *.
    apply andb_true_iff in Hss as [Hss Hc3]. apply andb_true_iff in Hss as [Hr Hcl].
    apply andb_true_iff in Hshape as [Hsh Hd3]. apply andb_true_iff in Hsh as [Hr' Hcl'].
    f_equal; [f_equal|]; lia.
Qed.

End CompositorEdges.

(** ** The lock around the canvas, continued *)

Lemma at_move t q s : at_ (move t q s) t = q.
Proof. destruct t; reflexivity. Qed.

Lemma at_move_other t q s : at_ (move t q s) (other t) = at_ s (other t).
Proof. destruct t; reflexivity. Qed.

Lemma other_other t : other (other t) = t.
Proof. destruct t; reflexivity. Qed.

Section LockProgress.

Variable raster : pyval * pyval * pyval * pyval -> option (list pixel_write).
Variable blank : ndarray.

(** Who is inside the with-block is the lock holder. *)
Lemma inside_is_holder s t :
  lock_inv raster blank s -> at_ s t <> Outside -> drawLock s = Some t.
Proof using Type.
  intros [_ Hlock] Hat. destruct (drawLock s) as [h|].
  - destruct Hlock as [Ho _]. destruct t, h; simpl in *; congruence.
  - destruct Hlock as (_ & Hd & Hr). destruct t; simpl in *; congruence.
Qed.

Lemma published_step s s' :
  lock_inv raster blank s -> published s -> lock_step raster s s' -> published s'.
Proof using Type.
  intros Hinv Hpub Hstep. unfold published in *.
  destruct Hstep as [t a s Hfree Hat|t a todo s Hat Ha|t a s Hat Ha
                    |t w todo s Hat|t s Hat|t s Hat];
    [rewrite Hfree in Hpub; destruct t; simpl; exact Hpub|..];
    pose proof (inside_is_holder s t Hinv) as Hh; rewrite Hat in Hh;
    specialize (Hh ltac:(discriminate)); rewrite Hh, Hat in Hpub;
    destruct t; simpl in *; rewrite ?Hh; simpl; auto.
Qed.

Lemma published_reachable s :
  rtc (lock_step raster) (start blank) s -> lock_inv raster blank s /\ published s.
Proof using Type.
  revert s. apply rtc_ind_r.
  - split; [apply lock_inv_start|reflexivity].
  - intros y z _ Hstep [Hinv Hpub]. split.
    + eapply lock_inv_step; eassumption.
    + eapply published_step; eassumption.
Qed.

(** X17.  Outside the critical sections the snapshot is the canvas.  However the
    two loops interleave, whenever nobody holds [drawLock] the published
    snapshot equals the canvas: every completed stroke of either loop has
    been published, and a [cv2.line] call that raised has left both
    alone. *)
Theorem free_lock_means_published s :
  rtc (lock_step raster) (start blank) s ->
  drawLock s = None -> snapshot s = canvas s.
Proof using Type.
  intros Hr Hfree. destruct (published_reachable s Hr) as [_ Hpub].
  unfold published in Hpub. rewrite Hfree in Hpub. exact Hpub.
Qed.

(** The holder can always finish. *)
Lemma holder_finishes s h :
  drawLock s = Some h -> at_ s h <> Outside -> at_ s (other h) = Outside ->
  exists s',
    rtc (lock_step raster) s s' /\ drawLock s' = None /\
    drawing_at s' = Outside /\ receive_at s' = Outside.
Proof using Type.
  intros Hl Hat Ho.
  assert (Hleave : forall u, at_ u h = Leaving -> at_ u (other h) = Outside ->
            exists s', rtc (lock_step raster) u s' /\ drawLock s' = None /\
                       drawing_at s' = Outside /\ receive_at s' = Outside).
  { intros u Hu Huo. eexists. split; [apply rtc_once, (step_release raster h u Hu)|].
    destruct h; simpl in *; auto. }
  assert (Hline : forall u ws, at_ u h = InLine ws -> at_ u (other h) = Outside ->
            exists s', rtc (lock_step raster) u s' /\ drawLock s' = None /\
                       drawing_at s' = Outside /\ receive_at s' = Outside).
  { intros u ws Hu Huo.
    pose proof (stores_run raster h ws u Hu) as Hrun.
    set (u1 := move h (InLine []) (set_canvas (store_all ws (canvas u)) u)) in *.
    assert (H1 : at_ u1 h = InLine []) by apply at_move.
    destruct (Hleave (move h Leaving (set_snapshot (canvas u1) u1)))
      as (s' & Hs' & Hrest).
    { apply at_move. }
    { subst u1. destruct h; simpl in *; exact Huo. }
    exists s'. split; [|exact Hrest].
    eapply rtc_trans; [exact Hrun|].
    eapply rtc_l; [apply (step_publish raster h u1 H1)|exact Hs']. }
  destruct (at_ s h) as [|a|ws|] eqn:Hpos; [congruence| | |].
  - destruct (raster a) as [ws|] eqn:Ha.
    + destruct (Hline (move h (InLine ws) s) ws) as (s' & Hs' & Hrest).
      { apply at_move. }
      { rewrite at_move_other. exact Ho. }
      exists s'. split; [|exact Hrest].
      eapply rtc_l; [apply (step_line raster h a ws s Hpos Ha)|exact Hs'].
    + destruct (Hleave (move h Leaving s)) as (s' & Hs' & Hrest).
      { apply at_move. }
      { rewrite at_move_other. exact Ho. }
      exists s'. split; [|exact Hrest].
      eapply rtc_l; [apply (step_line_raises raster h a s Hpos Ha)|exact Hs'].
  - apply (Hline s ws Hpos Ho).
  - apply (Hleave s Hpos Ho).
Qed.

(** X18.  The lock is always released.  From every state the two loops can
    reach, the loop that holds [drawLock] can run its with-block to the end
    without the other loop taking a step: the model reaches a state in
    which the lock is free and both loops are outside.  Neither an
    exception of [cv2.line] nor any interleaving leaves the lock taken for
    good. *)
Theorem lock_is_always_released s :
  rtc (lock_step raster) (start blank) s ->
  exists s',
    rtc (lock_step raster) s s' /\ drawLock s' = None /\
    drawing_at s' = Outside /\ receive_at s' = Outside /\
    snapshot s' = canvas s'.
Proof using Type.
  intros Hr. pose proof (lock_inv_reachable raster blank s Hr) as Hinv.
  assert (Hex : exists s', rtc (lock_step raster) s s' /\ drawLock s' = None /\
                           drawing_at s' = Outside /\ receive_at s' = Outside).
  { destruct Hinv as [_ Hlock].
    destruct (drawLock s) as [h|] eqn:Hl.
    - destruct Hlock as [Ho Hset].
      apply (holder_finishes s h Hl); [|exact Ho].
      intros Hat. rewrite Hat in Hset. exact Hset.
    - destruct Hlock as (_ & Hd & Hrc). exists s. split; [apply rtc_refl|auto]. }
  destruct Hex as (s' & Hs' & Hfree & Hd & Hrc).
  exists s'. split_and!; try assumption.
  assert (Hr' : rtc (lock_step raster) (start blank) s')
    by (eapply rtc_trans; eassumption).
  destruct (published_reachable s' Hr') as [_ Hpub].
  unfold published in Hpub. rewrite Hfree in Hpub. exact Hpub.
Qed.

End LockProgress.

(** ** Sessions under assumptions on [cv2.line] *)

Section SessionsWithCv2.

Variable endpoint : nat -> bool.
Variable json_dumps : pyval -> option string.
Variable json_loads : string -> option pyval.
Variable cv2_line : ndarray -> pyval -> pyval -> pyval -> pyval -> option ndarray.

Local Abbreviation frame_step' := (frame_step json_dumps cv2_line).
Local Abbreviation step' := (step endpoint json_dumps json_loads cv2_line).
Local Abbreviation session_after' := (session_after endpoint json_dumps json_loads cv2_line).
Local Abbreviation facts' := (session_after_facts endpoint json_dumps json_loads cv2_line).

Lemma drawn_shape calls img img' :
  (forall a b c d e a', cv2_line a b c d e = Some a' -> shape a' = shape a) ->
  drawn cv2_line calls img = Some img' -> shape img' = shape img.
Proof using Type.
  intros Hshape. revert img'.
  induction calls as [|a calls IH] using rev_ind; intros img'.
  - intros [= <-]. reflexivity.
  - unfold drawn. rewrite fold_left_app. simpl.
    fold (drawn cv2_line calls img).
    destruct (drawn cv2_line calls img) as [mid|]; [|discriminate]. simpl.
    destruct a as [[[pt1 pt2] color] thickness]. simpl. intros Hl.
    rewrite (Hshape _ _ _ _ _ _ Hl). apply IH. reflexivity.
Qed.

(** X20.  The canvas keeps its shape, so the compositor always goes through.
    When [cv2.line] returns an array of the shape it was given (it draws in
    place), canvas and snapshot are 720 x 1280 x 3 in every state of every
    session, and the five [cv2] calls of the compositor return for every
    live frame of that shape: compositing cannot raise out of the main
    loop as long as the camera delivers 1280 x 720 colour frames. *)
Theorem canvas_keeps_its_shape hp hb hg he events :
  (forall a b c d e a', cv2_line a b c d e = Some a' -> shape a' = shape a) ->
  let p := self (session_after' hp hb hg he events) in
  shape (imgCanvas p) = (720, 1280, 3) /\
  shape (displayBuffer p) = (720, 1280, 3) /\
  forall luminance scalar_operand live,
    shape live = (720, 1280, 3) ->
    is_Some (compose luminance scalar_operand live (displayBuffer p)).
Proof using Type.
  intros Hshape p.
  destruct (facts' hp hb hg he events) as [_ _ _ F4 [calls F5] _ _ _ _ _].
  fold p in F4, F5.
  assert (Hc : shape (imgCanvas p) = (720, 1280, 3))
    by (rewrite (drawn_shape calls _ _ Hshape F5); reflexivity).
  rewrite F4. split; [exact Hc|]. split; [exact Hc|].
  intros luminance scalar_operand live Hlive. unfold shape in Hc, Hlive.
  injection Hc as Hr Hcl Hch. injection Hlive as Hr' Hcl' Hch'.
  destruct (compose_pixels luminance scalar_operand live (imgCanvas p))
    as (shown & -> & _); eauto.
  unfold same_shape. rewrite Hr, Hcl, Hch, Hr', Hcl', Hch'. reflexivity.
Qed.

End SessionsWithCv2.

(** ** The header overlay *)

Lemma byte_cases (P : Z -> Prop) :
  (forall n : nat, (n < 256)%nat -> P (Z.of_nat n)) ->
  forall z, 0 <= z <= 255 -> P z.
Proof.
  intros H z Hz. rewrite <- (Z2Nat.id z) by lia. apply H. lia.
Qed.

Local Ltac each_byte :=
  apply byte_cases; intros n Hn;
  do 256 (destruct n as [|n]; [vm_compute; reflexivity|]); lia.

Lemma to_float_mul_0 z : 0 <= z <= 255 -> (to_float z * 0)%float = 0%float.
Proof. revert z. each_byte. Qed.

Lemma to_float_mul_1 z : 0 <= z <= 255 -> (to_float z * 1)%float = to_float z.
Proof. revert z. each_byte. Qed.

Lemma to_float_add_0_r z : 0 <= z <= 255 -> (to_float z + 0)%float = to_float z.
Proof. revert z. each_byte. Qed.

Lemma to_float_add_0_l z : 0 <= z <= 255 -> (0 + to_float z)%float = to_float z.
Proof. revert z. each_byte. Qed.

Lemma to_uint8_to_float z : 0 <= z <= 255 -> to_uint8 (to_float z) = z.
Proof. revert z. each_byte. Qed.

Lemma blend_channel_transparent i b :
  0 <= i <= 255 -> 0 <= b <= 255 -> blend_channel i b 0 = i.
Proof.
  intros Hi Hb. unfold blend_channel. cbv zeta.
  change (to_float 0 / 255)%float with 0%float.
  change (1 - 0)%float with 1%float.
  rewrite to_float_mul_1, to_float_mul_0, to_float_add_0_r by assumption.
  apply to_uint8_to_float, Hi.
Qed.

Lemma blend_channel_opaque i b :
  0 <= i <= 255 -> 0 <= b <= 255 -> blend_channel i b 255 = b.
Proof.
  intros Hi Hb. unfold blend_channel. cbv zeta.
  change (to_float 255 / 255)%float with 1%float.
  change (1 - 1)%float with 0%float.
  rewrite to_float_mul_1, to_float_mul_0, to_float_add_0_l by assumption.
  apply to_uint8_to_float, Hb.
Qed.

Lemma alpha_blend_full_header hdr img :
  shape hdr = (125, 1280, 4) ->
  overlay_header_value hdr img =
    if (3 <=? chans img) && (125 =? Z.min 125 (rows img))
       && (1280 =? Z.min 1280 (cols img))
    then
      Some {| rows := rows img; cols := cols img; chans := chans img;
              px := fun r c ch =>
                if (0 <=? r) && (r <? Z.min 125 (rows img)) && (0 <=? c)
                   && (c <? Z.min 1280 (cols img)) && (0 <=? ch) && (ch <? 3)
                then blend_channel (px img r c ch) (px hdr r c ch) (px hdr r c 3)
                else px img r c ch |}
    else None.
Proof.
  unfold shape. intros [= Hr Hc Hch].
  unfold overlay_header_value, alpha_blend, fits. rewrite Hr, Hc, Hch.
  change (4 =? 4) with true. change (125 =? 1) with false.
  change (1280 =? 1) with false. cbv zeta. rewrite !orb_false_r. reflexivity.
Qed.

Lemma overlay_header_value_shape hdr img :
  shape hdr = (125, 1280, 4) ->
  (is_Some (overlay_header_value hdr img) <->
   125 <= rows img /\ 1280 <= cols img /\ 3 <= chans img) /\
  (forall out, overlay_header_value hdr img = Some out -> shape out = shape img).
Proof.
  intros Hshape. rewrite (alpha_blend_full_header hdr img Hshape).
  destruct ((3 <=? chans img) && (125 =? Z.min 125 (rows img))
            && (1280 =? Z.min 1280 (cols img))) eqn:E.
  - apply andb_true_iff in E as [E E3]. apply andb_true_iff in E as [E1 E2].
    split; [split; [lia|eauto]|]. intros out [= <-]. reflexivity.
  - split; [|discriminate]. split; [intros [out [=]]|].
    intros (H1 & H2 & H3).
    replace (3 <=? chans img) with true in E by lia.
    replace (125 =? Z.min 125 (rows img)) with true in E by lia.
    replace (1280 =? Z.min 1280 (cols img)) with true in E by lia.
    discriminate.
Qed.

(** X21.  [overlay_header] needs a full frame.  With a header of 125 rows, 1280
    columns and an alpha channel (what [cv2.resize] in
    [init_header_images] produces from a four-channel image), the three
    channel assignments go through exactly when the frame has at least 125
    rows, 1280 columns and three channels; on any smaller frame the method
    raises.  When it returns, the frame keeps its shape. *)
Theorem overlay_header_needs_a_full_frame hdr img :
  shape hdr = (125, 1280, 4) ->
  (is_Some (overlay_header_value hdr img) <->
   125 <= rows img /\ 1280 <= cols img /\ 3 <= chans img) /\
  (forall out, overlay_header_value hdr img = Some out -> shape out = shape img).
Proof. apply overlay_header_value_shape. Qed.

(** X22.  What the header overlay shows.  For an 8-bit frame and an 8-bit header
    of 125 x 1280 pixels with an alpha channel, inside the header strip
    (rows 0..124, columns 0..1279, the three colour channels) a frame
    pixel under a fully transparent header pixel (alpha 0) is left exactly
    as it is, and one under a fully opaque header pixel (alpha 255)
    becomes exactly the header pixel: the float arithmetic and the cast
    back to 8 bits lose nothing there.  Outside the strip, and in a fourth
    channel of the frame, nothing changes. *)
Theorem overlay_header_blends_by_alpha hdr img out r c ch :
  shape hdr = (125, 1280, 4) -> uint8 hdr -> uint8 img ->
  overlay_header_value hdr img = Some out ->
  (0 <= r < 125 /\ 0 <= c < 1280 /\ 0 <= ch < 3 ->
   (px hdr r c 3 = 0 -> px out r c ch = px img r c ch) /\
   (px hdr r c 3 = 255 -> px out r c ch = px hdr r c ch) /\
   px out r c ch = blend_channel (px img r c ch) (px hdr r c ch) (px hdr r c 3)) /\
  (r < 0 \/ 125 <= r \/ c < 0 \/ 1280 <= c \/ ch < 0 \/ 3 <= ch ->
   px out r c ch = px img r c ch).
Proof.
  intros Hshape Hhdr Himg Hout.
  destruct (overlay_header_value_shape hdr img Hshape) as [Hok _].
  assert (Hsome : is_Some (overlay_header_value hdr img)) by eauto.
  apply Hok in Hsome as (H1 & H2 & H3).
  rewrite (alpha_blend_full_header hdr img Hshape) in Hout.
  destruct ((3 <=? chans img) && _ && _); [|discriminate].
  injection Hout as <-. cbn [px].
  replace (Z.min 125 (rows img)) with 125 by lia.
  replace (Z.min 1280 (cols img)) with 1280 by lia.
  split.
  - intros (Hr' & Hc' & Hch').
    replace ((0 <=? r) && (r <? 125) && (0 <=? c) && (c <? 1280)
             && (0 <=? ch) && (ch <? 3)) with true by lia.
    split; [|split; [|reflexivity]].
    + intros ->. apply blend_channel_transparent; [apply Himg|apply Hhdr].
    + intros ->. apply blend_channel_opaque; [apply Himg|apply Hhdr].
  - intros Hout.
    replace ((0 <=? r) && (r <? 125) && (0 <=? c) && (c <? 1280)
             && (0 <=? ch) && (ch <? 3)) with false by lia.
    reflexivity.
Qed.

(** ** The [cv2.line] double meets the assumptions *)

Lemma store_shape w img : shape (store w img) = shape img.
Proof.
  destruct w as [[r c] vals]. unfold store.
  destruct (in_bounds img r c); reflexivity.
Qed.

Lemma store_all_shape ws img : shape (store_all ws img) = shape img.
Proof.
  revert img. induction ws as [|w ws IH]; intros img; [reflexivity|].
  unfold store_all in *. simpl. rewrite IH. apply store_shape.
Qed.

Lemma Cv2_line_keeps_shape img pt1 pt2 color thickness img' :
  Cv2.line img pt1 pt2 color thickness = Some img' -> shape img' = shape img.
Proof.
  unfold Cv2.line. destruct (Cv2.raster pt1 pt2 color thickness) as [ws|];
    [|discriminate].
  intros [= <-]. apply store_all_shape.
Qed.

(** ** Closed sessions, continued *)

Lemma dispatched_payloads_are_brush_strokes_witness :
  let s := test_session (accepting_only 0)
             [Frame "1699000000.25" (Some (pointing 300 200))] in
  let payload := wire "1699000000.25" 300 200 300 200 (189, 189, 103) 15 in
  In payload (dispatched (io s)) /\
  exists now x1 y1 x2 y2 name color thickness,
    In (name, color, thickness) palette /\
    encode Json.dumps now x1 y1 x2 y2 color thickness = Some payload.
Proof.
  cbv zeta.
  assert (Hin : In (wire "1699000000.25" 300 200 300 200 (189, 189, 103) 15)
                   (dispatched (io (test_session (accepting_only 0)
                      [Frame "1699000000.25" (Some (pointing 300 200))]))))
    by (vm_compute; left; reflexivity).
  split; [exact Hin|].
  exact (dispatched_payloads_are_brush_strokes (accepting_only 0) Json.dumps Json.loads
           Cv2.line blank_header blank_header blank_header blank_header
           [Frame "1699000000.25" (Some (pointing 300 200))] _ Hin).
Defined.


Lemma connect_to_server_accepted_witness :
  let p := new_painter blank_header blank_header blank_header blank_header in
  connect_to_server (accepting_only 1) p [] =
    (true,
     set_connected true (set_ws (Some 1%nat) (set_retry_count 1 p)),
     [Handshake false; Backoff 1; Handshake true]).
Proof.
  refine (connect_to_server_accepted (accepting_only 1)
            (new_painter blank_header blank_header blank_header blank_header)
            [] 1%nat _ _ _).
  - unfold budget. simpl. lia.
  - intros [|i] Hi; [reflexivity|lia].
  - reflexivity.
Defined.

Lemma send_drawing_draws_before_it_sends_witness :
  let p := self (test_session (accepting_only 0) []) in
  let img := store_all [(0, 0, [0; 0; 255]); (0, 1, [0; 0; 255]); (0, 2, [0; 0; 255])]
                       (imgCanvas p) in
  draw_line Cv2.line (local_args 0 0 2 0 (0, 0, 255) 1) (imgCanvas p) = Some img /\
  exists p' t',
    send_drawing Json.dumps Cv2.line "1699000000.25" 0 0 2 0 (0, 0, 255) 1 p []
      = Returned (p', t') /\
    p' = set_connected (connected p') (set_displayBuffer img (set_imgCanvas img p)) /\
    (local_mode p = false -> is_connected p ->
     match encode Json.dumps "1699000000.25" 0 0 2 0 (0, 0, 255) 1 with
     | Some payload => t' = [] ++ [Dispatch payload] /\ connected p' = true
     | None => t' = [] /\ connected p' = false
     end) /\
    (local_mode p = true \/ ws p = None \/ connected p = false ->
     t' = [] /\ connected p' = connected p).
Proof.
  cbv zeta.
  assert (Hl : draw_line Cv2.line (local_args 0 0 2 0 (0, 0, 255) 1)
                 (imgCanvas (self (test_session (accepting_only 0) [])))
               = Some (store_all
                         [(0, 0, [0; 0; 255]); (0, 1, [0; 0; 255]); (0, 2, [0; 0; 255])]
                         (imgCanvas (self (test_session (accepting_only 0) [])))))
    by reflexivity.
  split; [exact Hl|].
  exact (send_drawing_draws_before_it_sends Json.dumps Cv2.line "1699000000.25"
           0 0 2 0 (0, 0, 255) 1 _ [] _ Hl).
Defined.

Lemma stroke_starts_at_the_pen_witness :
  let p := new_painter blank_header blank_header blank_header blank_header in
  let g := pointing 300 200 in
  drawing_mode g = true /\ index_tip g = (300, 200) /\ pen p = None /\
  match draw_line Cv2.line
          (local_args 300 200 300 200 (drawColor p) (stroke_thickness p)) (imgCanvas p) with
  | Some img =>
      exists p' t',
        frame_step Json.dumps Cv2.line "1699000000.25" (Some g) p [] = Returned (p', t') /\
        imgCanvas p' = img /\ displayBuffer p' = img /\ pen p' = Some (300, 200)
  | None =>
      exists q,
        frame_step Json.dumps Cv2.line "1699000000.25" (Some g) p [] = Raised (q, []) /\
        imgCanvas q = imgCanvas p /\ displayBuffer q = displayBuffer p /\
        pen q = Some (300, 200)
  end.
Proof.
  cbv zeta. split; [reflexivity|]. split; [reflexivity|]. split; [reflexivity|].
  exact (stroke_starts_at_the_pen Json.dumps Cv2.line "1699000000.25" (pointing 300 200)
           (new_painter blank_header blank_header blank_header blank_header) []
           300 200 eq_refl eq_refl).
Defined.

Lemma pen_follows_the_hand_witness :
  let p := new_painter blank_header blank_header blank_header blank_header in
  let r := left_behind (frame_step Json.dumps Cv2.line "1699000000.25"
                          (Some (pointing 300 200)) p []) in
  frame_step Json.dumps Cv2.line "1699000000.25" (Some (pointing 300 200)) p []
    = Returned (fst r, snd r) /\
  pen (fst r) = Some (300, 200) /\
  frame_step Json.dumps Cv2.line "1699000000.75" None (fst r) (snd r)
    = Returned (fst r, snd r) /\
  pen (fst r) = pen (fst r).
Proof.
  cbv zeta.
  set (p := new_painter blank_header blank_header blank_header blank_header).
  set (r := left_behind (frame_step Json.dumps Cv2.line "1699000000.25"
                           (Some (pointing 300 200)) p [])).
  assert (H1 : frame_step Json.dumps Cv2.line "1699000000.25" (Some (pointing 300 200)) p []
               = Returned (fst r, snd r))
    by (vm_compute; reflexivity).
  assert (H2 : frame_step Json.dumps Cv2.line "1699000000.75" None (fst r) (snd r)
               = Returned (fst r, snd r))
    by reflexivity.
  split; [exact H1|].
  split; [exact (pen_follows_the_hand Json.dumps Cv2.line "1699000000.25"
                   (Some (pointing 300 200)) p [] (fst r) (snd r) H1)|].
  split; [exact H2|].
  exact (pen_follows_the_hand Json.dumps Cv2.line "1699000000.75" None
           (fst r) (snd r) (fst r) (snd r) H2).
Defined.

Lemma uint8_grey_frame : uint8 grey_frame.
Proof. intros r c ch. simpl. lia. Qed.

Lemma uint8_striped_snapshot : uint8 striped_snapshot.
Proof.
  intros r c ch. simpl.
  destruct (r =? 100), (r =? 200), (ch =? 2); lia.
Qed.

Lemma compose_stays_in_bytes_witness :
  exists shown,
    compose Cv2.luma no_scalar_operand grey_frame striped_snapshot = Some shown /\
    uint8 shown /\ shape shown = shape grey_frame.
Proof.
  exact (compose_stays_in_bytes Cv2.luma no_scalar_operand grey_frame striped_snapshot
           uint8_grey_frame uint8_striped_snapshot eq_refl eq_refl).
Defined.

Lemma after_short_line_reachable :
  rtc (lock_step raster_double) (start blank_frame) after_short_line.
Proof.
  exact (critical_section_runs raster_double DrawingLoop short_line
           [(0, 0, [0; 0; 255]); (0, 1, [0; 0; 255]); (0, 2, [0; 0; 255])]
           (start blank_frame) eq_refl eq_refl eq_refl).
Qed.

Lemma free_lock_means_published_witness :
  snapshot after_short_line = canvas after_short_line.
Proof.
  exact (free_lock_means_published raster_double blank_frame after_short_line
           after_short_line_reachable eq_refl).
Defined.

Lemma lock_is_always_released_witness :
  exists s',
    rtc (lock_step raster_double) half_drawn s' /\ drawLock s' = None /\
    drawing_at s' = Outside /\ receive_at s' = Outside /\
    snapshot s' = canvas s'.
Proof.
  exact (lock_is_always_released raster_double (np_zeros 720 1280 3) half_drawn
           half_drawn_reachable).
Defined.

Lemma close_is_called_at_most_once_witness :
  let s := test_session always_accepting
             [Frame "1699000000.25" (Some (pointing 300 200)); Quit] in
  let s' := step always_accepting Json.dumps Json.loads Cv2.line s (Poll RecvClosed) in
  io s = [Handshake true;
          Dispatch (wire "1699000000.25" 300 200 300 200 (189, 189, 103) 15);
          Close] /\
  io s' = io s ++ [Handshake true] /\
  ws (self s') = Some 1%nat /\ connected (self s') = true /\
  closes (io s) = 1%nat /\ closes (io s') = 1%nat /\
  forall more,
    fold_left (step always_accepting Json.dumps Json.loads Cv2.line) more s' = s'.
Proof.
  cbv zeta. split; [vm_compute; reflexivity|].
  refine (proj2 (proj2 (proj2 (proj2
            (close_is_called_at_most_once always_accepting Json.dumps Json.loads Cv2.line
               blank_header blank_header blank_header blank_header
               [Frame "1699000000.25" (Some (pointing 300 200)); Quit]))))
            _ _ _ _ _);
    vm_compute; reflexivity.
Defined.

Lemma lost_connection_stops_the_program_witness :
  let s := test_session (accepting_only 2)
             [Frame "1699000000.25" (Some (pointing 300 200))] in
  let s1 := step (accepting_only 2) Json.dumps Json.loads Cv2.line s (Poll RecvClosed) in
  let s2 := step (accepting_only 2) Json.dumps Json.loads Cv2.line s1 (Poll RecvTimeout) in
  io s1 = io s ++ [Handshake false; Backoff 1] /\
  spinning s2 = true /\ self s2 = self s1 /\ io s2 = io s1 /\
  in_main_loop s2 = true /\ running (self s2) = true /\ closes (io s2) = O /\
  fold_left (step (accepting_only 2) Json.dumps Json.loads Cv2.line)
            [Frame "1699000000.75" (Some (pointing 320 210)); Quit] s2 = s2.
Proof.
  cbv zeta. split; [vm_compute; reflexivity|].
  refine (lost_connection_stops_the_program (accepting_only 2) Json.dumps Json.loads
            Cv2.line blank_header blank_header blank_header blank_header
            [Frame "1699000000.25" (Some (pointing 300 200))] RecvTimeout
            [Frame "1699000000.75" (Some (pointing 320 210)); Quit] _ _ _ _).
  - vm_compute; reflexivity.
  - vm_compute; reflexivity.
  - split; [exists 2%nat|]; vm_compute; reflexivity.
  - vm_compute; reflexivity.
Defined.

Lemma canvas_keeps_its_shape_witness :
  let p := self (test_session (accepting_only 0)
                   [Frame "1699000000.25" (Some (pointing 300 200));
                    Poll (RecvMessage (wire_of dark_event))]) in
  shape (imgCanvas p) = (720, 1280, 3) /\
  shape (displayBuffer p) = (720, 1280, 3) /\
  forall luminance scalar_operand live,
    shape live = (720, 1280, 3) ->
    is_Some (compose luminance scalar_operand live (displayBuffer p)).
Proof.
  exact (canvas_keeps_its_shape (accepting_only 0) Json.dumps Json.loads Cv2.line
           blank_header blank_header blank_header blank_header
           [Frame "1699000000.25" (Some (pointing 300 200));
            Poll (RecvMessage (wire_of dark_event))]
           Cv2_line_keeps_shape).
Defined.

Lemma overlay_header_needs_a_full_frame_witness :
  (is_Some (overlay_header_value blank_header blank_frame) <->
   125 <= rows blank_frame /\ 1280 <= cols blank_frame /\ 3 <= chans blank_frame) /\
  (forall out, overlay_header_value blank_header blank_frame = Some out ->
               shape out = shape blank_frame).
Proof.
  exact (overlay_header_needs_a_full_frame blank_header blank_frame eq_refl).
Defined.

Lemma uint8_opaque_header : uint8 opaque_header.
Proof. intros r c ch. simpl. destruct (ch =? 3); lia. Qed.

Lemma uint8_blank_frame : uint8 blank_frame.
Proof. intros r c ch. simpl. lia. Qed.

Lemma overlay_header_blends_by_alpha_witness :
  let out := default blank_frame (overlay_header_value opaque_header blank_frame) in
  overlay_header_value opaque_header blank_frame = Some out /\
  px opaque_header 10 20 3 = 255 /\
  px out 10 20 1 = px opaque_header 10 20 1 /\
  px out 125 20 1 = px blank_frame 125 20 1.
Proof.
  cbv zeta.
  assert (Ho : overlay_header_value opaque_header blank_frame
               = Some (default blank_frame (overlay_header_value opaque_header blank_frame)))
    by reflexivity.
  split; [exact Ho|]. split; [reflexivity|]. split.
  - refine (proj1 (proj2 (proj1 (overlay_header_blends_by_alpha opaque_header blank_frame
              _ 10 20 1 eq_refl uint8_opaque_header uint8_blank_frame Ho) _)) eq_refl).
    lia.
  - refine (proj2 (overlay_header_blends_by_alpha opaque_header blank_frame
              _ 125 20 1 eq_refl uint8_opaque_header uint8_blank_frame Ho) _).
    lia.
Defined.

Lemma connected_painter_holds_a_socket_witness :
  let s := test_session (accepting_only 1) [Frame "1699000000.25" (Some (pointing 300 200))] in
  connected (self s) = true /\
  is_connected (self s) /\ local_mode (self s) = false /\
  receive_task s = true /\ retry_count (self s) < max_retries (self s).
Proof.
  cbv zeta.
  assert (Hc : connected (self (test_session (accepting_only 1)
                 [Frame "1699000000.25" (Some (pointing 300 200))])) = true)
    by (vm_compute; reflexivity).
  split; [exact Hc|].
  exact (connected_painter_holds_a_socket (accepting_only 1) Json.dumps Json.loads
           Cv2.line blank_header blank_header blank_header blank_header
           [Frame "1699000000.25" (Some (pointing 300 200))] Hc).
Defined.

Lemma selection_mode_only_selects_witness :
  let p := new_painter blank_header blank_header blank_header blank_header in
  let g := {| index_tip := (600, 60); middle_tip := (640, 60);
              index_up := true; middle_up := true |} in
  exists p',
    frame_step Json.dumps Cv2.line "1699000000.25" (Some g) p [] = Returned (p', []) /\
    pen p' = None /\
    imgCanvas p' = imgCanvas p /\ displayBuffer p' = displayBuffer p /\
    (let q := if 60 <? 125 then update_current_brush 600 p else p in
     (current_brush p', drawColor p', current_header p')
       = (current_brush q, drawColor q, current_header q)) /\
    (ws p', connected p', retry_count p') = (ws p, connected p, retry_count p).
Proof.
  exact (selection_mode_only_selects Json.dumps Cv2.line "1699000000.25"
           {| index_tip := (600, 60); middle_tip := (640, 60);
              index_up := true; middle_up := true |}
           (new_painter blank_header blank_header blank_header blank_header) []
           600 60 eq_refl eq_refl).
Defined.
